(** * A minimal proof-of-work ledger: core/blockchain.ts, networking/node.ts,
      consensus/miner.ts

    Shallow embedding of the TypeScript sources and the properties that the
    written specification states about them.

    Conventions of the embedding.
    - A JavaScript [string] is a Rocq [string]: the sequence of its UTF-8
      bytes (what [Hash.update] feeds to the digest).
    - A JavaScript [number] that the ledger stores (amounts, fees, indexes,
      nonces, timestamps) is an integer of [Z], printed in decimal as
      JavaScript prints the integers it represents exactly, below 10^21;
      the repository only ever builds such integers.  Where the code
      computes with numbers ([getBalance]) the model computes in IEEE 754
      doubles, an integer standing for the double nearest to it.
    - The typed records [Transaction.t] and [Block.t] are the objects that
      the literals of the repository build; [Json] and [Untyped] hold the
      same code on arbitrary plain values, and the typed functions are
      proved to be their restriction.
    - The digest of Node's [crypto] module is SHA-256 as FIPS 180-4 defines
      it, checked here on the standard known answers.
    - [Date.now()] is an input: every operation that reads the clock takes
      the readings as arguments.
    - [while (true)] of the nonce search is run on fuel; [OutOfFuel] is the
      only way the model can fail to finish, and the theorems give the fuel
      that suffices.
    - [console.log] output is kept only where a claim speaks about it. *)

From Stdlib Require Import ZArith List String Ascii Bool Lia Arith.
From Stdlib Require Import DecimalString.
From Stdlib Require DecimalFacts DecimalPos SpecFloat.
Import ListNotations.

Set Implicit Arguments.

(* ================================================================== *)
(** ** SHA-256 (FIPS 180-4), as [createHash('sha256').update(s).digest('hex')] *)
(* ================================================================== *)

Module SHA256.

Local Open Scope Z_scope.

Definition wrap32 (x : Z) : Z := x mod 4294967296.

Definition add32 (x y : Z) : Z := wrap32 (x + y).

Definition rotr (n x : Z) : Z :=
  Z.lor (Z.shiftr x n) (wrap32 (Z.shiftl x (32 - n))).

Definition not32 (x : Z) : Z := Z.lxor x 4294967295.

Definition Ch (x y z : Z) : Z := Z.lxor (Z.land x y) (Z.land (not32 x) z).

Definition Maj (x y z : Z) : Z :=
  Z.lxor (Z.lxor (Z.land x y) (Z.land x z)) (Z.land y z).

Definition bigSigma0 (x : Z) : Z :=
  Z.lxor (Z.lxor (rotr 2 x) (rotr 13 x)) (rotr 22 x).

Definition bigSigma1 (x : Z) : Z :=
  Z.lxor (Z.lxor (rotr 6 x) (rotr 11 x)) (rotr 25 x).

Definition smallSigma0 (x : Z) : Z :=
  Z.lxor (Z.lxor (rotr 7 x) (rotr 18 x)) (Z.shiftr x 3).

Definition smallSigma1 (x : Z) : Z :=
  Z.lxor (Z.lxor (rotr 17 x) (rotr 19 x)) (Z.shiftr x 10).

(** Round constants: the first 32 bits of the fractional parts of the cube
    roots of the first 64 primes (0x428a2f98, 0x71374491, ..., 0xc67178f2),
    written in decimal. *)
Definition roundConstants : list Z :=
    1116352408 :: 1899447441 :: 3049323471 :: 3921009573 ::
    961987163 :: 1508970993 :: 2453635748 :: 2870763221 ::
    3624381080 :: 310598401 :: 607225278 :: 1426881987 ::
    1925078388 :: 2162078206 :: 2614888103 :: 3248222580 ::
    3835390401 :: 4022224774 :: 264347078 :: 604807628 ::
    770255983 :: 1249150122 :: 1555081692 :: 1996064986 ::
    2554220882 :: 2821834349 :: 2952996808 :: 3210313671 ::
    3336571891 :: 3584528711 :: 113926993 :: 338241895 ::
    666307205 :: 773529912 :: 1294757372 :: 1396182291 ::
    1695183700 :: 1986661051 :: 2177026350 :: 2456956037 ::
    2730485921 :: 2820302411 :: 3259730800 :: 3345764771 ::
    3516065817 :: 3600352804 :: 4094571909 :: 275423344 ::
    430227734 :: 506948616 :: 659060556 :: 883997877 ::
    958139571 :: 1322822218 :: 1537002063 :: 1747873779 ::
    1955562222 :: 2024104815 :: 2227730452 :: 2361852424 ::
    2428436474 :: 2756734187 :: 3204031479 :: 3329325298 :: nil.

(** The eight chaining words. *)
Record state : Type := mkState {
  ha : Z; hb : Z; hc : Z; hd : Z; he : Z; hf : Z; hg : Z; hh : Z
}.

(** Initial value: square roots of the first 8 primes (0x6a09e667, ...). *)
Definition initialState : state :=
  mkState 1779033703 3144134277 1013904242 2773480762
          1359893119 2600822924 528734635 1541459225.

(** Message schedule, most recent word first: [sched] holds W(t-1), W(t-2),
    ... and [extendSchedule n] pushes the next [n] words. *)
Fixpoint extendSchedule (n : nat) (sched : list Z) : list Z :=
  match n with
  | O => sched
  | S n' =>
      let w := add32 (add32 (add32 (smallSigma1 (nth 1 sched 0)) (nth 6 sched 0))
                            (smallSigma0 (nth 14 sched 0)))
                     (nth 15 sched 0) in
      extendSchedule n' (w :: sched)
  end.

Definition schedule (block : list Z) : list Z :=
  rev (extendSchedule 48 (rev block)).

Definition round (s : state) (kw : Z * Z) : state :=
  let t1 := add32 (add32 (add32 (add32 (hh s) (bigSigma1 (he s)))
                                (Ch (he s) (hf s) (hg s)))
                         (fst kw))
                  (snd kw) in
  let t2 := add32 (bigSigma0 (ha s)) (Maj (ha s) (hb s) (hc s)) in
  mkState (add32 t1 t2) (ha s) (hb s) (hc s) (add32 (hd s) t1) (he s) (hf s) (hg s).

Definition compress (s : state) (block : list Z) : state :=
  let r := fold_left round (combine roundConstants (schedule block)) s in
  mkState (add32 (ha s) (ha r)) (add32 (hb s) (hb r))
          (add32 (hc s) (hc r)) (add32 (hd s) (hd r))
          (add32 (he s) (he r)) (add32 (hf s) (hf r))
          (add32 (hg s) (hg r)) (add32 (hh s) (hh r)).

(** Bytes of the message. *)
Fixpoint bytesOf (s : string) : list Z :=
  match s with
  | EmptyString => nil
  | String c s' => Z.of_N (N_of_ascii c) :: bytesOf s'
  end.

(** Big-endian bytes of [x], [n] of them. *)
Fixpoint bigEndian (n : nat) (x : Z) : list Z :=
  match n with
  | O => nil
  | S n' => Z.shiftr x (8 * Z.of_nat n') mod 256 :: bigEndian n' x
  end.

(** Padding: a 1 bit, zero bits up to 56 mod 64 bytes, the bit length on 8
    bytes. *)
Definition pad (msg : list Z) : list Z :=
  let len := Z.of_nat (List.length msg) in
  let zeros := Z.to_nat ((55 - len) mod 64) in
  msg ++ 128 :: repeat 0 zeros ++ bigEndian 8 (8 * len).

(** Four bytes to one big-endian word; a trailing group of fewer than four
    bytes does not occur after [pad]. *)
Fixpoint wordsOf (bytes : list Z) : list Z :=
  match bytes with
  | b0 :: b1 :: b2 :: b3 :: rest =>
      (((b0 * 256 + b1) * 256 + b2) * 256 + b3) :: wordsOf rest
  | _ => nil
  end.

(** Sixteen words per block. *)
Fixpoint blocksOf (fuel : nat) (words : list Z) : list (list Z) :=
  match fuel, words with
  | S fuel', _ :: _ => firstn 16 words :: blocksOf fuel' (skipn 16 words)
  | _, _ => nil
  end.

Definition hashState (msg : string) : state :=
  let words := wordsOf (pad (bytesOf msg)) in
  fold_left compress (blocksOf (List.length words) words) initialState.

(** [digest('hex')]: lower-case hexadecimal. *)
Definition hexDigit (x : Z) : ascii :=
  let d := x mod 16 in
  ascii_of_N (Z.to_N (if d <? 10 then 48 + d else 87 + d)).

Definition hexWord (w : Z) (tail : string) : string :=
  String (hexDigit (Z.shiftr w 28)) (String (hexDigit (Z.shiftr w 24))
  (String (hexDigit (Z.shiftr w 20)) (String (hexDigit (Z.shiftr w 16))
  (String (hexDigit (Z.shiftr w 12)) (String (hexDigit (Z.shiftr w 8))
  (String (hexDigit (Z.shiftr w 4)) (String (hexDigit w) tail))))))).

Definition hexState (s : state) : string :=
  hexWord (ha s) (hexWord (hb s) (hexWord (hc s) (hexWord (hd s)
  (hexWord (he s) (hexWord (hf s) (hexWord (hg s) (hexWord (hh s) ""))))))).

Definition sha256 (msg : string) : string := hexState (hashState msg).

End SHA256.

(* ================================================================== *)
(** ** The JavaScript conversions that [calculateHash] relies on *)
(* ================================================================== *)

Module Js.

Local Open Scope string_scope.

(** [String(n)] for an integer [n]: what [number + string] concatenates. *)
Definition numberToString (n : Z) : string :=
  NilZero.string_of_int (Z.to_int n).

(** ['0'.repeat(n)] *)
Fixpoint repeatZero (n : nat) : string :=
  match n with
  | O => ""
  | S n' => String "0" (repeatZero n')
  end.

(** [JSON.stringify] of one byte of a string: the quote, the backslash and
    the control characters are escaped, every other byte is kept. *)
Definition escapeChar (c : ascii) : string :=
  let n := N_of_ascii c in
  if N.eqb n 34 then "\" ++ String c ""
  else if N.eqb n 92 then "\\"
  else if N.eqb n 8 then "\b"
  else if N.eqb n 9 then "\t"
  else if N.eqb n 10 then "\n"
  else if N.eqb n 12 then "\f"
  else if N.eqb n 13 then "\r"
  else if N.ltb n 32 then
    "\u00" ++ String (SHA256.hexDigit (Z.of_N (N.div n 16)))
             (String (SHA256.hexDigit (Z.of_N n)) "")
  else String c "".

Fixpoint escape (s : string) : string :=
  match s with
  | EmptyString => ""
  | String c s' => escapeChar c ++ escape s'
  end.

(** [JSON.stringify(s)] for a string [s]. *)
Definition quote (s : string) : string :=
  String (ascii_of_N 34) (escape s) ++ String (ascii_of_N 34) "".

(** [JSON.stringify(xs)] for an array whose elements stringify to [xs]. *)
Definition array (xs : list string) : string :=
  "[" ++ String.concat "," xs ++ "]".

(** Arithmetic on a [number]: IEEE 754 binary64 (53 bits of mantissa,
    exponents below 1024), every operation rounded to the nearest double,
    ties to even, as the Standard Library specifies it. *)
Definition number : Type := SpecFloat.spec_float.

(** The double that an integer denotes: the nearest one, as a numeric
    literal or a JSON number is read. *)
Definition ofZ (z : Z) : number := SpecFloat.binary_normalize 53 1024 z 0 false.

(** [x + y] and [x - y] on numbers. *)
Definition add (x y : number) : number := SpecFloat.SFadd 53 1024 x y.

Definition sub (x y : number) : number := SpecFloat.SFsub 53 1024 x y.

(** [Number.isSafeInteger(z)] for an integer: magnitude at most 2^53 - 1. *)
Definition isSafeInteger (z : Z) : bool := (Z.abs z <=? 9007199254740991)%Z.

End Js.

(* ================================================================== *)
(** ** core/blockchain.ts *)
(* ================================================================== *)

Module Transaction.
Record t : Type := mk {
  from : string;
  to : string;
  amount : Z;
  fee : Z;
  timestamp : Z;
  signature : string
}.
End Transaction.

Module Block.
Record t : Type := mk {
  index : Z;
  previousHash : string;
  timestamp : Z;
  transactions : list Transaction.t;
  nonce : Z;
  hash : string
}.

(** [block.nonce = n] and [block.hash = h], the two assignments the code
    makes to a block. *)
Definition setNonce (n : Z) (b : t) : t :=
  mk (index b) (previousHash b) (timestamp b) (transactions b) n (hash b).

Definition setHash (h : string) (b : t) : t :=
  mk (index b) (previousHash b) (timestamp b) (transactions b) (nonce b) h.
End Block.

(** How a call ends: with a value, with the [TypeError] of reading a
    property of [undefined], or (model only) with the fuel of an unbounded
    loop used up. *)
Inductive outcome (A : Type) : Type :=
| Ok (a : A)
| TypeError
| OutOfFuel.
Arguments TypeError {A}.
Arguments OutOfFuel {A}.

Module Blockchain.

Local Open Scope string_scope.
Local Open Scope Z_scope.

Record t : Type := mk {
  chain : list Block.t;
  pendingTransactions : list Transaction.t;
  difficulty : nat
}.

(** [JSON.stringify(transaction)]: the properties in the order the
    interface and every object literal of the repository list them. *)
Definition stringifyTransaction (tx : Transaction.t) : string :=
  "{" ++ Js.quote "from" ++ ":" ++ Js.quote (Transaction.from tx)
  ++ "," ++ Js.quote "to" ++ ":" ++ Js.quote (Transaction.to tx)
  ++ "," ++ Js.quote "amount" ++ ":" ++ Js.numberToString (Transaction.amount tx)
  ++ "," ++ Js.quote "fee" ++ ":" ++ Js.numberToString (Transaction.fee tx)
  ++ "," ++ Js.quote "timestamp" ++ ":" ++ Js.numberToString (Transaction.timestamp tx)
  ++ "," ++ Js.quote "signature" ++ ":" ++ Js.quote (Transaction.signature tx)
  ++ "}".

(** The string that [calculateHash] digests. *)
Definition blockString (block : Block.t) : string :=
  Js.numberToString (Block.index block)
  ++ Block.previousHash block
  ++ Js.numberToString (Block.timestamp block)
  ++ Js.array (map stringifyTransaction (Block.transactions block))
  ++ Js.numberToString (Block.nonce block).

Definition calculateHash (block : Block.t) : string :=
  SHA256.sha256 (blockString block).

(** [createGenesisBlock()], with the reading of [Date.now()]. *)
Definition createGenesisBlock (now : Z) : Block.t :=
  let genesisBlock := Block.mk 0 "0" now [] 0 "" in
  Block.setHash (calculateHash genesisBlock) genesisBlock.

(** [new Blockchain()] *)
Definition constructor (now : Z) : t :=
  mk [createGenesisBlock now] [] 4.

(** [this.chain[this.chain.length - 1]]; [None] is [undefined]. *)
Definition getLatestBlock (s : t) : option Block.t :=
  nth_error (chain s) (List.length (chain s) - 1).

Definition isValidTransaction (transaction : Transaction.t) : bool :=
  negb (String.eqb (Transaction.from transaction) "")
  && negb (String.eqb (Transaction.to transaction) "")
  && (Transaction.amount transaction >? 0)
  && (Transaction.fee transaction >=? 0).

(** [addTransaction]: the returned boolean and the state after the call. *)
Definition addTransaction (transaction : Transaction.t) (s : t) : bool * t :=
  if negb (isValidTransaction transaction) then (false, s)
  else (true, mk (chain s) (pendingTransactions s ++ [transaction])%list (difficulty s)).

(** [hash.substring(0, this.difficulty) === target] *)
Definition meetsTarget (difficulty : nat) (hash : string) : bool :=
  String.eqb (substring 0 difficulty hash) (Js.repeatZero difficulty).

(** [mineBlockWithProofOfWork]: the returned hash and the block as the loop
    left it ([block.nonce++] mutates the argument). *)
Fixpoint mineBlockWithProofOfWork (fuel : nat) (difficulty : nat) (block : Block.t)
  : option (string * Block.t) :=
  match fuel with
  | O => None
  | S fuel' =>
      let hash := calculateHash block in
      if meetsTarget difficulty hash then Some (hash, block)
      else mineBlockWithProofOfWork fuel' difficulty
             (Block.setNonce (Block.nonce block + 1) block)
  end.

(** [mineBlock(minerAddress)]: [rewardTime] and [blockTime] are the two
    readings of [Date.now()], in the order the code takes them. *)
Definition mineBlock (fuel : nat) (minerAddress : string) (rewardTime blockTime : Z) (s : t)
  : outcome (Block.t * t) :=
  let rewardTransaction :=
    Transaction.mk "system" minerAddress 50 0 rewardTime "system_reward" in
  let transactions := (pendingTransactions s ++ [rewardTransaction])%list in
  match getLatestBlock s with
  | None => TypeError
  | Some latest =>
      let newBlock :=
        Block.mk (Z.of_nat (List.length (chain s))) (Block.hash latest) blockTime
                 transactions 0 "" in
      match mineBlockWithProofOfWork fuel (difficulty s) newBlock with
      | None => OutOfFuel
      | Some (hash, mined) =>
          let newBlock := Block.setHash hash mined in
          Ok (newBlock, mk (chain s ++ [newBlock])%list [] (difficulty s))
      end
  end.

(** The three checks of one iteration of [validateChain]. *)
Definition checkBlock (difficulty : nat) (currentBlock previousBlock : Block.t) : bool :=
  if negb (String.eqb (Block.hash currentBlock) (calculateHash currentBlock)) then false
  else if negb (String.eqb (Block.previousHash currentBlock) (Block.hash previousBlock))
  then false
  else if negb (meetsTarget difficulty (Block.hash currentBlock)) then false
  else true.

(** The [for] loop of [validateChain] from index [i], with [remaining]
    iterations to go.  Besides the result it reports the indexes whose
    block the loop read, in order. *)
Fixpoint validateLoop (s : t) (i remaining : nat) : bool * list nat :=
  match remaining with
  | O => (true, [])
  | S remaining' =>
      match nth_error (chain s) i, nth_error (chain s) (i - 1) with
      | Some currentBlock, Some previousBlock =>
          if checkBlock (difficulty s) currentBlock previousBlock then
            let (r, visited) := validateLoop s (S i) remaining' in (r, i :: visited)
          else (false, [i])
      | _, _ => (false, [i])
      end
  end.

Definition validateTrace (s : t) : bool * list nat :=
  validateLoop s 1 (List.length (chain s) - 1).

Definition validateChain (s : t) : bool := fst (validateTrace s).

Definition getChain (s : t) : list Block.t := chain s.

Definition getPendingTransactions (s : t) : list Transaction.t :=
  pendingTransactions s.

(** One pass of the inner loop body of [getBalance]: [balance -= (amount +
    fee)] and [balance += amount], each a rounded operation on doubles. *)
Definition applyTransaction (address : string) (balance : Js.number)
  (transaction : Transaction.t) : Js.number :=
  let balance :=
    if String.eqb (Transaction.from transaction) address
    then Js.sub balance (Js.add (Js.ofZ (Transaction.amount transaction))
                                (Js.ofZ (Transaction.fee transaction)))
    else balance in
  if String.eqb (Transaction.to transaction) address
  then Js.add balance (Js.ofZ (Transaction.amount transaction))
  else balance.

Definition getBalance (address : string) (s : t) : Js.number :=
  fold_left
    (fun balance block =>
       fold_left (applyTransaction address) (Block.transactions block) balance)
    (chain s) (Js.ofZ 0).

End Blockchain.

(* ================================================================== *)
(** ** core/blockchain.ts on the values that reach it at run time *)
(* ================================================================== *)

(** The type annotations are erased at run time: a transaction is whatever
    object the caller built, and [calculateHash] hands the array of them to
    [JSON.stringify].  [Json.value] is a JavaScript value as
    [JSON.stringify] sees it: a tree of plain objects and arrays over the
    primitives, an object being the list of its own enumerable properties
    in enumeration order (keys distinct).  Cyclic values, accessors,
    functions, symbols and [toJSON] methods are not represented. *)
Module Json.

Local Open Scope string_scope.

#[warnings="-register-all"] Inductive value : Type :=
| Undefined
| Null
| Boolean (b : bool)
| Number (n : Z)
| BigInt (n : Z)
| Text (s : string)
| Array (items : list value)
| Object (properties : list (string * value)).

(** [JSON.stringify(v)]: the text, [None] where the result is [undefined]
    (the value is left out of an object and written [null] in an array),
    [TypeError] on a BigInt anywhere in the value. *)
Fixpoint stringify (v : value) : outcome (option string) :=
  match v with
  | Undefined => Ok None
  | Null => Ok (Some "null")
  | Boolean b => Ok (Some (if b then "true" else "false"))
  | Number n => Ok (Some (Js.numberToString n))
  | BigInt _ => TypeError
  | Text s => Ok (Some (Js.quote s))
  | Array items =>
      match (fix elements (l : list value) : outcome (list string) :=
               match l with
               | [] => Ok []
               | x :: rest =>
                   match stringify x with
                   | Ok o =>
                       match elements rest with
                       | Ok texts =>
                           Ok (match o with Some text => text | None => "null" end :: texts)
                       | TypeError => TypeError
                       | OutOfFuel => OutOfFuel
                       end
                   | TypeError => TypeError
                   | OutOfFuel => OutOfFuel
                   end
               end) items with
      | Ok texts => Ok (Some (Js.array texts))
      | TypeError => TypeError
      | OutOfFuel => OutOfFuel
      end
  | Object properties =>
      match (fix members (l : list (string * value)) : outcome (list string) :=
               match l with
               | [] => Ok []
               | (key, x) :: rest =>
                   match stringify x with
                   | Ok o =>
                       match members rest with
                       | Ok texts =>
                           Ok (match o with
                               | Some text => (Js.quote key ++ ":" ++ text) :: texts
                               | None => texts
                               end)
                       | TypeError => TypeError
                       | OutOfFuel => OutOfFuel
                       end
                   | TypeError => TypeError
                   | OutOfFuel => OutOfFuel
                   end
               end) properties with
      | Ok texts => Ok (Some ("{" ++ String.concat "," texts ++ "}"))
      | TypeError => TypeError
      | OutOfFuel => OutOfFuel
      end
  end.

(** The two inner loops of [stringify], by name. *)
Definition elements : list value -> outcome (list string) :=
  fix elements (l : list value) : outcome (list string) :=
    match l with
    | [] => Ok []
    | x :: rest =>
        match stringify x with
        | Ok o =>
            match elements rest with
            | Ok texts =>
                Ok (match o with Some text => text | None => "null" end :: texts)
            | TypeError => TypeError
            | OutOfFuel => OutOfFuel
            end
        | TypeError => TypeError
        | OutOfFuel => OutOfFuel
        end
    end.

Definition members : list (string * value) -> outcome (list string) :=
  fix members (l : list (string * value)) : outcome (list string) :=
    match l with
    | [] => Ok []
    | (key, x) :: rest =>
        match stringify x with
        | Ok o =>
            match members rest with
            | Ok texts =>
                Ok (match o with
                    | Some text => (Js.quote key ++ ":" ++ text) :: texts
                    | None => texts
                    end)
            | TypeError => TypeError
            | OutOfFuel => OutOfFuel
            end
        | TypeError => TypeError
        | OutOfFuel => OutOfFuel
        end
    end.

(** A BigInt occurs somewhere in the value. *)
Fixpoint hasBigInt (v : value) : bool :=
  match v with
  | BigInt _ => true
  | Array items => existsb hasBigInt items
  | Object properties =>
      (fix some (l : list (string * value)) : bool :=
         match l with
         | [] => false
         | (_, x) :: rest => hasBigInt x || some rest
         end) properties
  | _ => false
  end.

(** [v.key] for an object [v]: [Undefined] when there is no such property. *)
Definition get (key : string) (v : value) : value :=
  match v with
  | Object properties =>
      match find (fun p => String.eqb (fst p) key) properties with
      | Some (_, x) => x
      | None => Undefined
      end
  | _ => Undefined
  end.

(** The object that a literal with the six properties of the [Transaction]
    interface builds, in the order every literal of the repository writes
    them. *)
Definition ofTransaction (tx : Transaction.t) : value :=
  Object [("from", Text (Transaction.from tx));
          ("to", Text (Transaction.to tx));
          ("amount", Number (Transaction.amount tx));
          ("fee", Number (Transaction.fee tx));
          ("timestamp", Number (Transaction.timestamp tx));
          ("signature", Text (Transaction.signature tx))].

End Json.

(** [calculateHash], the nonce search and [mineBlock] on blocks and pools
    that hold arbitrary values. *)
Module Untyped.

Local Open Scope string_scope.
Local Open Scope Z_scope.

Record block : Type := mkBlock {
  index : Z;
  previousHash : string;
  timestamp : Z;
  transactions : list Json.value;
  nonce : Z;
  hash : string
}.

Definition setNonce (n : Z) (b : block) : block :=
  mkBlock (index b) (previousHash b) (timestamp b) (transactions b) n (hash b).

Definition setHash (h : string) (b : block) : block :=
  mkBlock (index b) (previousHash b) (timestamp b) (transactions b) (nonce b) h.

Record t : Type := mk {
  chain : list block;
  pendingTransactions : list Json.value;
  difficulty : nat
}.

(** The string that [calculateHash] digests; the concatenation is not
    reached when [JSON.stringify] throws. *)
Definition blockString (b : block) : outcome string :=
  match Json.stringify (Json.Array (transactions b)) with
  | Ok o =>
      Ok (Js.numberToString (index b)
          ++ previousHash b
          ++ Js.numberToString (timestamp b)
          ++ match o with Some json => json | None => "undefined" end
          ++ Js.numberToString (nonce b))
  | TypeError => TypeError
  | OutOfFuel => OutOfFuel
  end.

Definition calculateHash (b : block) : outcome string :=
  match blockString b with
  | Ok text => Ok (SHA256.sha256 text)
  | TypeError => TypeError
  | OutOfFuel => OutOfFuel
  end.

Fixpoint mineBlockWithProofOfWork (fuel : nat) (difficulty : nat) (b : block)
  : outcome (string * block) :=
  match fuel with
  | O => OutOfFuel
  | S fuel' =>
      match calculateHash b with
      | Ok hash =>
          if Blockchain.meetsTarget difficulty hash then Ok (hash, b)
          else mineBlockWithProofOfWork fuel' difficulty (setNonce (nonce b + 1) b)
      | TypeError => TypeError
      | OutOfFuel => OutOfFuel
      end
  end.

Definition getLatestBlock (s : t) : option block :=
  nth_error (chain s) (List.length (chain s) - 1).

Definition mineBlock (fuel : nat) (minerAddress : string) (rewardTime blockTime : Z) (s : t)
  : outcome (block * t) :=
  let rewardTransaction :=
    Json.ofTransaction
      (Transaction.mk "system" minerAddress 50 0 rewardTime "system_reward") in
  let transactions := (pendingTransactions s ++ [rewardTransaction])%list in
  match getLatestBlock s with
  | None => TypeError
  | Some latest =>
      let newBlock :=
        mkBlock (Z.of_nat (List.length (chain s))) (hash latest) blockTime
                transactions 0 "" in
      match mineBlockWithProofOfWork fuel (difficulty s) newBlock with
      | Ok (hash, mined) =>
          let newBlock := setHash hash mined in
          Ok (newBlock, mk (chain s ++ [newBlock])%list [] (difficulty s))
      | TypeError => TypeError
      | OutOfFuel => OutOfFuel
      end
  end.

(** A typed block and a typed ledger as the values they are. *)
Definition ofBlock (b : Block.t) : block :=
  mkBlock (Block.index b) (Block.previousHash b) (Block.timestamp b)
          (map Json.ofTransaction (Block.transactions b)) (Block.nonce b) (Block.hash b).

Definition ofLedger (s : Blockchain.t) : t :=
  mk (map ofBlock (Blockchain.chain s))
     (map Json.ofTransaction (Blockchain.pendingTransactions s))
     (Blockchain.difficulty s).

End Untyped.

(* ================================================================== *)
(** ** networking/node.ts and consensus/miner.ts: the shared world *)
(* ================================================================== *)

(** [message.data] is [any].  The payloads modelled are those the protocol
    sends (a block, a transaction, a block hash), the two empty values and
    the other primitives; a number is an integer as everywhere. *)
Inductive Data : Type :=
| DataBlock (block : Block.t)
| DataTransaction (transaction : Transaction.t)
| DataString (text : string)
| DataUndefined
| DataNull
| DataNumber (n : Z)
| DataBoolean (b : bool).

Module NetworkMessage.
Record t : Type := mk {
  type : string;
  data : Data;
  timestamp : Z;
  from : option string
}.
End NetworkMessage.

(** Calls between the components that the claims observe. *)
Inductive event : Type :=
| AddTransactionCall (payload : Data)
| MineBlockCall (minerAddress : string)
| BroadcastBlockCall (block : Block.t)
| SleepCall (ms : Z).

(** Where a [miningLoop] activation stands while it is not running: inside
    the awaits of [broadcastBlock], inside [sleep], returned, or inside a
    nonce search that the fuel did not finish. *)
Inductive loopPoint : Type :=
| Broadcasting (newBlock : Block.t)
| Sleeping (ms : Z)
| Exited
| Mining.

Module NodeState.
Record t : Type := mk {
  peers : list string;
  isRunning : bool;
  nodeId : string
}.
End NodeState.

Module MinerState.
Record t : Type := mk {
  isMining : bool;
  minerAddress : string
}.
End MinerState.

(** One [Blockchain] object shared by the [Node] and the [Miner] (index.ts
    passes the same instance to both), the two objects, the activations of
    [miningLoop], the console and the calls made so far. *)
Record world : Type := mkWorld {
  blockchain : Blockchain.t;
  node : NodeState.t;
  miner : MinerState.t;
  loops : list loopPoint;
  console : list string;
  calls : list event
}.

Definition setBlockchain (b : Blockchain.t) (w : world) : world :=
  mkWorld b (node w) (miner w) (loops w) (console w) (calls w).

Definition setMiner (m : MinerState.t) (w : world) : world :=
  mkWorld (blockchain w) (node w) m (loops w) (console w) (calls w).

Definition setLoops (l : list loopPoint) (w : world) : world :=
  mkWorld (blockchain w) (node w) (miner w) l (console w) (calls w).

(** A computation over the world that ends normally or raises. *)
Definition action (A : Type) : Type := world -> outcome A * world.

Definition ret {A : Type} (a : A) : action A := fun w => (Ok a, w).

Definition bind {A B : Type} (m : action A) (k : A -> action B) : action B :=
  fun w =>
    match m w with
    | (Ok a, w') => k a w'
    | (TypeError, w') => (TypeError, w')
    | (OutOfFuel, w') => (OutOfFuel, w')
    end.

Definition raise {A : Type} : action A := fun w => (TypeError, w).

Definition log (line : string) : action unit :=
  fun w => (Ok tt, mkWorld (blockchain w) (node w) (miner w) (loops w)
                           (console w ++ [line]) (calls w)).

Definition emit (e : event) : action unit :=
  fun w => (Ok tt, mkWorld (blockchain w) (node w) (miner w) (loops w)
                           (console w) (calls w ++ [e])).

Notation "x <- m ;; k" := (bind m (fun x => k))
  (at level 61, m at next level, right associativity).
Notation "m ;;; k" := (bind m (fun _ => k))
  (at level 61, right associativity).

Module Node.

Local Open Scope string_scope.

(** [new Node(blockchain)]; [id] is what [generateNodeId()] drew. *)
Definition constructor (id : string) : NodeState.t := NodeState.mk [] false id.

(** A property read [data.p] inside a template literal: [None] prints as
    [undefined]; reading a property of [undefined] or [null] raises, and a
    primitive or an object without the property gives [undefined]. *)
Definition show (v : option string) : string :=
  match v with Some s => s | None => "undefined" end.

Definition blockIndex (d : Data) : action (option string) :=
  match d with
  | DataBlock b => ret (Some (Js.numberToString (Block.index b)))
  | DataUndefined | DataNull => raise
  | _ => ret None
  end.

Definition transactionEnds (d : Data) : action (option string * option string) :=
  match d with
  | DataTransaction tx => ret (Some (Transaction.from tx), Some (Transaction.to tx))
  | DataUndefined | DataNull => raise
  | _ => ret (None, None)
  end.

(** [this.blockchain.addTransaction(payload)]: [isValidTransaction] reads
    [payload.from] first, which raises on [undefined] and [null]; any other
    payload without the fields of a transaction passes the two [!== '']
    tests, fails [amount > 0] and is refused. *)
Definition callAddTransaction (d : Data) : action bool :=
  emit (AddTransactionCall d) ;;;
  fun w =>
    match d with
    | DataTransaction tx =>
        let (r, b) := Blockchain.addTransaction tx (blockchain w) in
        (Ok r, setBlockchain b w)
    | DataUndefined | DataNull => (TypeError, w)
    | _ => (Ok false, w)
    end.

Definition handleNewBlock (block : Data) : action unit :=
  i <- blockIndex block ;;
  log ("📥 Received new block #" ++ show i) ;;;
  log ("✅ Block #" ++ show i ++ " validated and added to chain").

Definition handleNewTransaction (transaction : Data) : action unit :=
  ends <- transactionEnds transaction ;;
  log ("📥 Received new transaction: " ++ show (fst ends) ++ " → " ++ show (snd ends)) ;;;
  _ <- callAddTransaction transaction ;;
  ret tt.

(** [data] inside a template literal. *)
Definition showData (d : Data) : string :=
  match d with
  | DataString s => s
  | DataUndefined => "undefined"
  | DataNull => "null"
  | DataNumber n => Js.numberToString n
  | DataBoolean b => if b then "true" else "false"
  | DataBlock _ | DataTransaction _ => "[object Object]"
  end.

Definition handleBlockRequest (blockHash : Data) (peerId : string) : action unit :=
  log ("📥 Block request for " ++ showData blockHash ++ " from " ++ peerId).

Definition handlePeerDiscovery (peerData : Data) : action unit :=
  log "📥 Peer discovery request".

Definition handlePing (peerId : string) : action unit :=
  log ("📥 Ping from " ++ peerId).

(** The [switch] on [message.type]. *)
Definition handleMessage (message : NetworkMessage.t) (peerId : string) : action unit :=
  let type := NetworkMessage.type message in
  if String.eqb type "NEW_BLOCK" then handleNewBlock (NetworkMessage.data message)
  else if String.eqb type "NEW_TRANSACTION" then
    handleNewTransaction (NetworkMessage.data message)
  else if String.eqb type "BLOCK_REQUEST" then
    handleBlockRequest (NetworkMessage.data message) peerId
  else if String.eqb type "PEER_DISCOVERY" then
    handlePeerDiscovery (NetworkMessage.data message)
  else if String.eqb type "PING" then handlePing peerId
  else log ("❓ Unknown message type: " ++ type).

End Node.

Module Miner.

(** [new Miner(blockchain, node, minerAddress)] *)
Definition constructor (minerAddress : string) : MinerState.t :=
  MinerState.mk false minerAddress.

Definition isMiningActive (m : MinerState.t) : bool := MinerState.isMining m.

Definition getMinerAddress (m : MinerState.t) : string := MinerState.minerAddress m.

Definition setIsMining (b : bool) (w : world) : world :=
  setMiner (MinerState.mk b (MinerState.minerAddress (miner w))) w.

(** What one activation of [miningLoop] does from the test of
    [while (this.isMining)] up to its next await.  [fuel] bounds the nonce
    search and [clock] holds the two readings of [Date.now()] that
    [mineBlock] takes.  The result is where the activation is suspended. *)
Definition iteration (fuel : nat) (clock : Z * Z) (w : world) : loopPoint * world :=
  if MinerState.isMining (miner w) then
    let pendingTxs := Blockchain.getPendingTransactions (blockchain w) in
    if (0 <? List.length pendingTxs)%nat then
      let address := MinerState.minerAddress (miner w) in
      let w := snd (emit (MineBlockCall address) w) in
      match Blockchain.mineBlock fuel address (fst clock) (snd clock) (blockchain w) with
      | Ok (newBlock, b) =>
          let w := setBlockchain b w in
          (Broadcasting newBlock, snd (emit (BroadcastBlockCall newBlock) w))
      | TypeError => (Sleeping 10000, snd (emit (SleepCall 10000) w))
      | OutOfFuel => (Mining, w)
      end
    else (Sleeping 5000, snd (emit (SleepCall 5000) w))
  else (Exited, w).

(** [miningLoop()] called: a new activation runs up to its first await. *)
Definition miningLoop (fuel : nat) (clock : Z * Z) (w : world) : world :=
  let (p, w) := iteration fuel clock w in
  setLoops (loops w ++ [p]) w.

(** [start()]: sets the flag and calls [miningLoop()] without awaiting. *)
Definition start (fuel : nat) (clock : Z * Z) (w : world) : world :=
  miningLoop fuel clock (setIsMining true w).

(** [stop()] *)
Definition stop (w : world) : world := setIsMining false w.

Fixpoint replace (k : nat) (p : loopPoint) (l : list loopPoint) : list loopPoint :=
  match l, k with
  | [], _ => []
  | _ :: l', O => p :: l'
  | q :: l', S k' => q :: replace k' p l'
  end.

(** The event loop resumes activation [k]: the awaits of [broadcastBlock]
    (one suspension stands for all of them) are followed by
    [sleep(5000)]; a finished sleep leads back to the test of the loop. *)
Definition resume (k : nat) (fuel : nat) (clock : Z * Z) (w : world) : world :=
  match nth_error (loops w) k with
  | Some (Broadcasting _) =>
      let w := snd (emit (SleepCall 5000) w) in
      setLoops (replace k (Sleeping 5000) (loops w)) w
  | Some (Sleeping _) =>
      let (p, w) := iteration fuel clock w in
      setLoops (replace k p (loops w)) w
  | _ => w
  end.

End Miner.

(** What can happen between two suspensions of the process: a caller
    starts or stops the miner or submits a transaction, a message is
    delivered to the node, or a suspended [miningLoop] is resumed. *)
Inductive step : Type :=
| DoStart (fuel : nat) (clock : Z * Z)
| DoStop
| DoSubmit (transaction : Transaction.t)
| DoDeliver (message : NetworkMessage.t) (peerId : string)
| DoResume (k : nat) (fuel : nat) (clock : Z * Z).

Definition perform (a : step) (w : world) : world :=
  match a with
  | DoStart fuel clock => Miner.start fuel clock w
  | DoStop => Miner.stop w
  | DoSubmit tx => setBlockchain (snd (Blockchain.addTransaction tx (blockchain w))) w
  | DoDeliver m peer => snd (Node.handleMessage m peer w)
  | DoResume k fuel clock => Miner.resume k fuel clock w
  end.

(** A nonce search that does not return blocks the single thread: nothing
    else runs after it. *)
Definition hung (w : world) : bool :=
  existsb (fun p => match p with Mining => true | _ => false end) (loops w).

Fixpoint run (steps : list step) (w : world) : world :=
  match steps with
  | [] => w
  | a :: rest => if hung w then w else run rest (perform a w)
  end.

(** index.ts: one ledger, one node, one miner. *)
Definition boot (now : Z) (id : string) : world :=
  mkWorld (Blockchain.constructor now) (Node.constructor id)
          (Miner.constructor "miner1") [] [] [].

(* ================================================================== *)
(** ** Vocabulary of the specification *)
(* ================================================================== *)

Arguments SHA256.sha256 : simpl never.
Arguments Blockchain.calculateHash : simpl never.

(** A character of lower-case hexadecimal. *)
Definition lowerHexChar (c : ascii) : bool :=
  let n := N_of_ascii c in
  ((48 <=? n) && (n <=? 57) || (97 <=? n) && (n <=? 102))%N.

Fixpoint allChars (p : ascii -> bool) (s : string) : bool :=
  match s with
  | EmptyString => true
  | String c s' => p c && allChars p s'
  end.

(** Blocks that agree on the five fields the hash is computed from. *)
Definition sameFields (b1 b2 : Block.t) : Prop :=
  Block.index b1 = Block.index b2
  /\ Block.previousHash b1 = Block.previousHash b2
  /\ Block.timestamp b1 = Block.timestamp b2
  /\ Block.transactions b1 = Block.transactions b2
  /\ Block.nonce b1 = Block.nonce b2.

(** Blocks of arbitrary values that agree on the five hashed fields: the
    transactions are the same values, with their properties in the same
    order. *)
Definition sameContent (b1 b2 : Untyped.block) : Prop :=
  Untyped.index b1 = Untyped.index b2
  /\ Untyped.previousHash b1 = Untyped.previousHash b2
  /\ Untyped.timestamp b1 = Untyped.timestamp b2
  /\ Untyped.transactions b1 = Untyped.transactions b2
  /\ Untyped.nonce b1 = Untyped.nonce b2.

(** Block [i] passes the three checks of [validateChain] against block
    [i - 1], as the loop body computes them. *)
Definition passes (s : Blockchain.t) (i : nat) : bool :=
  match nth_error (Blockchain.chain s) i, nth_error (Blockchain.chain s) (i - 1) with
  | Some currentBlock, Some previousBlock =>
      Blockchain.checkBlock (Blockchain.difficulty s) currentBlock previousBlock
  | _, _ => false
  end.

(** The chain invariant of the specification at index [i]: the stored
    hash is the recomputed one, the link to the previous block holds and
    the hash meets the difficulty target. *)
Definition linked (s : Blockchain.t) (i : nat) : Prop :=
  exists currentBlock previousBlock,
    nth_error (Blockchain.chain s) i = Some currentBlock
    /\ nth_error (Blockchain.chain s) (i - 1) = Some previousBlock
    /\ Block.hash currentBlock = Blockchain.calculateHash currentBlock
    /\ Block.previousHash currentBlock = Block.hash previousBlock
    /\ Blockchain.meetsTarget (Blockchain.difficulty s) (Block.hash currentBlock) = true.

(** Nonce [n] solves the puzzle of [block] at difficulty [d]. *)
Definition solves (d : nat) (block : Block.t) (n : Z) : bool :=
  Blockchain.meetsTarget d (Blockchain.calculateHash (Block.setNonce n block)).

(** The reward transaction and the candidate block that [mineBlock]
    builds on the tip [tip]. *)
Definition rewardTransaction (minerAddress : string) (rewardTime : Z) : Transaction.t :=
  Transaction.mk "system" minerAddress 50 0 rewardTime "system_reward".

Definition candidate (s : Blockchain.t) (tip : Block.t) (minerAddress : string)
  (rewardTime blockTime : Z) : Block.t :=
  Block.mk (Z.of_nat (List.length (Blockchain.chain s))) (Block.hash tip) blockTime
           (Blockchain.pendingTransactions s ++ [rewardTransaction minerAddress rewardTime])
           0 "".

(** The same on blocks and ledgers of arbitrary values: the content hash
    where [calculateHash] returns one, the puzzle, and the candidate. *)
Definition contentHash (block : Untyped.block) : string :=
  match Untyped.calculateHash block with
  | Ok hash => hash
  | _ => EmptyString
  end.

Definition untypedSolves (d : nat) (block : Untyped.block) (n : Z) : bool :=
  Blockchain.meetsTarget d (contentHash (Untyped.setNonce n block)).

Definition untypedCandidate (s : Untyped.t) (tip : Untyped.block) (minerAddress : string)
  (rewardTime blockTime : Z) : Untyped.block :=
  Untyped.mkBlock (Z.of_nat (List.length (Untyped.chain s))) (Untyped.hash tip) blockTime
    (Untyped.pendingTransactions s
     ++ [Json.ofTransaction (rewardTransaction minerAddress rewardTime)])
    0 "".

(** A concrete run used to exercise the theorems: the ledger built at
    clock reading 1700000000000, the transfer of the specification's
    scenario admitted one millisecond later, and a block mined by miner1
    at reading 1700000006001, where the least solving nonce is 2. *)
Definition aliceToBob : Transaction.t :=
  Transaction.mk "alice" "bob" 50 1 1700000000001 "alice_signature_1".

Definition freshLedger : Blockchain.t := Blockchain.constructor 1700000000000.

Definition scenarioLedger : Blockchain.t :=
  snd (Blockchain.addTransaction aliceToBob freshLedger).

Definition scenarioCandidate : Block.t :=
  candidate scenarioLedger (Blockchain.createGenesisBlock 1700000000000)
            "miner1" 1700000006001 1700000006001.

(** A freshly mined ledger: built by the constructor and changed only
    through [addTransaction] and returning calls of [mineBlock]. *)
Inductive Mined : Blockchain.t -> Prop :=
| Mined_new (now : Z) : Mined (Blockchain.constructor now)
| Mined_add (tx : Transaction.t) (s : Blockchain.t) :
    Mined s -> Mined (snd (Blockchain.addTransaction tx s))
| Mined_mine (fuel : nat) (minerAddress : string) (rewardTime blockTime : Z)
    (s s' : Blockchain.t) (newBlock : Block.t) :
    Mined s ->
    Blockchain.mineBlock fuel minerAddress rewardTime blockTime s = Ok (newBlock, s') ->
    Mined s'.

(** [chain[i] = b], as code holding the array of [getChain()] can do. *)
Fixpoint replaceAt (i : nat) (b : Block.t) (l : list Block.t) : list Block.t :=
  match l, i with
  | [], _ => []
  | _ :: l', O => b :: l'
  | x :: l', S i' => x :: replaceAt i' b l'
  end.

Definition withBlock (i : nat) (b : Block.t) (s : Blockchain.t) : Blockchain.t :=
  Blockchain.mk (replaceAt i b (Blockchain.chain s))
                (Blockchain.pendingTransactions s) (Blockchain.difficulty s).

(** [block.previousHash = p], the remaining way to tamper with a link. *)
Definition setPreviousHash (p : string) (b : Block.t) : Block.t :=
  Block.mk (Block.index b) p (Block.timestamp b) (Block.transactions b)
           (Block.nonce b) (Block.hash b).

(** The scenario ledger after a holder of the array that [getChain()]
    returns (the array itself, not a copy) has emptied it. *)
Definition emptiedLedger : Blockchain.t :=
  Blockchain.mk [] (Blockchain.pendingTransactions scenarioLedger)
                (Blockchain.difficulty scenarioLedger).

(** The scenario run to its end: the block that the search reaches at
    nonce 2 and the ledger with that block appended. *)
Definition minedBlock : Block.t :=
  let solved := Block.setNonce 2 scenarioCandidate in
  Block.setHash (Blockchain.calculateHash solved) solved.

Definition minedLedger : Blockchain.t :=
  Blockchain.mk (Blockchain.chain scenarioLedger ++ [minedBlock]) [] 4.

(** A block that holds the transfer of the scenario, and the transfer as
    two other objects: with the same six properties written in another
    order, and with the amount held as a BigInt. *)
Definition sampleBlock : Untyped.block :=
  Untyped.mkBlock 1 "00ab" 1700000000002 [Json.ofTransaction aliceToBob] 7 "".

Definition reorderedTransfer : Json.value :=
  Json.Object [("to", Json.Text "bob");
               ("from", Json.Text "alice");
               ("signature", Json.Text "alice_signature_1");
               ("amount", Json.Number 50);
               ("fee", Json.Number 1);
               ("timestamp", Json.Number 1700000000001)]%string.

Definition reorderedBlock : Untyped.block :=
  Untyped.mkBlock 1 "00ab" 1700000000002 [reorderedTransfer] 7 "".

Definition bigIntTransfer : Json.value :=
  Json.Object [("from", Json.Text "alice");
               ("to", Json.Text "bob");
               ("amount", Json.BigInt 50);
               ("fee", Json.Number 1);
               ("timestamp", Json.Number 1700000000001);
               ("signature", Json.Text "alice_signature_1")]%string.

(** The fresh ledger with the reordered transfer pending; a block mined
    on it at clock reading 1700000007764 is sealed at nonce 0. *)
Definition reorderedLedger : Untyped.t :=
  Untyped.mk (Untyped.chain (Untyped.ofLedger freshLedger)) [reorderedTransfer] 4.

(** The fresh ledger with that last object in its pool, as a caller that
    passes a BigInt amount (or a peer message, whose payload is [any])
    leaves it: [amount > 0] holds for a BigInt. *)
Definition poisonedLedger : Untyped.t :=
  Untyped.mk (Untyped.chain (Untyped.ofLedger freshLedger)) [bigIntTransfer] 4.

(** The balance as the specification words it: over every transaction of
    every block, in chain order, the amount when the address receives and
    minus amount plus fee when it sends. *)
Definition delta (address : string) (tx : Transaction.t) : Z :=
  ((if String.eqb (Transaction.to tx) address then Transaction.amount tx else 0)
   - (if String.eqb (Transaction.from tx) address
      then Transaction.amount tx + Transaction.fee tx else 0))%Z.

Definition chained (s : Blockchain.t) : list Transaction.t :=
  flat_map Block.transactions (Blockchain.chain s).

Definition sumZ (l : list Z) : Z := fold_right Z.add 0%Z l.

Definition ledgerSum (address : string) (s : Blockchain.t) : Z :=
  sumZ (map (delta address) (chained s)).

(** The loop of [getBalance] for [address] stays within the integers that
    doubles hold exactly: started at [balance] and run over [txs] in exact
    arithmetic, every operand and every result of its additions and
    subtractions is a safe integer. *)
Fixpoint exactFrom (address : string) (balance : Z) (txs : list Transaction.t) : bool :=
  match txs with
  | [] => true
  | tx :: rest =>
      let sent := (Transaction.amount tx + Transaction.fee tx)%Z in
      let afterSend :=
        if String.eqb (Transaction.from tx) address then (balance - sent)%Z else balance in
      let afterReceipt :=
        if String.eqb (Transaction.to tx) address
        then (afterSend + Transaction.amount tx)%Z else afterSend in
      (if String.eqb (Transaction.from tx) address
       then Js.isSafeInteger (Transaction.amount tx) && Js.isSafeInteger (Transaction.fee tx)
            && Js.isSafeInteger sent && Js.isSafeInteger afterSend
       else true)
      && (if String.eqb (Transaction.to tx) address
          then Js.isSafeInteger (Transaction.amount tx) && Js.isSafeInteger afterReceipt
          else true)
      && exactFrom address afterReceipt rest
  end.

Definition exactFor (address : string) (s : Blockchain.t) : bool :=
  exactFrom address 0 (chained s).





(** [q] followed by [k] zero bits, and the double of a non-zero safe
    integer of magnitude [q]: the mantissa filled up to 53 bits. *)
Definition shiftPos (k : nat) (q : positive) : positive := Nat.iter k xO q.

Definition canonical (s : bool) (q : positive) : Js.number :=
  SpecFloat.S754_finite s
    (shiftPos (53 - Pos.to_nat (SpecFloat.digits2_pos q)) q)
    (Zpos (SpecFloat.digits2_pos q) - 53).

(** A block that a peer with the same genesis block mined on an empty
    pool at clock reading 1700000012799 (least solving nonce 1), and the
    message that announces it. *)
Definition peerBlock : Block.t :=
  let solved :=
    Block.setNonce 1 (candidate freshLedger (Blockchain.createGenesisBlock 1700000000000)
                                "miner1" 1700000012799 1700000012799) in
  Block.setHash (Blockchain.calculateHash solved) solved.

Definition peerAnnouncement : NetworkMessage.t :=
  NetworkMessage.mk "NEW_BLOCK" (DataBlock peerBlock) 1700000012800
                    (Some "node_b"%string).

(** The calls that only the miner makes. *)
Definition minerCall (e : event) : bool :=
  match e with
  | MineBlockCall _ | BroadcastBlockCall _ => true
  | _ => false
  end.

Definition isStart (a : step) : bool :=
  match a with
  | DoStart _ _ => true
  | _ => false
  end.

(** A run of the whole process: the transfer is submitted, the miner is
    started (its first iteration mines the scenario block inside [start]);
    later, with the miner stopped, the loop is resumed twice while a
    second transfer comes in. *)
Definition bobToCarol : Transaction.t :=
  Transaction.mk "bob" "carol" 20 1 1700000007000 "bob_signature_1".

Definition startedWorld : world :=
  run [DoSubmit aliceToBob; DoStart 3 (1700000006001, 1700000006001)%Z]
      (boot 1700000000000 "node_a").

Definition laterSteps : list step :=
  [DoResume 0 3 (1700000006011, 1700000006011)%Z;
   DoSubmit bobToCarol;
   DoResume 0 3 (1700000011011, 1700000011011)%Z].

(* ================================================================== *)
(** ** Further code of the repository *)
(* ================================================================== *)

(** crypto/utils.ts: the two functions built on the digest alone. *)
Module CryptoUtils.

Definition sha256 (data : string) : string := SHA256.sha256 data.

(** [generateAddress]: the first 40 characters of the hash of the key. *)
Definition generateAddress (publicKey : string) : string :=
  let hash := sha256 publicKey in
  substring 0 40 hash.

End CryptoUtils.

(** A caller's use of the ledger: a sequence of [addTransaction] and
    [mineBlock] calls, as the examples and the tests make them.  The
    replay stops at the first call that does not return. *)
Inductive ledgerCall : Type :=
| CallAdd (transaction : Transaction.t)
| CallMine (fuel : nat) (minerAddress : string) (rewardTime blockTime : Z).

Fixpoint replay (l : list ledgerCall) (s : Blockchain.t) : outcome Blockchain.t :=
  match l with
  | [] => Ok s
  | CallAdd tx :: rest => replay rest (snd (Blockchain.addTransaction tx s))
  | CallMine fuel minerAddress rewardTime blockTime :: rest =>
      match Blockchain.mineBlock fuel minerAddress rewardTime blockTime s with
      | Ok (_, s') => replay rest s'
      | TypeError => TypeError
      | OutOfFuel => OutOfFuel
      end
  end.

Definition isMine (c : ledgerCall) : bool :=
  match c with
  | CallMine _ _ _ _ => true
  | CallAdd _ => false
  end.

(** [transactions.forEach(tx => blockchain.addTransaction(tx))], with the
    answers in order. *)
Fixpoint addEach (txs : list Transaction.t) (s : Blockchain.t)
  : list bool * Blockchain.t :=
  match txs with
  | [] => ([], s)
  | tx :: rest =>
      let (ok, s1) := Blockchain.addTransaction tx s in
      let (oks, s2) := addEach rest s1 in
      (ok :: oks, s2)
  end.



(** The volume of a ledger: the amounts and fees of the chained
    transactions added up. *)
Definition volume (s : Blockchain.t) : Z :=
  sumZ (map (fun tx => Transaction.amount tx + Transaction.fee tx)%Z (chained s)).


(** The decimal digit [d] put before the digits [y], least significant
    first (used to follow [numberToString] through a multiplication by
    ten). *)
Definition pushDigit (d : Z) (y : Decimal.uint) : Decimal.uint :=
  match d with
  | 0%Z => Decimal.D0 y | 1%Z => Decimal.D1 y | 2%Z => Decimal.D2 y
  | 3%Z => Decimal.D3 y | 4%Z => Decimal.D4 y | 5%Z => Decimal.D5 y
  | 6%Z => Decimal.D6 y | 7%Z => Decimal.D7 y | 8%Z => Decimal.D8 y
  | _ => Decimal.D9 y
  end.

(** networking/node.ts: the life cycle of the node and its broadcasts.
    Each function is run to its end: the awaits inside [start] and inside
    the loop of [broadcastMessage] are not opened to other events here. *)
Module NodeServer.

Local Open Scope string_scope.

Definition setNode (n : NodeState.t) (w : world) : world :=
  mkWorld (blockchain w) n (miner w) (loops w) (console w) (calls w).

(** [this.peers.add(peer)] on a [Set], kept in insertion order. *)
Definition setAdd (peer : string) (peers : list string) : list string :=
  if existsb (String.eqb peer) peers then peers else peers ++ [peer].

Definition bootstrapPeers : list string :=
  ["peer1.blockchain.network"; "peer2.blockchain.network"; "peer3.blockchain.network"].

(** [this.peers.size] inside a template literal. *)
Definition size (peers : list string) : string :=
  Js.numberToString (Z.of_nat (List.length peers)).

Definition discoverPeers : action unit :=
  fun w =>
    let n := node w in
    let peers := fold_left (fun ps peer => setAdd peer ps) bootstrapPeers
                           (NodeState.peers n) in
    log ("🔍 Discovered " ++ size peers ++ " peers")
        (setNode (NodeState.mk peers (NodeState.isRunning n) (NodeState.nodeId n)) w).

Definition setRunning (b : bool) : action unit :=
  fun w =>
    (Ok tt, setNode (NodeState.mk (NodeState.peers (node w)) b
                                  (NodeState.nodeId (node w))) w).

(** [start(port)] *)
Definition start (port : Z) : action unit :=
  log ("🌐 P2P Node starting on port " ++ Js.numberToString port ++ "...") ;;;
  setRunning true ;;;
  discoverPeers ;;;
  (fun w => log ("✅ P2P Node running (ID: " ++ NodeState.nodeId (node w) ++ ")") w) ;;;
  (fun w => log ("🔗 Connected peers: " ++ size (NodeState.peers (node w))) w).

(** [stop()] *)
Definition stop : action unit :=
  setRunning false ;;; log "🌐 P2P Node stopped".

(** The loop of [broadcastMessage]: one [sleep(10)] per peer. *)
Fixpoint sleepEach (peers : list string) : action unit :=
  match peers with
  | [] => ret tt
  | _ :: rest => emit (SleepCall 10) ;;; sleepEach rest
  end.

Definition broadcastMessage (message : NetworkMessage.t) : action unit :=
  fun w => sleepEach (NodeState.peers (node w)) w.

(** [broadcastBlock(block)]; [now] is the reading of [Date.now()]. *)
Definition broadcastBlock (block : Block.t) (now : Z) : action unit :=
  fun w =>
    let message :=
      NetworkMessage.mk "NEW_BLOCK" (DataBlock block) now
                        (Some (NodeState.nodeId (node w))) in
    (broadcastMessage message ;;;
     (fun w => log ("📤 Broadcasted block #" ++ Js.numberToString (Block.index block)
                    ++ " to " ++ size (NodeState.peers (node w)) ++ " peers") w)) w.

(** [broadcastTransaction(transaction)] *)
Definition broadcastTransaction (transaction : Transaction.t) (now : Z) : action unit :=
  fun w =>
    let message :=
      NetworkMessage.mk "NEW_TRANSACTION" (DataTransaction transaction) now
                        (Some (NodeState.nodeId (node w))) in
    (broadcastMessage message ;;;
     (fun w => log ("📤 Broadcasted transaction to "
                    ++ size (NodeState.peers (node w)) ++ " peers") w)) w.

Definition getPeers (n : NodeState.t) : list string := NodeState.peers n.

Definition isActive (n : NodeState.t) : bool := NodeState.isRunning n.

End NodeServer.

(** index.ts: [main()] up to its return, with the clock readings of the
    constructor and of the example transaction, the node identifier drawn,
    and the fuel and readings of the first iteration of the mining loop
    (which runs inside [miner.start()]).  Console output of [main] itself
    is left out. *)
Definition exampleTransaction (time : Z) : Transaction.t :=
  Transaction.mk "genesis" "alice" 50 1 time "genesis_signature".

Definition main (now : Z) (id : string) (fuel : nat) (clock : Z * Z) (txTime : Z) : world :=
  let w := boot now id in
  let w := snd (NodeServer.start 8333 w) in
  let w := Miner.start fuel clock w in
  setBlockchain (snd (Blockchain.addTransaction (exampleTransaction txTime) (blockchain w))) w.

(** The body of the [broadcastBlock] call in which activation [k] of the
    mining loop is suspended, run to its end; [now] is the clock reading
    that stamps the message. *)
Definition announce (k : nat) (now : Z) (w : world) : world :=
  match nth_error (loops w) k with
  | Some (Broadcasting newBlock) => snd (NodeServer.broadcastBlock newBlock now w)
  | _ => w
  end.

(** [main] at clock reading 1700000000000, the example transaction stamped
    41 ms later, and the block that the loop mines when it wakes at reading
    1700000005300, where the least solving nonce is 1. *)
Definition exampleWorld : world :=
  main 1700000000000 "node_a" 3 (1700000000002, 1700000000002)%Z 1700000000041.

Definition exampleBlock : Block.t :=
  let solved :=
    Block.setNonce 1
      (candidate (blockchain exampleWorld) (Blockchain.createGenesisBlock 1700000000000)
                 "miner1" 1700000005300 1700000005300) in
  Block.setHash (Blockchain.calculateHash solved) solved.

Definition exampleLedger : Blockchain.t :=
  Blockchain.mk [Blockchain.createGenesisBlock 1700000000000; exampleBlock] [] 4.

(** The sleep of the error path, and the blocks handed to
    [broadcastBlock], in the order of the calls. *)
Definition isBackoff (e : event) : bool :=
  match e with
  | SleepCall ms => Z.eqb ms 10000
  | _ => false
  end.

Fixpoint announced (l : list event) : list Block.t :=
  match l with
  | [] => []
  | BroadcastBlockCall b :: rest => b :: announced rest
  | _ :: rest => announced rest
  end.

(** A block whose last transaction is the reward for [address]. *)
Definition rewards (address : string) (b : Block.t) : Prop :=
  exists pool rewardTime,
    Block.transactions b = pool ++ [rewardTransaction address rewardTime].

(** Every [mineBlock] call of the list is made for [address]. *)
Definition minesFor (address : string) (e : event) : Prop :=
  match e with
  | MineBlockCall a => a = address
  | _ => True
  end.

(** What holds of the process at every moment between two events, for a
    miner with address [address] on a chain that starts with [first]: the
    ledger was only mined, no error sleep was ever taken, every
    [mineBlock] call was made for [address], the blocks handed to
    [broadcastBlock] are the chain after its first block, and each of them
    ends with the reward for [address]. *)
Definition steady (address : string) (first : Block.t) (w : world) : Prop :=
  Mined (blockchain w)
  /\ MinerState.minerAddress (miner w) = address
  /\ filter isBackoff (calls w) = []
  /\ Forall (minesFor address) (calls w)
  /\ Blockchain.chain (blockchain w) = first :: announced (calls w)
  /\ Forall (rewards address) (announced (calls w)).

Example sha256_empty :
  SHA256.sha256 "" = "e3b0c44298fc1c149afbf4c8996fb92427ae41e4649b934ca495991b7852b855"%string.
Proof. vm_compute. reflexivity. Qed.

Example sha256_abc :
  SHA256.sha256 "abc" = "ba7816bf8f01cfea414140de5dae2223b00361a396177a9cb410ff61f20015ad"%string.
Proof. vm_compute. reflexivity. Qed.

Example sha256_two_blocks :
  SHA256.sha256 "abcdbcdecdefdefgefghfghighijhijkijkljklmklmnlmnomnopnopq"
  = "248d6a61d20638b8e5c026930c3e6039a33ce45964ff2167f6ecedd419db06c1"%string.
Proof. vm_compute. reflexivity. Qed.

(* ================================================================== *)
(** ** The digest *)
(* ================================================================== *)

Section Digest.

Local Open Scope Z_scope.

Lemma hexDigit_lower (x : Z) : lowerHexChar (SHA256.hexDigit x) = true.
Proof.
  unfold SHA256.hexDigit.
  assert (H : 0 <= x mod 16 < 16) by (apply Z.mod_pos_bound; lia).
  remember (x mod 16) as d eqn:E. clear E.
  assert (C : d = 0 \/ d = 1 \/ d = 2 \/ d = 3 \/ d = 4 \/ d = 5 \/ d = 6 \/ d = 7
              \/ d = 8 \/ d = 9 \/ d = 10 \/ d = 11 \/ d = 12 \/ d = 13 \/ d = 14
              \/ d = 15) by lia.
  repeat (destruct C as [C | C]; [subst d; reflexivity | ]).
  subst d; reflexivity.
Qed.

Lemma hexState_length (s : SHA256.state) : String.length (SHA256.hexState s) = 64%nat.
Proof. destruct s. reflexivity. Qed.

Lemma hexWord_lower (w : Z) (tail : string) :
  allChars lowerHexChar tail = true ->
  allChars lowerHexChar (SHA256.hexWord w tail) = true.
Proof.
  intros H. unfold SHA256.hexWord. cbn [allChars].
  rewrite !hexDigit_lower, H. reflexivity.
Qed.

Lemma hexState_lower (s : SHA256.state) : allChars lowerHexChar (SHA256.hexState s) = true.
Proof.
  unfold SHA256.hexState. repeat apply hexWord_lower. reflexivity.
Qed.

(** The digest is 64 characters of lower-case hexadecimal. *)
Lemma sha256_format (msg : string) :
  String.length (SHA256.sha256 msg) = 64%nat
  /\ allChars lowerHexChar (SHA256.sha256 msg) = true.
Proof.
  unfold SHA256.sha256. split; [apply hexState_length | apply hexState_lower].
Qed.

End Digest.

(* ================================================================== *)
(** ** The content hash *)
(* ================================================================== *)

Section ContentHash.

Local Open Scope string_scope.

Lemma append_assoc (a b c : string) : (a ++ b) ++ c = a ++ (b ++ c).
Proof. induction a as [| x a IH]; cbn; [reflexivity | rewrite IH; reflexivity]. Qed.

Lemma blockString_setHash (h : string) (b : Block.t) :
  Blockchain.blockString (Block.setHash h b) = Blockchain.blockString b.
Proof. reflexivity. Qed.

Lemma calculateHash_setHash (h : string) (b : Block.t) :
  Blockchain.calculateHash (Block.setHash h b) = Blockchain.calculateHash b.
Proof. reflexivity. Qed.

Lemma sameFields_blockString (b1 b2 : Block.t) :
  sameFields b1 b2 -> Blockchain.blockString b1 = Blockchain.blockString b2.
Proof.
  intros (Hi & Hp & Ht & Hx & Hn). unfold Blockchain.blockString.
  rewrite Hi, Hp, Ht, Hx, Hn. reflexivity.
Qed.

(** Induction on a value, with the property known of the items of an
    array and of the property values of an object. *)
Lemma value_induction (P : Json.value -> Prop) :
  P Json.Undefined -> P Json.Null -> (forall b, P (Json.Boolean b)) ->
  (forall n, P (Json.Number n)) -> (forall n, P (Json.BigInt n)) ->
  (forall t, P (Json.Text t)) ->
  (forall items, Forall P items -> P (Json.Array items)) ->
  (forall properties, Forall (fun p => P (snd p)) properties ->
                      P (Json.Object properties)) ->
  forall v, P v.
Proof.
  intros HU HN HB HNum HBig HT HA HO.
  fix IH 1. intros [ | | b | n | n | t | items | properties].
  - exact HU.
  - exact HN.
  - apply HB.
  - apply HNum.
  - apply HBig.
  - apply HT.
  - apply HA. induction items as [| x items IHitems]; constructor;
      [apply IH | exact IHitems].
  - apply HO. induction properties as [| [key x] properties IHp]; constructor;
      [apply IH | exact IHp].
Qed.

Lemma stringify_Array (items : list Json.value) :
  Json.stringify (Json.Array items)
  = match Json.elements items with
    | Ok texts => Ok (Some (Js.array texts))
    | TypeError => TypeError
    | OutOfFuel => OutOfFuel
    end.
Proof. reflexivity. Qed.

Lemma stringify_Object (properties : list (string * Json.value)) :
  Json.stringify (Json.Object properties)
  = match Json.members properties with
    | Ok texts => Ok (Some ("{" ++ String.concat "," texts ++ "}"))
    | TypeError => TypeError
    | OutOfFuel => OutOfFuel
    end.
Proof. reflexivity. Qed.

Lemma elements_cons (x : Json.value) (rest : list Json.value) :
  Json.elements (x :: rest)
  = match Json.stringify x with
    | Ok o =>
        match Json.elements rest with
        | Ok texts => Ok (match o with Some text => text | None => "null" end :: texts)
        | TypeError => TypeError
        | OutOfFuel => OutOfFuel
        end
    | TypeError => TypeError
    | OutOfFuel => OutOfFuel
    end.
Proof. reflexivity. Qed.

Lemma members_cons (key : string) (x : Json.value) (rest : list (string * Json.value)) :
  Json.members ((key, x) :: rest)
  = match Json.stringify x with
    | Ok o =>
        match Json.members rest with
        | Ok texts =>
            Ok (match o with
                | Some text => (Js.quote key ++ ":" ++ text) :: texts
                | None => texts
                end)
        | TypeError => TypeError
        | OutOfFuel => OutOfFuel
        end
    | TypeError => TypeError
    | OutOfFuel => OutOfFuel
    end.
Proof. reflexivity. Qed.

(** [JSON.stringify] throws exactly on a value that holds a BigInt, and
    always ends. *)
Lemma stringify_throws (v : Json.value) :
  (Json.stringify v = TypeError <-> Json.hasBigInt v = true)
  /\ Json.stringify v <> OutOfFuel.
Proof.
  induction v as [ | | b | n | n | t | items IH | properties IH] using value_induction;
    try (cbn; split; [split; discriminate | discriminate]).
  - cbn. split; [split; reflexivity | discriminate].
  - rewrite stringify_Array. cbn [Json.hasBigInt].
    assert (E : (Json.elements items = TypeError <-> existsb Json.hasBigInt items = true)
                /\ Json.elements items <> OutOfFuel).
    { induction IH as [| x items [Hx Nx] _ [Hl Nl]].
      - cbn. split; [split; discriminate | discriminate].
      - rewrite elements_cons. cbn [existsb].
        destruct (Json.stringify x) as [o | | ] eqn:Ex; [ | | contradiction].
        + assert (Bx : Json.hasBigInt x = false).
          { destruct (Json.hasBigInt x); [ | reflexivity].
            destruct Hx as [_ Hx]. discriminate (Hx eq_refl). }
          rewrite Bx. cbn [orb].
          destruct (Json.elements items) as [texts | | ]; [ | | contradiction].
          * split; [ | discriminate]. rewrite <- Hl. split; discriminate.
          * split; [ | discriminate]. rewrite <- Hl. split; reflexivity.
        + rewrite (proj1 Hx eq_refl). cbn [orb]. split; [split; reflexivity | discriminate]. }
    destruct E as [Ht Nt].
    destruct (Json.elements items) as [texts | | ]; [ | | contradiction].
    + split; [ | discriminate]. rewrite <- Ht. split; discriminate.
    + split; [ | discriminate]. rewrite <- Ht. split; reflexivity.
  - rewrite stringify_Object. cbn [Json.hasBigInt].
    set (some := fix some (l : list (string * Json.value)) : bool :=
                   match l with
                   | [] => false
                   | (_, x) :: rest => Json.hasBigInt x || some rest
                   end).
    assert (E : (Json.members properties = TypeError <-> some properties = true)
                /\ Json.members properties <> OutOfFuel).
    { induction IH as [| [key x] properties [Hx Nx] _ [Hl Nl]].
      - cbn. split; [split; discriminate | discriminate].
      - rewrite members_cons. cbn [some]. fold some. cbn [snd] in Hx, Nx.
        destruct (Json.stringify x) as [o | | ] eqn:Ex; [ | | contradiction].
        + assert (Bx : Json.hasBigInt x = false).
          { destruct (Json.hasBigInt x); [ | reflexivity].
            destruct Hx as [_ Hx]. discriminate (Hx eq_refl). }
          rewrite Bx. cbn [orb].
          destruct (Json.members properties) as [texts | | ]; [ | | contradiction].
          * split; [ | discriminate]. rewrite <- Hl. split; discriminate.
          * split; [ | discriminate]. rewrite <- Hl. split; reflexivity.
        + rewrite (proj1 Hx eq_refl). cbn [orb]. split; [split; reflexivity | discriminate]. }
    destruct E as [Ht Nt].
    destruct (Json.members properties) as [texts | | ]; [ | | contradiction].
    + split; [ | discriminate]. rewrite <- Ht. split; discriminate.
    + split; [ | discriminate]. rewrite <- Ht. split; reflexivity.
Qed.

(** On the object of a typed transaction [JSON.stringify] writes the six
    properties in the order of the literal. *)
Lemma stringify_ofTransaction (tx : Transaction.t) :
  Json.stringify (Json.ofTransaction tx) = Ok (Some (Blockchain.stringifyTransaction tx)).
Proof.
  unfold Json.ofTransaction, Blockchain.stringifyTransaction.
  cbn [Json.stringify String.concat]. rewrite !append_assoc. reflexivity.
Qed.

Lemma elements_ofTransactions (txs : list Transaction.t) :
  Json.elements (map Json.ofTransaction txs)
  = Ok (map Blockchain.stringifyTransaction txs).
Proof.
  induction txs as [| tx txs IH]; [reflexivity | ].
  cbn [map]. rewrite elements_cons, stringify_ofTransaction, IH. reflexivity.
Qed.

Lemma blockString_ofBlock (b : Block.t) :
  Untyped.blockString (Untyped.ofBlock b) = Ok (Blockchain.blockString b).
Proof.
  unfold Untyped.blockString, Untyped.ofBlock, Blockchain.blockString.
  cbn [Untyped.transactions Untyped.index Untyped.previousHash Untyped.timestamp
       Untyped.nonce].
  rewrite stringify_Array, elements_ofTransactions. reflexivity.
Qed.

(** The typed [calculateHash] is the untyped one on typed blocks. *)
Lemma calculateHash_ofBlock (b : Block.t) :
  Untyped.calculateHash (Untyped.ofBlock b) = Ok (Blockchain.calculateHash b).
Proof.
  unfold Untyped.calculateHash. rewrite blockString_ofBlock. reflexivity.
Qed.

Lemma calculateHash_throws (b : Untyped.block) :
  (Untyped.calculateHash b = TypeError
   <-> existsb Json.hasBigInt (Untyped.transactions b) = true)
  /\ Untyped.calculateHash b <> OutOfFuel.
Proof.
  destruct (stringify_throws (Json.Array (Untyped.transactions b))) as [T N].
  cbn [Json.hasBigInt] in T.
  unfold Untyped.calculateHash, Untyped.blockString.
  destruct (Json.stringify (Json.Array (Untyped.transactions b))) as [o | | ];
    [ | | contradiction].
  - split; [ | discriminate]. rewrite <- T. split; discriminate.
  - split; [ | discriminate]. rewrite <- T. split; reflexivity.
Qed.

(** C9, as the code has it: the content hash is a function of index,
    previousHash, timestamp, nonce and of the text that [JSON.stringify]
    writes for the transactions, which lists the properties of each
    transaction in the order the object has them.  Two blocks that agree
    on the five fields, property order included (whatever their stored
    [hash] fields hold), have the same content hash.  The call raises
    exactly when a transaction holds a BigInt; otherwise the result is the
    SHA-256 digest of the concatenation, 64 characters of lower-case
    hexadecimal, and computing it again on the block, also after the hash
    was stored in it, gives the same string.  On blocks of typed
    transactions this is the typed [calculateHash]; the digest of a sample
    block is the one the code prints. *)
Theorem calculateHash_deterministic (b1 b2 : Untyped.block) :
  sameContent b1 b2 ->
  Untyped.calculateHash b1 = Untyped.calculateHash b2
  /\ (Untyped.calculateHash b1 = TypeError
      <-> existsb Json.hasBigInt (Untyped.transactions b1) = true)
  /\ Untyped.calculateHash b1 <> OutOfFuel
  /\ (forall h, Untyped.calculateHash b1 = Ok h ->
        String.length h = 64%nat
        /\ allChars lowerHexChar h = true
        /\ Untyped.calculateHash (Untyped.setHash h b1) = Ok h)
  /\ (forall tb : Block.t,
        Untyped.calculateHash (Untyped.ofBlock tb) = Ok (Blockchain.calculateHash tb)
        /\ Blockchain.calculateHash tb = SHA256.sha256 (Blockchain.blockString tb))
  /\ (forall tb1 tb2 : Block.t,
        sameFields tb1 tb2 -> Blockchain.calculateHash tb1 = Blockchain.calculateHash tb2)
  /\ Untyped.calculateHash
       (Untyped.mkBlock 1 "00ab" 1700000000002
          [Json.ofTransaction (Transaction.mk "alice" "bob" 50 1 1700000000001 "sig\1")]
          7 "")
     = Ok "6d201e945ba610f4992a8f80579d4e510c5c10c5c5cc9e90cac7023ff6f98c85".
Proof.
  intros (Hi & Hp & Ht & Hx & Hn).
  split.
  { unfold Untyped.calculateHash, Untyped.blockString.
    rewrite Hi, Hp, Ht, Hx, Hn. reflexivity. }
  destruct (calculateHash_throws b1) as [T N].
  split; [exact T | ]. split; [exact N | ].
  split.
  { intros h H. unfold Untyped.calculateHash in H |- *.
    change (Untyped.blockString (Untyped.setHash h b1)) with (Untyped.blockString b1).
    destruct (Untyped.blockString b1) as [text | | ]; try discriminate.
    injection H as <-.
    destruct (sha256_format text) as [L X]. repeat split; assumption. }
  split.
  { intros tb. split; [apply calculateHash_ofBlock | reflexivity]. }
  split.
  { intros tb1 tb2 S. unfold Blockchain.calculateHash.
    rewrite (sameFields_blockString S). reflexivity. }
  vm_compute. reflexivity.
Qed.

(** The theorem applied to two blocks that differ in the stored hash
    only. *)
Lemma calculateHash_deterministic_witness :
  sameContent sampleBlock (Untyped.setHash "stale" sampleBlock)
  /\ Untyped.calculateHash sampleBlock
     = Untyped.calculateHash (Untyped.setHash "stale" sampleBlock)
  /\ Untyped.calculateHash sampleBlock
     = Ok "1415ae5d1929488d38f383879fc6e1d1a7759f0010e5f65d0e0d8f5f705dabba"
  /\ String.length "1415ae5d1929488d38f383879fc6e1d1a7759f0010e5f65d0e0d8f5f705dabba"
     = 64%nat.
Proof.
  assert (S : sameContent sampleBlock (Untyped.setHash "stale" sampleBlock))
    by (repeat split).
  destruct (@calculateHash_deterministic sampleBlock (Untyped.setHash "stale" sampleBlock) S)
    as (E & _ & _ & F & _).
  assert (H : Untyped.calculateHash sampleBlock
              = Ok "1415ae5d1929488d38f383879fc6e1d1a7759f0010e5f65d0e0d8f5f705dabba")
    by (vm_compute; reflexivity).
  split; [exact S | ]. split; [exact E | ]. split; [exact H | ].
  exact (proj1 (F _ H)).
Defined.

(** The claim as worded fails on blocks that are field-identical but
    whose transactions list their properties in another order: the sample
    block, and the block whose transfer holds the same six property values
    written in the order to, from, signature, amount, fee, timestamp, hash
    to different digests.  And a transfer whose amount is a BigInt makes
    [calculateHash] raise instead of returning a string. *)
Lemma calculateHash_reads_property_order :
  Json.get "from" reorderedTransfer = Json.get "from" (Json.ofTransaction aliceToBob)
  /\ Json.get "to" reorderedTransfer = Json.get "to" (Json.ofTransaction aliceToBob)
  /\ Json.get "amount" reorderedTransfer = Json.get "amount" (Json.ofTransaction aliceToBob)
  /\ Json.get "fee" reorderedTransfer = Json.get "fee" (Json.ofTransaction aliceToBob)
  /\ Json.get "timestamp" reorderedTransfer
     = Json.get "timestamp" (Json.ofTransaction aliceToBob)
  /\ Json.get "signature" reorderedTransfer
     = Json.get "signature" (Json.ofTransaction aliceToBob)
  /\ Untyped.index reorderedBlock = Untyped.index sampleBlock
  /\ Untyped.previousHash reorderedBlock = Untyped.previousHash sampleBlock
  /\ Untyped.timestamp reorderedBlock = Untyped.timestamp sampleBlock
  /\ Untyped.nonce reorderedBlock = Untyped.nonce sampleBlock
  /\ Untyped.hash reorderedBlock = Untyped.hash sampleBlock
  /\ Untyped.transactions sampleBlock = [Json.ofTransaction aliceToBob]
  /\ Untyped.transactions reorderedBlock = [reorderedTransfer]
  /\ Untyped.calculateHash sampleBlock
     = Ok "1415ae5d1929488d38f383879fc6e1d1a7759f0010e5f65d0e0d8f5f705dabba"
  /\ Untyped.calculateHash reorderedBlock
     = Ok "25d7ee783291cd8947d77b1c656a802017c3e97e1bad593029af0efa15732f75"
  /\ Untyped.calculateHash
       (Untyped.mkBlock 1 "00ab" 1700000000002 [bigIntTransfer] 7 "")
     = TypeError.
Proof.
  repeat (split; [vm_compute; reflexivity | ]). vm_compute. reflexivity.
Qed.

End ContentHash.

(* ================================================================== *)
(** ** Construction and admission *)
(* ================================================================== *)

Section Admission.

Local Open Scope Z_scope.

(** C7: right after construction the chain is the genesis block alone:
    index 0, previousHash the string 0, no transactions, nonce 0, the
    clock reading as timestamp and the content hash of these fields as
    hash.  The nonce is 0 whatever the hash is: no search takes place, and
    the chain validates although (for instance at clock reading
    1700000000000) the genesis hash misses the difficulty target. *)
Theorem constructor_genesis (now : Z) :
  let s := Blockchain.constructor now in
  let g := Blockchain.createGenesisBlock now in
  Blockchain.chain s = [g]
  /\ List.length (Blockchain.chain s) = 1%nat
  /\ Block.index g = 0
  /\ Block.previousHash g = "0"%string
  /\ Block.transactions g = []
  /\ Block.nonce g = 0
  /\ Block.timestamp g = now
  /\ Block.hash g = Blockchain.calculateHash g
  /\ Block.hash g = SHA256.sha256 (Blockchain.blockString (Block.mk 0 "0" now [] 0 ""))
  /\ Blockchain.pendingTransactions s = []
  /\ Blockchain.validateChain s = true
  /\ Blockchain.meetsTarget
       (Blockchain.difficulty (Blockchain.constructor 1700000000000))
       (Block.hash (Blockchain.createGenesisBlock 1700000000000)) = false.
Proof.
  cbv zeta. do 11 (split; [reflexivity | ]). vm_compute. reflexivity.
Qed.

Lemma isValidTransaction_iff (tx : Transaction.t) :
  Blockchain.isValidTransaction tx = true
  <-> Transaction.from tx <> ""%string
      /\ Transaction.to tx <> ""%string
      /\ Transaction.amount tx > 0
      /\ Transaction.fee tx >= 0.
Proof.
  unfold Blockchain.isValidTransaction.
  rewrite !andb_true_iff, !negb_true_iff, !String.eqb_neq.
  rewrite Z.gtb_ltb, Z.geb_leb, Z.ltb_lt, Z.leb_le.
  intuition lia.
Qed.

Lemma addTransaction_result (tx : Transaction.t) (s : Blockchain.t) :
  fst (Blockchain.addTransaction tx s) = Blockchain.isValidTransaction tx.
Proof.
  unfold Blockchain.addTransaction.
  destruct (Blockchain.isValidTransaction tx); reflexivity.
Qed.

(** C3: [addTransaction] returns true exactly for a transaction with
    non-empty sender and recipient, positive amount and non-negative fee.
    On true the transaction is appended at the end of the pending pool,
    whose length grows by one, and chain and difficulty are untouched; on
    false the state is unchanged.  The answer depends neither on the
    ledger state (no balance check) nor on the signature or the timestamp
    of the transaction (no signature check). *)
Theorem addTransaction_spec (tx : Transaction.t) (s : Blockchain.t) :
  (fst (Blockchain.addTransaction tx s) = true
   <-> Transaction.from tx <> ""%string
       /\ Transaction.to tx <> ""%string
       /\ Transaction.amount tx > 0
       /\ Transaction.fee tx >= 0)
  /\ (fst (Blockchain.addTransaction tx s) = true ->
      let s' := snd (Blockchain.addTransaction tx s) in
      Blockchain.pendingTransactions s' = Blockchain.pendingTransactions s ++ [tx]
      /\ List.length (Blockchain.pendingTransactions s')
         = S (List.length (Blockchain.pendingTransactions s))
      /\ Blockchain.chain s' = Blockchain.chain s
      /\ Blockchain.difficulty s' = Blockchain.difficulty s)
  /\ (fst (Blockchain.addTransaction tx s) = false ->
      snd (Blockchain.addTransaction tx s) = s)
  /\ (forall (s2 : Blockchain.t) (time : Z) (sig : string),
        fst (Blockchain.addTransaction
               (Transaction.mk (Transaction.from tx) (Transaction.to tx)
                  (Transaction.amount tx) (Transaction.fee tx) time sig) s2)
        = fst (Blockchain.addTransaction tx s)).
Proof.
  split; [rewrite addTransaction_result; apply isValidTransaction_iff | ].
  split; [ | split].
  - intros H s'. subst s'. rewrite addTransaction_result in H.
    unfold Blockchain.addTransaction. rewrite H. cbn.
    split; [reflexivity | ]. split; [ | split; reflexivity].
    rewrite length_app. cbn. lia.
  - intros H. rewrite addTransaction_result in H.
    unfold Blockchain.addTransaction. rewrite H. reflexivity.
  - intros s2 time sig. rewrite !addTransaction_result. reflexivity.
Qed.

End Admission.

(* ================================================================== *)
(** ** Proof of work *)
(* ================================================================== *)

Section ProofOfWork.

Local Open Scope Z_scope.

Lemma setNonce_same (b : Block.t) : Block.setNonce (Block.nonce b) b = b.
Proof. destruct b; reflexivity. Qed.

Lemma setNonce_setNonce (n m : Z) (b : Block.t) :
  Block.setNonce n (Block.setNonce m b) = Block.setNonce n b.
Proof. reflexivity. Qed.

(** The target test reads the first [d] characters and wants each to be
    the digit zero. *)
Lemma meetsTarget_chars (d : nat) (h : string) :
  Blockchain.meetsTarget d h = true
  <-> forall i, (i < d)%nat -> String.get i h = Some "0"%char.
Proof.
  unfold Blockchain.meetsTarget. revert h.
  induction d as [| d IH]; intros h.
  - split; [intros _ i Hi; lia | intros _].
    destruct h; reflexivity.
  - destruct h as [| c h].
    + split; [discriminate | ].
      intros H. specialize (H 0%nat ltac:(lia)). discriminate.
    + cbn [substring Js.repeatZero String.eqb].
      destruct (Ascii.eqb_spec c "0"%char) as [-> | Hc].
      * rewrite IH. split.
        -- intros H [| i] Hi; [reflexivity | ]. cbn. apply H. lia.
        -- intros H i Hi. apply (H (S i)). lia.
      * split; [discriminate | ].
        intros H. specialize (H 0%nat ltac:(lia)). cbn in H. congruence.
Qed.

(** As long as the nonces tried do not solve the puzzle, the search moves
    on, one unit of fuel per nonce. *)
Lemma search_skips (k : nat) :
  forall (fuel : nat) (d : nat) (b : Block.t),
    (forall j : nat, (j < k)%nat -> solves d b (Block.nonce b + Z.of_nat j) = false) ->
    Blockchain.mineBlockWithProofOfWork (k + fuel) d b
    = Blockchain.mineBlockWithProofOfWork fuel d
        (Block.setNonce (Block.nonce b + Z.of_nat k) b).
Proof.
  induction k as [| k IH]; intros fuel d b H.
  - cbn. rewrite Z.add_0_r, setNonce_same. reflexivity.
  - cbn [Nat.add Blockchain.mineBlockWithProofOfWork].
    pose proof (H 0%nat ltac:(lia)) as H0.
    unfold solves in H0. cbn [Z.of_nat] in H0.
    rewrite Z.add_0_r, setNonce_same in H0. rewrite H0.
    rewrite IH.
    + cbn [Block.nonce Block.setNonce]. rewrite setNonce_setNonce.
      f_equal. f_equal. lia.
    + intros j Hj. specialize (H (S j) ltac:(lia)).
      unfold solves in *. cbn [Block.nonce Block.setNonce].
      rewrite setNonce_setNonce.
      replace (Block.nonce b + 1 + Z.of_nat j) with (Block.nonce b + Z.of_nat (S j)) by lia.
      exact H.
Qed.

Lemma search_hits (fuel d : nat) (b : Block.t) :
  Blockchain.meetsTarget d (Blockchain.calculateHash b) = true ->
  Blockchain.mineBlockWithProofOfWork (S fuel) d b = Some (Blockchain.calculateHash b, b).
Proof. intros H. cbn. rewrite H. reflexivity. Qed.

Lemma search_out_of_fuel (k : nat) :
  forall (d : nat) (b : Block.t),
    (forall j : nat, (j < k)%nat -> solves d b (Block.nonce b + Z.of_nat j) = false) ->
    Blockchain.mineBlockWithProofOfWork k d b = None.
Proof.
  intros d b H. replace k with (k + 0)%nat by lia.
  rewrite search_skips by assumption. reflexivity.
Qed.

(** Whatever the search returns is a solution, reached from the starting
    nonce by increments only. *)
Lemma search_sound (fuel : nat) :
  forall (d : nat) (b b' : Block.t) (h : string),
    Blockchain.mineBlockWithProofOfWork fuel d b = Some (h, b') ->
    h = Blockchain.calculateHash b'
    /\ Blockchain.meetsTarget d h = true
    /\ exists k : nat, b' = Block.setNonce (Block.nonce b + Z.of_nat k) b.
Proof.
  induction fuel as [| fuel IH]; intros d b b' h H; [discriminate | ].
  cbn in H.
  destruct (Blockchain.meetsTarget d (Blockchain.calculateHash b)) eqn:E.
  - injection H as <- <-. repeat split; [assumption | ].
    exists 0%nat. cbn. rewrite Z.add_0_r, setNonce_same. reflexivity.
  - apply IH in H. destruct H as (Hh & Hm & k & Hk).
    repeat split; [assumption | assumption | ].
    exists (S k). rewrite Hk. cbn [Block.nonce Block.setNonce].
    rewrite setNonce_setNonce. f_equal. lia.
Qed.

(** A predicate on naturals that holds somewhere holds at a least place. *)
Lemma least_true (P : nat -> bool) (n : nat) :
  P n = true ->
  exists m, (m <= n)%nat /\ P m = true /\ forall j, (j < m)%nat -> P j = false.
Proof.
  intros Hn.
  assert (G : forall k, (exists m, (m < k)%nat /\ P m = true
                                   /\ forall j, (j < m)%nat -> P j = false)
                        \/ forall j, (j < k)%nat -> P j = false).
  { induction k as [| k [(m & Hm & Pm & L) | N]].
    - right. intros j Hj. lia.
    - left. exists m. repeat split; [lia | assumption | assumption].
    - destruct (P k) eqn:Pk.
      + left. exists k. repeat split; [lia | assumption | assumption].
      + right. intros j Hj.
        destruct (Nat.eq_dec j k) as [-> | Hne]; [assumption | apply N; lia]. }
  destruct (G (S n)) as [(m & Hm & Pm & L) | N].
  - exists m. repeat split; [lia | assumption | assumption].
  - rewrite N in Hn by lia. discriminate.
Qed.

(** The search on a solvable puzzle, from nonce 0: the least solving nonce
    [m], the result with more fuel than [m], none with less. *)
Lemma proofOfWork_search (d : nat) (b : Block.t) :
  Block.nonce b = 0 ->
  (exists n, 0 <= n /\ solves d b n = true) ->
  exists m,
    0 <= m
    /\ solves d b m = true
    /\ (forall j, 0 <= j < m -> solves d b j = false)
    /\ (forall fuel, (Z.to_nat m < fuel)%nat ->
          Blockchain.mineBlockWithProofOfWork fuel d b
          = Some (Blockchain.calculateHash (Block.setNonce m b), Block.setNonce m b))
    /\ (forall fuel, (fuel <= Z.to_nat m)%nat ->
          Blockchain.mineBlockWithProofOfWork fuel d b = None).
Proof.
  intros Hz (n & Hn & Sn).
  destruct (@least_true (fun k => solves d b (Z.of_nat k)) (Z.to_nat n)) as (m & _ & Pm & L).
  { rewrite Z2Nat.id by assumption. exact Sn. }
  assert (F : forall j : nat, (j < m)%nat ->
                solves d b (Block.nonce b + Z.of_nat j) = false).
  { intros j Hj. rewrite Hz. cbn. apply L. assumption. }
  exists (Z.of_nat m). rewrite Nat2Z.id.
  split; [lia | ]. split; [assumption | ].
  split.
  { intros j Hj. specialize (L (Z.to_nat j) ltac:(lia)).
    rewrite Z2Nat.id in L by lia. exact L. }
  split.
  { intros fuel Hf. replace fuel with (m + S (fuel - S m))%nat by lia.
    rewrite search_skips by assumption.
    rewrite Hz. cbn [Z.add]. apply search_hits. exact Pm. }
  intros fuel Hf. apply search_out_of_fuel.
  intros j Hj. apply F. lia.
Qed.

(** The same search on blocks of arbitrary values that hold no BigInt. *)
Lemma calculateHash_contentHash (b : Untyped.block) :
  existsb Json.hasBigInt (Untyped.transactions b) = false ->
  Untyped.calculateHash b = Ok (contentHash b).
Proof.
  intros B. destruct (calculateHash_throws b) as [T N]. unfold contentHash.
  destruct (Untyped.calculateHash b) as [h | | ]; [reflexivity | | contradiction].
  rewrite (proj1 T eq_refl) in B. discriminate.
Qed.

Lemma untyped_setNonce_same (b : Untyped.block) :
  Untyped.setNonce (Untyped.nonce b) b = b.
Proof. destruct b; reflexivity. Qed.

Lemma untyped_search_skips (k : nat) :
  forall (fuel : nat) (d : nat) (b : Untyped.block),
    existsb Json.hasBigInt (Untyped.transactions b) = false ->
    (forall j : nat, (j < k)%nat ->
                     untypedSolves d b (Untyped.nonce b + Z.of_nat j) = false) ->
    Untyped.mineBlockWithProofOfWork (k + fuel) d b
    = Untyped.mineBlockWithProofOfWork fuel d
        (Untyped.setNonce (Untyped.nonce b + Z.of_nat k) b).
Proof.
  induction k as [| k IH]; intros fuel d b B H.
  - cbn. rewrite Z.add_0_r, untyped_setNonce_same. reflexivity.
  - cbn [Nat.add Untyped.mineBlockWithProofOfWork].
    pose proof (H 0%nat ltac:(lia)) as H0.
    unfold untypedSolves in H0. cbn [Z.of_nat] in H0.
    rewrite Z.add_0_r, untyped_setNonce_same in H0.
    rewrite (calculateHash_contentHash b B), H0.
    rewrite IH.
    + cbn [Untyped.nonce Untyped.setNonce Untyped.index Untyped.previousHash
           Untyped.timestamp Untyped.transactions Untyped.hash].
      f_equal. unfold Untyped.setNonce. f_equal. lia.
    + exact B.
    + intros j Hj. specialize (H (S j) ltac:(lia)).
      unfold untypedSolves in *.
      cbn [Untyped.nonce Untyped.setNonce Untyped.index Untyped.previousHash
           Untyped.timestamp Untyped.transactions Untyped.hash].
      replace (Untyped.nonce b + 1 + Z.of_nat j)
        with (Untyped.nonce b + Z.of_nat (S j)) by lia.
      exact H.
Qed.

Lemma untyped_search_hits (fuel d : nat) (b : Untyped.block) :
  existsb Json.hasBigInt (Untyped.transactions b) = false ->
  Blockchain.meetsTarget d (contentHash b) = true ->
  Untyped.mineBlockWithProofOfWork (S fuel) d b = Ok (contentHash b, b).
Proof.
  intros B H. cbn [Untyped.mineBlockWithProofOfWork].
  rewrite (calculateHash_contentHash b B), H. reflexivity.
Qed.

Lemma untyped_proofOfWork_search (d : nat) (b : Untyped.block) :
  existsb Json.hasBigInt (Untyped.transactions b) = false ->
  Untyped.nonce b = 0 ->
  (exists n, 0 <= n /\ untypedSolves d b n = true) ->
  exists m,
    0 <= m
    /\ untypedSolves d b m = true
    /\ (forall j, 0 <= j < m -> untypedSolves d b j = false)
    /\ (forall fuel, (Z.to_nat m < fuel)%nat ->
          Untyped.mineBlockWithProofOfWork fuel d b
          = Ok (contentHash (Untyped.setNonce m b), Untyped.setNonce m b))
    /\ (forall fuel, (fuel <= Z.to_nat m)%nat ->
          Untyped.mineBlockWithProofOfWork fuel d b = OutOfFuel).
Proof.
  intros B Hz (n & Hn & Sn).
  destruct (@least_true (fun k => untypedSolves d b (Z.of_nat k)) (Z.to_nat n))
    as (m & _ & Pm & L).
  { rewrite Z2Nat.id by assumption. exact Sn. }
  assert (F : forall j : nat, (j < m)%nat ->
                untypedSolves d b (Untyped.nonce b + Z.of_nat j) = false).
  { intros j Hj. rewrite Hz. cbn. apply L. assumption. }
  exists (Z.of_nat m). rewrite Nat2Z.id.
  split; [lia | ]. split; [assumption | ].
  split.
  { intros j Hj. specialize (L (Z.to_nat j) ltac:(lia)).
    rewrite Z2Nat.id in L by lia. exact L. }
  split.
  { intros fuel Hf. replace fuel with (m + S (fuel - S m))%nat by lia.
    rewrite untyped_search_skips by assumption.
    rewrite Hz. cbn [Z.add]. apply untyped_search_hits; [exact B | exact Pm]. }
  intros fuel Hf. replace fuel with (fuel + 0)%nat by lia.
  rewrite untyped_search_skips; [reflexivity | exact B | ].
  intros j Hj. apply F. lia.
Qed.

End ProofOfWork.

(* ================================================================== *)
(** ** Producing a block *)
(* ================================================================== *)

Section ProduceBlock.

Local Open Scope Z_scope.

Lemma getLatestBlock_last (prefix : list Block.t) (tip : Block.t) (s : Blockchain.t) :
  Blockchain.chain s = prefix ++ [tip] -> Blockchain.getLatestBlock s = Some tip.
Proof.
  intros H. unfold Blockchain.getLatestBlock. rewrite H, length_app. cbn.
  replace (List.length prefix + 1 - 1)%nat with (List.length prefix) by lia.
  rewrite nth_error_app2 by lia. rewrite Nat.sub_diag. reflexivity.
Qed.

Lemma getLatestBlock_some (s : Blockchain.t) (tip : Block.t) :
  Blockchain.getLatestBlock s = Some tip ->
  exists prefix, Blockchain.chain s = prefix ++ [tip].
Proof.
  unfold Blockchain.getLatestBlock. intros H.
  destruct (Blockchain.chain s) as [| b l] using rev_ind; [discriminate | ].
  exists l. rewrite length_app in H. cbn in H.
  replace (List.length l + 1 - 1)%nat with (List.length l) in H by lia.
  rewrite nth_error_app2 in H by lia. rewrite Nat.sub_diag in H. cbn in H.
  congruence.
Qed.

(** Opens a hypothesis [H : mineBlock ... = Ok (_, _)]: names the tip, the
    hash and the block that the search returned, keeps the equation [E] of
    the search and substitutes the results. *)
Ltac open_mineBlock H tip h mined E :=
  unfold Blockchain.mineBlock in H;
  destruct (Blockchain.getLatestBlock _) as [tip | ]; [ | discriminate H];
  match type of H with
  | match ?search with _ => _ end = _ => destruct search as [[h mined] | ] eqn:E
  end; [ | discriminate H];
  injection H as <- <-.

(** A ledger that was only mined always has a tip. *)
Lemma mined_has_tip (s : Blockchain.t) :
  Mined s -> exists prefix tip, Blockchain.chain s = prefix ++ [tip].
Proof.
  induction 1 as [now | tx s M IH | fuel addr tR tB s s' nb M IH Hm].
  - exists [], (Blockchain.createGenesisBlock now). reflexivity.
  - destruct IH as (prefix & tip & E). exists prefix, tip.
    unfold Blockchain.addTransaction.
    destruct (Blockchain.isValidTransaction tx); exact E.
  - open_mineBlock Hm tip h mined E. eexists _, _. reflexivity.
Qed.

(** What a call of [mineBlock] that returns has done. *)
Lemma mineBlock_inv (fuel : nat) (minerAddress : string) (rewardTime blockTime : Z)
  (s s' : Blockchain.t) (newBlock : Block.t) :
  Blockchain.mineBlock fuel minerAddress rewardTime blockTime s = Ok (newBlock, s') ->
  exists (tip : Block.t) (k : nat),
    Blockchain.getLatestBlock s = Some tip
    /\ newBlock
       = Block.setHash
           (Blockchain.calculateHash
              (Block.setNonce (Z.of_nat k) (candidate s tip minerAddress rewardTime blockTime)))
           (Block.setNonce (Z.of_nat k) (candidate s tip minerAddress rewardTime blockTime))
    /\ Blockchain.meetsTarget (Blockchain.difficulty s) (Block.hash newBlock) = true
    /\ s' = Blockchain.mk (Blockchain.chain s ++ [newBlock]) [] (Blockchain.difficulty s).
Proof.
  intros H. open_mineBlock H tip h mined E.
  apply search_sound in E. destruct E as (Hh & Hm & k & Hk).
  exists tip, k. cbn [Block.nonce Z.add] in Hk.
  split; [reflexivity | ]. subst h.
  split; [rewrite Hk; reflexivity | ].
  split; [exact Hm | reflexivity].
Qed.

(** C4: for a candidate whose nonce starts at 0 and whose puzzle has a
    solution, the search ends: with more fuel than the least solving nonce
    [m] it returns the content hash of the block at nonce [m], whose first
    [d] characters are the digit zero, and leaves the nonce at [m]; every
    smaller nonce fails, and with fuel up to [m] the search is still
    running.  Hence a block returned by [mineBlock] carries a hash that
    meets the target and equals its recomputed content hash. *)
Theorem proofOfWork_least_nonce (d : nat) (b : Block.t) :
  Block.nonce b = 0 ->
  (exists n, 0 <= n /\ solves d b n = true) ->
  exists m,
    0 <= m
    /\ solves d b m = true
    /\ (forall j, 0 <= j < m -> solves d b j = false)
    /\ (forall fuel, (Z.to_nat m < fuel)%nat ->
          Blockchain.mineBlockWithProofOfWork fuel d b
          = Some (Blockchain.calculateHash (Block.setNonce m b), Block.setNonce m b))
    /\ (forall fuel, (fuel <= Z.to_nat m)%nat ->
          Blockchain.mineBlockWithProofOfWork fuel d b = None)
    /\ (forall i, (i < d)%nat ->
          String.get i (Blockchain.calculateHash (Block.setNonce m b)) = Some "0"%char)
    /\ (forall fuel minerAddress rewardTime blockTime s newBlock s',
          Blockchain.mineBlock fuel minerAddress rewardTime blockTime s = Ok (newBlock, s') ->
          Blockchain.meetsTarget (Blockchain.difficulty s) (Block.hash newBlock) = true
          /\ Block.hash newBlock = Blockchain.calculateHash newBlock).
Proof.
  intros Hz Hsol.
  destruct (@proofOfWork_search d b Hz Hsol) as (m & H0 & H1 & H2 & H3 & H4).
  exists m. do 5 (split; [assumption | ]).
  split; [apply meetsTarget_chars; exact H1 | ].
  intros fuel minerAddress rewardTime blockTime s newBlock s' H.
  apply mineBlock_inv in H. destruct H as (tip & k & _ & Hb & Hm & _).
  split; [exact Hm | ].
  rewrite Hb. reflexivity.
Qed.

Lemma proofOfWork_least_nonce_witness :
  Block.nonce scenarioCandidate = 0%Z
  /\ solves 4 scenarioCandidate 0 = false
  /\ solves 4 scenarioCandidate 1 = false
  /\ solves 4 scenarioCandidate 2 = true
  /\ exists m,
       (0 <= m)%Z
       /\ solves 4 scenarioCandidate m = true
       /\ (forall fuel, (Z.to_nat m < fuel)%nat ->
             Blockchain.mineBlockWithProofOfWork fuel 4 scenarioCandidate
             = Some (Blockchain.calculateHash (Block.setNonce m scenarioCandidate),
                     Block.setNonce m scenarioCandidate)).
Proof.
  split; [reflexivity | ].
  split; [vm_compute; reflexivity | ].
  split; [vm_compute; reflexivity | ].
  split; [vm_compute; reflexivity | ].
  destruct (@proofOfWork_least_nonce 4 scenarioCandidate) as (m & H0 & H1 & _ & H3 & _).
  - reflexivity.
  - exists 2%Z. split; [lia | vm_compute; reflexivity].
  - exists m. repeat split; assumption.
Defined.

(** [mineBlock] on a typed ledger with a tip and a solvable puzzle. *)
Lemma mineBlock_typed (minerAddress : string) (rewardTime blockTime : Z)
  (s : Blockchain.t) (prefix : list Block.t) (tip : Block.t) :
  Blockchain.chain s = prefix ++ [tip] ->
  (exists n, 0 <= n
             /\ solves (Blockchain.difficulty s)
                       (candidate s tip minerAddress rewardTime blockTime) n = true) ->
  exists (newBlock : Block.t) (s' : Blockchain.t) (enough : nat),
    (forall fuel, (enough <= fuel)%nat ->
       Blockchain.mineBlock fuel minerAddress rewardTime blockTime s = Ok (newBlock, s'))
    /\ (forall fuel r,
          Blockchain.mineBlock fuel minerAddress rewardTime blockTime s = Ok r ->
          r = (newBlock, s'))
    /\ Block.transactions newBlock
       = Blockchain.pendingTransactions s
         ++ [Transaction.mk "system" minerAddress 50 0 rewardTime "system_reward"]
    /\ Block.index newBlock = Z.of_nat (List.length (Blockchain.chain s))
    /\ Block.previousHash newBlock = Block.hash tip
    /\ Block.timestamp newBlock = blockTime
    /\ Blockchain.chain s' = Blockchain.chain s ++ [newBlock]
    /\ List.length (Blockchain.chain s') = S (List.length (Blockchain.chain s))
    /\ Blockchain.pendingTransactions s' = []
    /\ Blockchain.difficulty s' = Blockchain.difficulty s.
Proof.
  intros Hchain Hsol.
  pose proof (@getLatestBlock_last prefix tip s Hchain) as Htip.
  set (c := candidate s tip minerAddress rewardTime blockTime) in *.
  destruct (@proofOfWork_search (Blockchain.difficulty s) c eq_refl Hsol)
    as (m & Hm & _ & _ & Hrun & Hnone).
  set (newBlock := Block.setHash (Blockchain.calculateHash (Block.setNonce m c))
                                 (Block.setNonce m c)).
  set (s' := Blockchain.mk (Blockchain.chain s ++ [newBlock]) []
                           (Blockchain.difficulty s)).
  assert (R : forall fuel, (Z.to_nat m < fuel)%nat ->
                Blockchain.mineBlock fuel minerAddress rewardTime blockTime s
                = Ok (newBlock, s')).
  { intros fuel Hf. unfold Blockchain.mineBlock. rewrite Htip.
    change (Block.mk _ _ _ _ _ _) with c. rewrite (Hrun fuel Hf). reflexivity. }
  exists newBlock, s', (S (Z.to_nat m)).
  split; [intros fuel Hf; apply R; lia | ].
  split.
  { intros fuel r Hr.
    destruct (Nat.le_gt_cases fuel (Z.to_nat m)) as [Hle | Hgt].
    - unfold Blockchain.mineBlock in Hr. rewrite Htip in Hr.
      change (Block.mk _ _ _ _ _ _) with c in Hr.
      rewrite (Hnone fuel Hle) in Hr. discriminate.
    - rewrite (R fuel Hgt) in Hr. congruence. }
  do 5 (split; [reflexivity | ]).
  split; [ | split; reflexivity].
  subst s'. cbn [Blockchain.chain]. rewrite length_app. cbn. lia.
Qed.

Lemma untyped_getLatestBlock_last (prefix : list Untyped.block) (tip : Untyped.block)
  (s : Untyped.t) :
  Untyped.chain s = prefix ++ [tip] -> Untyped.getLatestBlock s = Some tip.
Proof.
  intros H. unfold Untyped.getLatestBlock. rewrite H, length_app. cbn.
  replace (List.length prefix + 1 - 1)%nat with (List.length prefix) by lia.
  rewrite nth_error_app2 by lia. rewrite Nat.sub_diag. reflexivity.
Qed.

(** C1, as the code has it: on a ledger whose chain ends with [tip] and
    whose pending transactions hold no BigInt, and provided the puzzle of
    the candidate block has a solution, [mineBlock] returns (with any fuel
    from some bound on, and with the same result whenever it returns) a
    block whose transactions are the pending ones in order followed by the
    one reward transaction from system to the miner with amount 50 and fee
    0, whose index is the former chain length and whose previousHash is
    the hash of [tip]; the chain is the former chain with that block
    appended, one block longer, and the pending pool is empty.  The pending
    transactions are arbitrary plain values; on typed ledgers the same
    holds of the typed [mineBlock]. *)
Theorem mineBlock_spec :
  (forall (minerAddress : string) (rewardTime blockTime : Z)
          (s : Untyped.t) (prefix : list Untyped.block) (tip : Untyped.block),
     Untyped.chain s = prefix ++ [tip] ->
     existsb Json.hasBigInt (Untyped.pendingTransactions s) = false ->
     (exists n, 0 <= n
                /\ untypedSolves (Untyped.difficulty s)
                     (untypedCandidate s tip minerAddress rewardTime blockTime) n = true) ->
     exists (newBlock : Untyped.block) (s' : Untyped.t) (enough : nat),
       (forall fuel, (enough <= fuel)%nat ->
          Untyped.mineBlock fuel minerAddress rewardTime blockTime s = Ok (newBlock, s'))
       /\ (forall fuel r,
             Untyped.mineBlock fuel minerAddress rewardTime blockTime s = Ok r ->
             r = (newBlock, s'))
       /\ Untyped.transactions newBlock
          = Untyped.pendingTransactions s
            ++ [Json.ofTransaction
                  (Transaction.mk "system" minerAddress 50 0 rewardTime "system_reward")]
       /\ Untyped.index newBlock = Z.of_nat (List.length (Untyped.chain s))
       /\ Untyped.previousHash newBlock = Untyped.hash tip
       /\ Untyped.timestamp newBlock = blockTime
       /\ Untyped.chain s' = Untyped.chain s ++ [newBlock]
       /\ List.length (Untyped.chain s') = S (List.length (Untyped.chain s))
       /\ Untyped.pendingTransactions s' = []
       /\ Untyped.difficulty s' = Untyped.difficulty s)
  /\ (forall (minerAddress : string) (rewardTime blockTime : Z)
             (s : Blockchain.t) (prefix : list Block.t) (tip : Block.t),
        Blockchain.chain s = prefix ++ [tip] ->
        (exists n, 0 <= n
                   /\ solves (Blockchain.difficulty s)
                        (candidate s tip minerAddress rewardTime blockTime) n = true) ->
        exists (newBlock : Block.t) (s' : Blockchain.t) (enough : nat),
          (forall fuel, (enough <= fuel)%nat ->
             Blockchain.mineBlock fuel minerAddress rewardTime blockTime s
             = Ok (newBlock, s'))
          /\ (forall fuel r,
                Blockchain.mineBlock fuel minerAddress rewardTime blockTime s = Ok r ->
                r = (newBlock, s'))
          /\ Block.transactions newBlock
             = Blockchain.pendingTransactions s
               ++ [Transaction.mk "system" minerAddress 50 0 rewardTime "system_reward"]
          /\ Block.index newBlock = Z.of_nat (List.length (Blockchain.chain s))
          /\ Block.previousHash newBlock = Block.hash tip
          /\ Block.timestamp newBlock = blockTime
          /\ Blockchain.chain s' = Blockchain.chain s ++ [newBlock]
          /\ List.length (Blockchain.chain s') = S (List.length (Blockchain.chain s))
          /\ Blockchain.pendingTransactions s' = []
          /\ Blockchain.difficulty s' = Blockchain.difficulty s).
Proof.
  split; [ | exact mineBlock_typed].
  intros minerAddress rewardTime blockTime s prefix tip Hchain HB Hsol.
  pose proof (@untyped_getLatestBlock_last prefix tip s Hchain) as Htip.
  set (c := untypedCandidate s tip minerAddress rewardTime blockTime) in *.
  assert (B : existsb Json.hasBigInt (Untyped.transactions c) = false).
  { unfold c, untypedCandidate. cbn [Untyped.transactions].
    rewrite existsb_app, HB. reflexivity. }
  destruct (@untyped_proofOfWork_search (Untyped.difficulty s) c B eq_refl Hsol)
    as (m & Hm & _ & _ & Hrun & Hnone).
  set (newBlock := Untyped.setHash (contentHash (Untyped.setNonce m c))
                                   (Untyped.setNonce m c)).
  set (s' := Untyped.mk (Untyped.chain s ++ [newBlock]) [] (Untyped.difficulty s)).
  assert (R : forall fuel, (Z.to_nat m < fuel)%nat ->
                Untyped.mineBlock fuel minerAddress rewardTime blockTime s
                = Ok (newBlock, s')).
  { intros fuel Hf. unfold Untyped.mineBlock. rewrite Htip.
    change (Untyped.mkBlock _ _ _ _ _ _) with c. rewrite (Hrun fuel Hf). reflexivity. }
  exists newBlock, s', (S (Z.to_nat m)).
  split; [intros fuel Hf; apply R; lia | ].
  split.
  { intros fuel r Hr.
    destruct (Nat.le_gt_cases fuel (Z.to_nat m)) as [Hle | Hgt].
    - unfold Untyped.mineBlock in Hr. rewrite Htip in Hr.
      change (Untyped.mkBlock _ _ _ _ _ _) with c in Hr.
      rewrite (Hnone fuel Hle) in Hr. discriminate.
    - rewrite (R fuel Hgt) in Hr. congruence. }
  do 5 (split; [reflexivity | ]).
  split; [ | split; reflexivity].
  subst s'. cbn [Untyped.chain]. rewrite length_app. cbn. lia.
Qed.

Lemma scenario_mined :
  Blockchain.mineBlock 3 "miner1" 1700000006001 1700000006001 scenarioLedger
  = Ok (minedBlock, minedLedger).
Proof. vm_compute. reflexivity. Qed.

Lemma reordered_mined :
  exists newBlock s',
    Untyped.mineBlock 1 "miner1" 1700000007764 1700000007764 reorderedLedger
    = Ok (newBlock, s')
    /\ Untyped.hash newBlock
       = "0000c7d6c29a827d3e909e8833ad6fab0776e2585800ab88ff654a52f7cdd43e"%string.
Proof. eexists _, _. split; vm_compute; reflexivity. Qed.

(** The theorem applied to the fresh ledger with the reordered transfer
    pending (an object that no typed record stands for), and to the typed
    scenario. *)
Lemma mineBlock_spec_witness :
  Untyped.chain reorderedLedger
  = [] ++ [Untyped.ofBlock (Blockchain.createGenesisBlock 1700000000000)]
  /\ existsb Json.hasBigInt (Untyped.pendingTransactions reorderedLedger) = false
  /\ untypedSolves 4
       (untypedCandidate reorderedLedger
          (Untyped.ofBlock (Blockchain.createGenesisBlock 1700000000000))
          "miner1" 1700000007764 1700000007764) 0 = true
  /\ (exists newBlock s',
        Untyped.mineBlock 1 "miner1" 1700000007764 1700000007764 reorderedLedger
        = Ok (newBlock, s')
        /\ Untyped.transactions newBlock
           = [reorderedTransfer;
              Json.ofTransaction
                (Transaction.mk "system" "miner1" 50 0 1700000007764 "system_reward")]
        /\ Untyped.index newBlock = 1
        /\ List.length (Untyped.chain s') = 2%nat
        /\ Untyped.pendingTransactions s' = [])
  /\ exists newBlock s',
       Blockchain.mineBlock 3 "miner1" 1700000006001 1700000006001 scenarioLedger
       = Ok (newBlock, s')
       /\ Block.transactions newBlock
          = [aliceToBob;
             Transaction.mk "system" "miner1" 50 0 1700000006001 "system_reward"]
       /\ Block.index newBlock = 1
       /\ Block.previousHash newBlock
          = Block.hash (Blockchain.createGenesisBlock 1700000000000)
       /\ List.length (Blockchain.chain s') = 2%nat
       /\ Blockchain.pendingTransactions s' = [].
Proof.
  split; [reflexivity | ]. split; [reflexivity | ].
  split; [vm_compute; reflexivity | ].
  destruct mineBlock_spec as [Huntyped Htyped].
  split.
  - destruct (Huntyped "miner1"%string 1700000007764 1700000007764 reorderedLedger []
                (Untyped.ofBlock (Blockchain.createGenesisBlock 1700000000000)))
      as (nb & s' & enough & _ & Huniq & Htx & Hidx & _ & _ & _ & Hlen & Hpend & _).
    + reflexivity.
    + reflexivity.
    + exists 0. split; [lia | vm_compute; reflexivity].
    + destruct reordered_mined as (nb1 & s1 & E1 & _).
      pose proof (Huniq 1%nat _ E1) as E. injection E as -> ->.
      exists nb, s'. repeat split; assumption.
  - destruct (Htyped "miner1"%string 1700000006001 1700000006001 scenarioLedger []
                (Blockchain.createGenesisBlock 1700000000000))
      as (nb2 & s2 & enough2 & _ & Huniq2 & Htx2 & Hidx2 & Hprev2 & _ & _ & Hlen2
          & Hpend2 & _).
    + reflexivity.
    + exists 2. split; [lia | vm_compute; reflexivity].
    + exists nb2, s2. pose proof (Huniq2 3%nat _ scenario_mined) as E.
      split; [rewrite scenario_mined, E; reflexivity | ].
      repeat split; assumption.
Defined.

(** The claim as worded fails on two kinds of ledger state.  Without a
    tip: on the emptied chain [getLatestBlock()] is undefined and
    [mineBlock] raises when it reads its hash.  With a pending transaction
    that [JSON.stringify] refuses: on the fresh chain with a transfer
    whose amount is a BigInt in the pool, [mineBlock] raises when it
    hashes the candidate.  In both cases nothing was appended. *)
Lemma mineBlock_raises_without_tip :
  Blockchain.getChain emptiedLedger = []
  /\ Blockchain.getPendingTransactions emptiedLedger = [aliceToBob]
  /\ Blockchain.getLatestBlock emptiedLedger = None
  /\ Blockchain.mineBlock 3 "miner1" 1700000006001 1700000006001 emptiedLedger
     = TypeError
  /\ Untyped.getLatestBlock poisonedLedger
     = Some (Untyped.ofBlock (Blockchain.createGenesisBlock 1700000000000))
  /\ Untyped.pendingTransactions poisonedLedger = [bigIntTransfer]
  /\ Untyped.mineBlock 3 "miner1" 1700000006001 1700000006001 poisonedLedger
     = TypeError.
Proof. repeat split. Qed.

End ProduceBlock.

(* ================================================================== *)
(** ** Chain validation *)
(* ================================================================== *)

Section Validation.

Lemma checkBlock_iff (d : nat) (cur prev : Block.t) :
  Blockchain.checkBlock d cur prev = true
  <-> Block.hash cur = Blockchain.calculateHash cur
      /\ Block.previousHash cur = Block.hash prev
      /\ Blockchain.meetsTarget d (Block.hash cur) = true.
Proof.
  unfold Blockchain.checkBlock.
  destruct (String.eqb_spec (Block.hash cur) (Blockchain.calculateHash cur)) as [E1 | N1];
    cbn [negb].
  - destruct (String.eqb_spec (Block.previousHash cur) (Block.hash prev)) as [E2 | N2];
      cbn [negb].
    + destruct (Blockchain.meetsTarget d (Block.hash cur)); cbn [negb]; intuition congruence.
    + intuition congruence.
  - intuition congruence.
Qed.

Lemma passes_linked (s : Blockchain.t) (i : nat) : passes s i = true <-> linked s i.
Proof.
  unfold passes, linked. split.
  - destruct (nth_error (Blockchain.chain s) i) as [cur | ]; [ | discriminate].
    destruct (nth_error (Blockchain.chain s) (i - 1)) as [prev | ]; [ | discriminate].
    intros H. apply checkBlock_iff in H. exists cur, prev. tauto.
  - intros (cur & prev & -> & -> & H). apply checkBlock_iff. exact H.
Qed.

(** One turn of the loop, in terms of [passes]. *)
Lemma validateLoop_step (s : Blockchain.t) (i n : nat) :
  Blockchain.validateLoop s i (S n)
  = if passes s i
    then (fst (Blockchain.validateLoop s (S i) n),
          i :: snd (Blockchain.validateLoop s (S i) n))
    else (false, [i]).
Proof.
  cbn [Blockchain.validateLoop]. unfold passes.
  destruct (nth_error (Blockchain.chain s) i) as [cur | ]; [ | reflexivity].
  destruct (nth_error (Blockchain.chain s) (i - 1)) as [prev | ]; [ | reflexivity].
  destruct (Blockchain.checkBlock (Blockchain.difficulty s) cur prev); [ | reflexivity].
  destruct (Blockchain.validateLoop s (S i) n). reflexivity.
Qed.

(** All blocks pass: the loop reads every index and answers true. *)
Lemma validateLoop_all (s : Blockchain.t) (n : nat) :
  forall i,
    (forall j, i <= j < i + n -> passes s j = true) ->
    Blockchain.validateLoop s i n = (true, seq i n).
Proof.
  induction n as [| n IH]; intros i H; [reflexivity | ].
  rewrite validateLoop_step, (H i) by lia.
  rewrite IH by (intros j Hj; apply H; lia). reflexivity.
Qed.

(** Block [k] is the first to fail: the loop reads the indexes up to [k]
    and answers false, whatever comes after [k]. *)
Lemma validateLoop_first (s : Blockchain.t) (n : nat) :
  forall i k,
    i <= k < i + n ->
    (forall j, i <= j < k -> passes s j = true) ->
    passes s k = false ->
    Blockchain.validateLoop s i n = (false, seq i (S (k - i))).
Proof.
  induction n as [| n IH]; intros i k Hk Hbefore Hfail; [lia | ].
  rewrite validateLoop_step.
  destruct (Nat.eq_dec i k) as [-> | Hne].
  - rewrite Hfail, Nat.sub_diag. reflexivity.
  - rewrite (Hbefore i) by lia.
    rewrite (IH (S i) k) by (try lia; try assumption; intros j Hj; apply Hbefore; lia).
    cbn [fst snd]. replace (k - i) with (S (k - S i)) by lia. reflexivity.
Qed.

(** A failing block has a first failing block at or before it. *)
Lemma first_failure (s : Blockchain.t) (i : nat) :
  1 <= i -> passes s i = false ->
  exists k, 1 <= k <= i /\ passes s k = false /\ forall j, 1 <= j < k -> passes s j = true.
Proof.
  intros Hi Hf.
  destruct (@least_true (fun j => negb (passes s (S j))) (i - 1)) as (m & Hm & Pm & L).
  { replace (S (i - 1)) with i by lia. rewrite Hf. reflexivity. }
  exists (S m). split; [lia | ]. split.
  - apply negb_true_iff. exact Pm.
  - intros j Hj. specialize (L (j - 1) ltac:(lia)).
    replace (S (j - 1)) with j in L by lia.
    apply negb_false_iff. exact L.
Qed.

Lemma validateChain_false (s : Blockchain.t) (i : nat) :
  1 <= i < List.length (Blockchain.chain s) ->
  passes s i = false ->
  Blockchain.validateChain s = false.
Proof.
  intros Hi Hf.
  destruct (first_failure s (proj1 Hi) Hf) as (k & Hk & Fk & Bk).
  unfold Blockchain.validateChain, Blockchain.validateTrace.
  rewrite (@validateLoop_first s _ 1 k); [reflexivity | lia | assumption | assumption].
Qed.

Lemma validateChain_iff (s : Blockchain.t) :
  Blockchain.validateChain s = true
  <-> forall i, 1 <= i < List.length (Blockchain.chain s) -> linked s i.
Proof.
  split.
  - intros H i Hi. apply passes_linked.
    destruct (passes s i) eqn:E; [reflexivity | ].
    rewrite (validateChain_false s Hi E) in H. discriminate.
  - intros H. unfold Blockchain.validateChain, Blockchain.validateTrace.
    rewrite validateLoop_all; [reflexivity | ].
    intros j Hj. apply passes_linked. apply H. lia.
Qed.

(** [linked] reads the chain and the difficulty only. *)
Lemma linked_ext (s1 s2 : Blockchain.t) (i : nat) :
  nth_error (Blockchain.chain s1) i = nth_error (Blockchain.chain s2) i ->
  nth_error (Blockchain.chain s1) (i - 1) = nth_error (Blockchain.chain s2) (i - 1) ->
  Blockchain.difficulty s1 = Blockchain.difficulty s2 ->
  linked s1 i -> linked s2 i.
Proof.
  intros E1 E2 Ed (cur & prev & H1 & H2 & H). exists cur, prev.
  rewrite <- E1, <- E2, <- Ed. tauto.
Qed.

(** Every ledger that was only mined validates. *)
Lemma mined_valid (s : Blockchain.t) : Mined s -> Blockchain.validateChain s = true.
Proof.
  intros M. apply validateChain_iff.
  induction M as [now | tx s M IH | fuel addr tR tB s s' nb M IH Hm].
  - cbn. intros i Hi. lia.
  - intros i Hi.
    assert (E : Blockchain.chain (snd (Blockchain.addTransaction tx s)) = Blockchain.chain s
                /\ Blockchain.difficulty (snd (Blockchain.addTransaction tx s))
                   = Blockchain.difficulty s).
    { unfold Blockchain.addTransaction.
      destruct (Blockchain.isValidTransaction tx); split; reflexivity. }
    destruct E as [Ec Ed]. rewrite Ec in Hi.
    apply (@linked_ext s); [rewrite Ec | rewrite Ec | rewrite Ed | apply IH];
      solve [reflexivity | assumption].
  - apply mineBlock_inv in Hm. destruct Hm as (tip & k & Htip & Hb & Hmeets & ->).
    cbn [Blockchain.chain]. intros i Hi. rewrite length_app in Hi. cbn in Hi.
    destruct (Nat.eq_dec i (List.length (Blockchain.chain s))) as [-> | Hne].
    + exists nb, tip. cbn [Blockchain.chain Blockchain.difficulty].
      split; [rewrite nth_error_app2, Nat.sub_diag by lia; reflexivity | ].
      split; [rewrite nth_error_app1 by lia; exact Htip | ].
      split; [rewrite Hb; reflexivity | ].
      split; [rewrite Hb; reflexivity | exact Hmeets].
    + apply (@linked_ext s); cbn [Blockchain.chain Blockchain.difficulty].
      * rewrite nth_error_app1 by lia. reflexivity.
      * rewrite nth_error_app1 by lia. reflexivity.
      * reflexivity.
      * apply IH. lia.
Qed.

Lemma nth_error_replaceAt_same (l : list Block.t) :
  forall i b, i < List.length l -> nth_error (replaceAt i b l) i = Some b.
Proof.
  induction l as [| x l IH]; intros i b Hi; [cbn in Hi; lia | ].
  destruct i as [| i]; [reflexivity | ]. cbn. apply IH. cbn in Hi. lia.
Qed.

Lemma nth_error_replaceAt_other (l : list Block.t) :
  forall i j b, i <> j -> nth_error (replaceAt i b l) j = nth_error l j.
Proof.
  induction l as [| x l IH]; intros i j b Hne; [destruct i; reflexivity | ].
  destruct i as [| i], j as [| j]; try reflexivity; try lia.
  cbn. apply IH. lia.
Qed.

Lemma length_replaceAt (l : list Block.t) :
  forall i b, List.length (replaceAt i b l) = List.length l.
Proof.
  induction l as [| x l IH]; intros i b; [destruct i; reflexivity | ].
  destruct i as [| i]; [reflexivity | ]. cbn. rewrite IH. reflexivity.
Qed.

Lemma not_passes (s : Blockchain.t) (i : nat) : ~ linked s i -> passes s i = false.
Proof.
  intros H. destruct (passes s i) eqn:E; [ | reflexivity].
  apply passes_linked in E. contradiction.
Qed.

(** Altering the stored hash of a block of a valid chain is detected, save
    for the genesis block of a chain that has no second block. *)
Lemma tampered_hash_detected (s : Blockchain.t) (i : nat) (b : Block.t) (h : string) :
  Blockchain.validateChain s = true ->
  nth_error (Blockchain.chain s) i = Some b ->
  h <> Block.hash b ->
  1 <= i \/ 2 <= List.length (Blockchain.chain s) ->
  Blockchain.validateChain (withBlock i (Block.setHash h b) s) = false.
Proof.
  intros V Hb Hh Hcase.
  assert (Hi : i < List.length (Blockchain.chain s)).
  { apply nth_error_Some. rewrite Hb. discriminate. }
  rewrite validateChain_iff in V.
  destruct (Nat.eq_dec i 0) as [-> | Hpos].
  - apply (@validateChain_false _ 1).
    + cbn [withBlock Blockchain.chain]. rewrite length_replaceAt. lia.
    + apply not_passes. intros (cur & prev & H1 & H0 & _ & Hl & _).
      cbn [withBlock Blockchain.chain] in H1, H0.
      rewrite nth_error_replaceAt_other in H1 by lia.
      rewrite nth_error_replaceAt_same in H0 by lia.
      injection H0 as <-.
      destruct (V 1 ltac:(lia)) as (cur' & prev' & H1' & H0' & _ & Hl' & _).
      change (1 - 1) with 0 in H0'. rewrite H1 in H1'. rewrite Hb in H0'.
      injection H1' as <-. injection H0' as <-.
      cbn in Hl. congruence.
  - apply (@validateChain_false _ i).
    + cbn [withBlock Blockchain.chain]. rewrite length_replaceAt. lia.
    + apply not_passes. intros (cur & prev & H1 & _ & Hc & _).
      cbn [withBlock Blockchain.chain] in H1.
      rewrite nth_error_replaceAt_same in H1 by lia.
      injection H1 as <-.
      destruct (V i ltac:(lia)) as (cur' & prev' & H1' & _ & Hc' & _).
      rewrite Hb in H1'. injection H1' as <-.
      rewrite calculateHash_setHash in Hc. cbn in Hc. congruence.
Qed.

(** The loop reads nothing beyond the first failing block: a ledger that
    agrees with [s] up to block [k] gets the same trace. *)
Lemma passes_prefix (s s2 : Blockchain.t) (k j : nat) :
  firstn (S k) (Blockchain.chain s2) = firstn (S k) (Blockchain.chain s) ->
  Blockchain.difficulty s2 = Blockchain.difficulty s ->
  j <= k -> passes s2 j = passes s j.
Proof.
  intros Hp Hd Hj. unfold passes.
  assert (E : forall l, l <= k ->
                nth_error (Blockchain.chain s2) l = nth_error (Blockchain.chain s) l).
  { intros l Hl.
    pose proof (nth_error_firstn (S k) (Blockchain.chain s2) l) as E2.
    pose proof (nth_error_firstn (S k) (Blockchain.chain s) l) as E1.
    assert (Hlt : Nat.ltb l (S k) = true) by (apply Nat.ltb_lt; lia).
    rewrite Hlt in E1, E2. rewrite <- E1, <- E2, Hp. reflexivity. }
  rewrite (E j), (E (j - 1)), Hd by lia. reflexivity.
Qed.

Lemma validateTrace_first (s : Blockchain.t) (k : nat) :
  1 <= k < List.length (Blockchain.chain s) ->
  (forall j, 1 <= j < k -> passes s j = true) ->
  passes s k = false ->
  Blockchain.validateTrace s = (false, seq 1 k).
Proof.
  intros Hk Hb Hf. unfold Blockchain.validateTrace.
  rewrite (@validateLoop_first s _ 1 k) by (assumption || lia).
  replace (S (k - 1)) with k by lia. reflexivity.
Qed.

Lemma validateTrace_short_circuit (s : Blockchain.t) (k : nat) :
  1 <= k < List.length (Blockchain.chain s) ->
  (forall j, 1 <= j < k -> linked s j) ->
  ~ linked s k ->
  Blockchain.validateTrace s = (false, seq 1 k)
  /\ forall s2,
       firstn (S k) (Blockchain.chain s2) = firstn (S k) (Blockchain.chain s) ->
       Blockchain.difficulty s2 = Blockchain.difficulty s ->
       Blockchain.validateTrace s2 = (false, seq 1 k).
Proof.
  intros Hk Hb Hf.
  assert (Pb : forall j, 1 <= j < k -> passes s j = true)
    by (intros j Hj; apply passes_linked; apply Hb; exact Hj).
  pose proof (not_passes Hf) as Pf.
  split; [apply validateTrace_first; assumption | ].
  intros s2 Hp Hd. apply validateTrace_first.
  - split; [lia | ].
    assert (L : List.length (firstn (S k) (Blockchain.chain s2)) = S k).
    { rewrite Hp, length_firstn. lia. }
    rewrite length_firstn in L. lia.
  - intros j Hj. rewrite (@passes_prefix s s2 k j) by (assumption || lia).
    apply Pb. exact Hj.
  - rewrite (@passes_prefix s s2 k k) by (assumption || lia). exact Pf.
Qed.

(** C2, as the code has it: [validateChain] answers true exactly when
    every block from index 1 on stores its recomputed content hash, links
    to the hash of the block before it and meets the difficulty target.
    It answers true on every ledger that was only mined.  It answers false
    when the stored hash of a block of a valid chain is altered (for the
    genesis block: provided the chain has a second block), when a link is
    broken and when the hash of a block after the genesis block misses the
    target.  At the first failing block [k] it answers false having read
    the blocks up to [k] only, whatever follows them. *)
Theorem validateChain_spec :
  (forall s, Blockchain.validateChain s = true
             <-> forall i, 1 <= i < List.length (Blockchain.chain s) -> linked s i)
  /\ (forall s, Mined s -> Blockchain.validateChain s = true)
  /\ (forall s i b h,
        Blockchain.validateChain s = true ->
        nth_error (Blockchain.chain s) i = Some b ->
        h <> Block.hash b ->
        1 <= i \/ 2 <= List.length (Blockchain.chain s) ->
        Blockchain.validateChain (withBlock i (Block.setHash h b) s) = false)
  /\ (forall s i cur prev,
        1 <= i ->
        nth_error (Blockchain.chain s) i = Some cur ->
        nth_error (Blockchain.chain s) (i - 1) = Some prev ->
        Block.previousHash cur <> Block.hash prev ->
        Blockchain.validateChain s = false)
  /\ (forall s i cur,
        1 <= i ->
        nth_error (Blockchain.chain s) i = Some cur ->
        Blockchain.meetsTarget (Blockchain.difficulty s) (Block.hash cur) = false ->
        Blockchain.validateChain s = false)
  /\ (forall s k,
        1 <= k < List.length (Blockchain.chain s) ->
        (forall j, 1 <= j < k -> linked s j) ->
        ~ linked s k ->
        Blockchain.validateTrace s = (false, seq 1 k)
        /\ forall s2,
             firstn (S k) (Blockchain.chain s2) = firstn (S k) (Blockchain.chain s) ->
             Blockchain.difficulty s2 = Blockchain.difficulty s ->
             Blockchain.validateTrace s2 = (false, seq 1 k)).
Proof.
  split; [exact validateChain_iff | ].
  split; [exact mined_valid | ].
  split; [exact tampered_hash_detected | ].
  split; [ | split; [ | exact validateTrace_short_circuit]].
  - intros s i cur prev Hi Hc Hp Hne.
    apply (@validateChain_false s i).
    + split; [exact Hi | ]. apply nth_error_Some. rewrite Hc. discriminate.
    + apply not_passes. intros (c & q & H1 & H2 & _ & Hl & _).
      rewrite Hc in H1. rewrite Hp in H2. injection H1 as <-. injection H2 as <-.
      contradiction.
  - intros s i cur Hi Hc Hm.
    apply (@validateChain_false s i).
    + split; [exact Hi | ]. apply nth_error_Some. rewrite Hc. discriminate.
    + apply not_passes. intros (c & q & H1 & _ & _ & _ & Ht).
      rewrite Hc in H1. injection H1 as <-. congruence.
Qed.

Lemma minedLedger_mined : Mined minedLedger.
Proof.
  apply (@Mined_mine 3 "miner1" 1700000006001 1700000006001 scenarioLedger
           minedLedger minedBlock).
  - apply Mined_add. apply Mined_new.
  - exact scenario_mined.
Qed.

(** The theorem at work on the mined scenario: the ledger validates, and
    altering the hash of either of its two blocks, the link of block 1 or
    (by swapping in an unmined block) its difficulty is refused. *)
Lemma validateChain_spec_witness :
  Blockchain.validateChain minedLedger = true
  /\ Blockchain.validateChain
       (withBlock 1 (Block.setHash "0000" minedBlock) minedLedger) = false
  /\ Blockchain.validateChain
       (withBlock 0 (Block.setHash "0000" (Blockchain.createGenesisBlock 1700000000000))
                  minedLedger) = false
  /\ Blockchain.validateChain
       (withBlock 1 (setPreviousHash "0" minedBlock) minedLedger) = false.
Proof.
  destruct validateChain_spec as (_ & Hmined & Htamper & Hlink & _).
  pose proof (Hmined minedLedger minedLedger_mined) as V.
  split; [exact V | ].
  split.
  { apply Htamper; [exact V | vm_compute; reflexivity | | left; lia].
    vm_compute. discriminate. }
  split.
  { apply Htamper; [exact V | vm_compute; reflexivity | | right; vm_compute; lia].
    vm_compute. discriminate. }
  apply (Hlink _ 1 (setPreviousHash "0" minedBlock)
               (Blockchain.createGenesisBlock 1700000000000));
    [lia | vm_compute; reflexivity | vm_compute; reflexivity | ].
  vm_compute. discriminate.
Defined.

(** The claim as worded fails on the ledger right after construction: its
    only block is the genesis block, whose stored hash can be altered
    without [validateChain] noticing. *)
Lemma validateChain_misses_altered_genesis :
  Blockchain.chain freshLedger = [Blockchain.createGenesisBlock 1700000000000]
  /\ Blockchain.validateChain freshLedger = true
  /\ String.eqb "0000" (Block.hash (Blockchain.createGenesisBlock 1700000000000)) = false
  /\ Blockchain.validateChain
       (withBlock 0 (Block.setHash "0000" (Blockchain.createGenesisBlock 1700000000000))
                  freshLedger) = true.
Proof.
  split; [reflexivity | ]. split; [reflexivity | ].
  split; [vm_compute; reflexivity | reflexivity].
Qed.

(** C10: a chain of one block validates without any check: the loop
    starts at index 1 and reads no block, whatever the fields and the
    stored hash of the only block are. *)
Theorem validateChain_single_block (b : Block.t) (pending : list Transaction.t) (d : nat) :
  Blockchain.validateChain (Blockchain.mk [b] pending d) = true
  /\ Blockchain.validateTrace (Blockchain.mk [b] pending d) = (true, [])
  /\ (forall (i : Z) (p h : string) (t n : Z) (txs : list Transaction.t),
        Blockchain.validateChain
          (withBlock 0 (Block.mk i p t txs n h) (Blockchain.mk [b] pending d)) = true).
Proof.
  split; [reflexivity | ]. split; [reflexivity | ].
  intros. reflexivity.
Qed.

End Validation.

(* ================================================================== *)
(** ** Doubles on safe integers *)
(* ================================================================== *)

Section Doubles.

Local Open Scope Z_scope.

Lemma shiftPos_S k q : shiftPos (S k) q = xO (shiftPos k q).
Proof. reflexivity. Qed.

Lemma shiftPos_value k q : Zpos (shiftPos k q) = Zpos q * 2 ^ Z.of_nat k.
Proof.
  induction k as [|k IH].
  - simpl. lia.
  - rewrite shiftPos_S, Pos2Z.inj_xO, IH, Nat2Z.inj_succ, Z.pow_succ_r by lia. lia.
Qed.

Lemma shiftPos_add j k q : shiftPos j (shiftPos k q) = shiftPos (j + k) q.
Proof. unfold shiftPos. now rewrite Nat.iter_add. Qed.

Lemma digits_shiftPos k q :
  Zpos (SpecFloat.digits2_pos (shiftPos k q))
  = Zpos (SpecFloat.digits2_pos q) + Z.of_nat k.
Proof.
  induction k as [|k IH].
  - simpl. lia.
  - rewrite shiftPos_S. cbn [SpecFloat.digits2_pos].
    rewrite Pos2Z.inj_succ, IH. lia.
Qed.

Lemma iter_xO q d : Pos.iter xO q d = shiftPos (Pos.to_nat d) q.
Proof. unfold shiftPos. now rewrite Pos2Nat.inj_iter. Qed.

Lemma iter_pos_nat (A : Type) (f : A -> A) n x :
  SpecFloat.iter_pos f n x = Nat.iter (Pos.to_nat n) f x.
Proof.
  assert (E : SpecFloat.iter_pos f n x = Pos.iter f x n).
  { revert x. induction n as [n IH|n IH|]; intro x; cbn [SpecFloat.iter_pos Pos.iter].
    - now rewrite !IH, !Pos.iter_swap.
    - now rewrite !IH.
    - reflexivity. }
  rewrite E, Pos2Nat.inj_iter. reflexivity.
Qed.

Lemma shr_1_exact n j q :
  Nat.iter n SpecFloat.shr_1
    (SpecFloat.Build_shr_record (Zpos (shiftPos (n + j) q)) false false)
  = SpecFloat.Build_shr_record (Zpos (shiftPos j q)) false false.
Proof.
  revert j. induction n as [|n IH]; intro j.
  - reflexivity.
  - cbn [Nat.iter nat_rect].
    replace (S n + j)%nat with (n + S j)%nat by lia.
    unfold Nat.iter in IH. rewrite IH. reflexivity.
Qed.

(** Rounding an integer of at most 53 bits that is written with [k]
    trailing zero bits and exponent [-k] is exact. *)
Lemma binary_round_exact s q k :
  Zpos (SpecFloat.digits2_pos q) <= 53 ->
  SpecFloat.binary_round 53 1024 s (shiftPos k q) (- Z.of_nat k)
  = SpecFloat.S754_finite s
      (shiftPos (53 - Pos.to_nat (SpecFloat.digits2_pos q)) q)
      (Zpos (SpecFloat.digits2_pos q) - 53).
Proof.
  intro D.
  set (d := SpecFloat.digits2_pos q) in *.
  assert (Dn : Z.of_nat (Pos.to_nat d) = Zpos d) by apply positive_nat_Z.
  unfold SpecFloat.binary_round.
  rewrite digits_shiftPos. fold d.
  replace (SpecFloat.fexp 53 1024 (Zpos d + Z.of_nat k + - Z.of_nat k)) with (Zpos d - 53)
    by (unfold SpecFloat.fexp, SpecFloat.emin; lia).
  unfold SpecFloat.shl_align.
  destruct (Zpos d - 53 - - Z.of_nat k) as [|p|p] eqn:E.
  - (* no shift at all *)
    unfold SpecFloat.binary_round_aux, SpecFloat.shr_fexp.
    cbn [SpecFloat.Zdigits2 SpecFloat.shr_record_of_loc].
    rewrite digits_shiftPos. fold d.
    replace (SpecFloat.fexp 53 1024 (Zpos d + Z.of_nat k + - Z.of_nat k) - - Z.of_nat k)
      with 0 by (unfold SpecFloat.fexp, SpecFloat.emin; lia).
    cbn [SpecFloat.shr SpecFloat.shr_m SpecFloat.loc_of_shr_record
         SpecFloat.round_nearest_even SpecFloat.Zdigits2 SpecFloat.shr_record_of_loc].
    rewrite digits_shiftPos. fold d.
    replace (SpecFloat.fexp 53 1024 (Zpos d + Z.of_nat k + - Z.of_nat k) - - Z.of_nat k)
      with 0 by (unfold SpecFloat.fexp, SpecFloat.emin; lia).
    cbn [SpecFloat.shr SpecFloat.shr_m].
    replace (- Z.of_nat k <=? 1024 - 53) with true by (symmetry; apply Z.leb_le; lia).
    f_equal; [f_equal; lia | lia].
  - (* shift to the right by p <= k *)
    unfold SpecFloat.binary_round_aux, SpecFloat.shr_fexp.
    cbn [SpecFloat.Zdigits2 SpecFloat.shr_record_of_loc].
    rewrite digits_shiftPos. fold d.
    replace (SpecFloat.fexp 53 1024 (Zpos d + Z.of_nat k + - Z.of_nat k) - - Z.of_nat k)
      with (Zpos p) by (unfold SpecFloat.fexp, SpecFloat.emin; lia).
    cbn [SpecFloat.shr].
    rewrite iter_pos_nat.
    assert (H : Nat.iter (Pos.to_nat p) SpecFloat.shr_1
                  (SpecFloat.Build_shr_record (Zpos (shiftPos k q)) false false)
                = SpecFloat.Build_shr_record
                    (Zpos (shiftPos (53 - Pos.to_nat d) q)) false false).
    { replace k with (Pos.to_nat p + (53 - Pos.to_nat d))%nat at 1 by lia.
      apply shr_1_exact. }
    rewrite !H.
    cbn [SpecFloat.shr_m SpecFloat.loc_of_shr_record SpecFloat.round_nearest_even
         SpecFloat.Zdigits2 SpecFloat.shr_record_of_loc].
    rewrite digits_shiftPos. fold d.
    replace (SpecFloat.fexp 53 1024
               (Zpos d + Z.of_nat (53 - Pos.to_nat d) + (- Z.of_nat k + Zpos p))
             - (- Z.of_nat k + Zpos p))
      with 0 by (unfold SpecFloat.fexp, SpecFloat.emin; lia).
    cbn [SpecFloat.shr SpecFloat.shr_m].
    replace (- Z.of_nat k + Zpos p <=? 1024 - 53) with true
      by (symmetry; apply Z.leb_le; lia).
    f_equal. lia.
  - (* shift to the left by p *)
    rewrite iter_xO, shiftPos_add.
    unfold SpecFloat.binary_round_aux, SpecFloat.shr_fexp.
    cbn [SpecFloat.Zdigits2 SpecFloat.shr_record_of_loc].
    rewrite digits_shiftPos. fold d.
    replace (SpecFloat.fexp 53 1024
               (Zpos d + Z.of_nat (Pos.to_nat p + k) + (Zpos d - 53)) - (Zpos d - 53))
      with 0 by (unfold SpecFloat.fexp, SpecFloat.emin; lia).
    cbn [SpecFloat.shr SpecFloat.shr_m SpecFloat.loc_of_shr_record
         SpecFloat.round_nearest_even SpecFloat.Zdigits2 SpecFloat.shr_record_of_loc].
    rewrite digits_shiftPos. fold d.
    replace (SpecFloat.fexp 53 1024
               (Zpos d + Z.of_nat (Pos.to_nat p + k) + (Zpos d - 53)) - (Zpos d - 53))
      with 0 by (unfold SpecFloat.fexp, SpecFloat.emin; lia).
    cbn [SpecFloat.shr SpecFloat.shr_m].
    replace (Zpos d - 53 <=? 1024 - 53) with true by (symmetry; apply Z.leb_le; lia).
    f_equal. f_equal. lia.
Qed.


Lemma digits2_pos_size p : SpecFloat.digits2_pos p = Pos.size p.
Proof. induction p as [p IH|p IH|]; cbn; now rewrite ?IH. Qed.

Lemma digits_safe p :
  Zpos p <= 9007199254740991 -> Zpos (SpecFloat.digits2_pos p) <= 53.
Proof.
  intro B. rewrite digits2_pos_size.
  destruct (Z_le_gt_dec (Zpos (Pos.size p)) 53) as [L|G]; [exact L|exfalso].
  pose proof (Pos.size_le p) as S.
  apply Pos2Z.pos_le_pos in S. rewrite Pos2Z.inj_pow in S.
  change (Zpos 2) with 2 in S. rewrite (Pos2Z.inj_xO p) in S.
  assert (M : 2 ^ 54 <= 2 ^ Zpos (Pos.size p)) by (apply Z.pow_le_mono_r; lia).
  change (2 ^ 54) with 18014398509481984 in M. lia.
Qed.

Lemma ofZ_pos q : Zpos q <= 9007199254740991 -> Js.ofZ (Zpos q) = canonical false q.
Proof.
  intro B. unfold Js.ofZ, SpecFloat.binary_normalize.
  exact (@binary_round_exact false q 0 (@digits_safe q B)).
Qed.

Lemma ofZ_neg q : Zpos q <= 9007199254740991 -> Js.ofZ (Zneg q) = canonical true q.
Proof.
  intro B. unfold Js.ofZ, SpecFloat.binary_normalize.
  exact (@binary_round_exact true q 0 (@digits_safe q B)).
Qed.

Lemma normalize_exact z k :
  Z.abs z <= 9007199254740991 ->
  SpecFloat.binary_normalize 53 1024 (z * 2 ^ Z.of_nat k) (- Z.of_nat k) false = Js.ofZ z.
Proof.
  intro B. destruct z as [|q|q].
  - reflexivity.
  - rewrite <- shiftPos_value. unfold SpecFloat.binary_normalize.
    rewrite binary_round_exact by (apply digits_safe; lia).
    symmetry. apply ofZ_pos. lia.
  - replace (Zneg q * 2 ^ Z.of_nat k) with (Zneg (shiftPos k q))
      by (rewrite <- Pos2Z.opp_pos, shiftPos_value; lia).
    unfold SpecFloat.binary_normalize.
    rewrite binary_round_exact by (apply digits_safe; lia).
    symmetry. apply ofZ_neg. lia.
Qed.

(** The aligned mantissa of a canonical double. *)
Lemma align_canonical q e :
  Zpos (SpecFloat.digits2_pos q) <= 53 ->
  e <= Zpos (SpecFloat.digits2_pos q) - 53 ->
  Zpos (fst (SpecFloat.shl_align
               (shiftPos (53 - Pos.to_nat (SpecFloat.digits2_pos q)) q)
               (Zpos (SpecFloat.digits2_pos q) - 53) e))
  = Zpos q * 2 ^ (- e).
Proof.
  intros D L. unfold SpecFloat.shl_align.
  set (d := SpecFloat.digits2_pos q) in *.
  assert (Dn : Z.of_nat (Pos.to_nat d) = Zpos d) by apply positive_nat_Z.
  destruct (e - (Zpos d - 53)) as [|p|p] eqn:E; cbn [fst].
  - rewrite shiftPos_value. f_equal. f_equal. lia.
  - lia.
  - rewrite iter_xO, shiftPos_add, shiftPos_value. f_equal. f_equal. lia.
Qed.

Lemma cond_Zopp_sign (z : Z) (q : positive) (s : bool) (x : Z) :
  (s = false /\ z = Zpos q \/ s = true /\ z = Zneg q) ->
  SpecFloat.cond_Zopp s (Zpos q * x) = z * x.
Proof. intros [[-> ->]|[-> ->]]; cbn [SpecFloat.cond_Zopp]; lia. Qed.

Lemma ofZ_cases z :
  Z.abs z <= 9007199254740991 ->
  z = 0 /\ Js.ofZ z = SpecFloat.S754_zero false
  \/ exists s q, (s = false /\ z = Zpos q \/ s = true /\ z = Zneg q)
                 /\ Zpos q <= 9007199254740991
                 /\ Js.ofZ z = canonical s q.
Proof.
  intro B. destruct z as [|q|q].
  - left. split; reflexivity.
  - right. exists false, q. repeat split; [left; split; reflexivity | lia | apply ofZ_pos; lia].
  - right. exists true, q. repeat split; [right; split; reflexivity | lia | apply ofZ_neg; lia].
Qed.

Lemma isSafeInteger_spec z :
  Js.isSafeInteger z = true <-> Z.abs z <= 9007199254740991.
Proof. unfold Js.isSafeInteger. apply Z.leb_le. Qed.

(** Addition and subtraction of doubles are exact on safe integers whose
    result is a safe integer. *)
Lemma add_exact a b :
  Js.isSafeInteger a = true -> Js.isSafeInteger b = true ->
  Js.isSafeInteger (a + b) = true ->
  Js.add (Js.ofZ a) (Js.ofZ b) = Js.ofZ (a + b).
Proof.
  intros A B C. apply isSafeInteger_spec in A, B, C.
  destruct (@ofZ_cases a A) as [[-> ->]|(sa & qa & Sa & Ba & Ea)];
    destruct (@ofZ_cases b B) as [[-> ->]|(sb & qb & Sb & Bb & Eb)].
  - reflexivity.
  - rewrite Z.add_0_l, Eb. reflexivity.
  - rewrite Z.add_0_r, Ea. reflexivity.
  - rewrite Ea, Eb. unfold Js.add, canonical, SpecFloat.SFadd.
    pose proof (@digits_safe qa Ba) as Da. pose proof (@digits_safe qb Bb) as Db.
    set (ez := Z.min (Zpos (SpecFloat.digits2_pos qa) - 53)
                     (Zpos (SpecFloat.digits2_pos qb) - 53)).
    assert (La : ez <= Zpos (SpecFloat.digits2_pos qa) - 53) by (unfold ez; lia).
    assert (Lb : ez <= Zpos (SpecFloat.digits2_pos qb) - 53) by (unfold ez; lia).
    rewrite (@align_canonical qa ez Da La), (@align_canonical qb ez Db Lb).
    rewrite (@cond_Zopp_sign a qa sa _ Sa), (@cond_Zopp_sign b qb sb _ Sb).
    rewrite <- Z.mul_add_distr_r.
    assert (K : exists k, ez = - Z.of_nat k).
    { exists (Z.to_nat (- ez)). unfold ez. lia. }
    destruct K as [k K]. rewrite K, Z.opp_involutive.
    apply normalize_exact. exact C.
Qed.

Lemma sub_exact a b :
  Js.isSafeInteger a = true -> Js.isSafeInteger b = true ->
  Js.isSafeInteger (a - b) = true ->
  Js.sub (Js.ofZ a) (Js.ofZ b) = Js.ofZ (a - b).
Proof.
  intros A B C. apply isSafeInteger_spec in A, B, C.
  destruct (@ofZ_cases a A) as [[-> ->]|(sa & qa & Sa & Ba & Ea)];
    destruct (@ofZ_cases b B) as [[-> ->]|(sb & qb & Sb & Bb & Eb)].
  - reflexivity.
  - rewrite Z.sub_0_l, Eb.
    destruct Sb as [[-> ->]|[-> ->]]; cbn [Z.opp];
      [rewrite (@ofZ_neg qb Bb) | rewrite (@ofZ_pos qb Bb)]; reflexivity.
  - rewrite Z.sub_0_r, Ea. reflexivity.
  - rewrite Ea, Eb. unfold Js.sub, canonical, SpecFloat.SFsub.
    pose proof (@digits_safe qa Ba) as Da. pose proof (@digits_safe qb Bb) as Db.
    set (ez := Z.min (Zpos (SpecFloat.digits2_pos qa) - 53)
                     (Zpos (SpecFloat.digits2_pos qb) - 53)).
    assert (La : ez <= Zpos (SpecFloat.digits2_pos qa) - 53) by (unfold ez; lia).
    assert (Lb : ez <= Zpos (SpecFloat.digits2_pos qb) - 53) by (unfold ez; lia).
    rewrite (@align_canonical qa ez Da La), (@align_canonical qb ez Db Lb).
    rewrite (@cond_Zopp_sign a qa sa _ Sa), (@cond_Zopp_sign b qb sb _ Sb).
    rewrite <- Z.mul_sub_distr_r.
    assert (K : exists k, ez = - Z.of_nat k).
    { exists (Z.to_nat (- ez)). unfold ez. lia. }
    destruct K as [k K]. rewrite K, Z.opp_involutive.
    apply normalize_exact. exact C.
Qed.

End Doubles.

(* ================================================================== *)
(** ** Balances *)
(* ================================================================== *)

Section BalanceOf.

Local Open Scope Z_scope.

Variable address : string.


Lemma sumZ_zero (l : list Z) : (forall x, In x l -> x = 0) -> sumZ l = 0.
Proof.
  unfold sumZ. induction l as [| x l IH]; intros H; cbn [fold_right]; [reflexivity | ].
  rewrite (H x) by (left; reflexivity).
  rewrite IH by (intros y Hy; apply H; right; exact Hy). reflexivity.
Qed.

(** The two nested loops visit the chained transactions in chain order. *)
Lemma outer_loop_chained (blocks : list Block.t) :
  forall balance,
    fold_left
      (fun balance block =>
         fold_left (Blockchain.applyTransaction address) (Block.transactions block) balance)
      blocks balance
    = fold_left (Blockchain.applyTransaction address)
                (flat_map Block.transactions blocks) balance.
Proof.
  induction blocks as [| b blocks IH]; intros balance.
  - reflexivity.
  - cbn [fold_left flat_map]. rewrite IH, fold_left_app. reflexivity.
Qed.

Lemma getBalance_chained (s : Blockchain.t) :
  Blockchain.getBalance address s
  = fold_left (Blockchain.applyTransaction address) (chained s) (Js.ofZ 0).
Proof. unfold Blockchain.getBalance, chained. apply outer_loop_chained. Qed.

(** One pass of the loop body is exact when its operands and results are
    safe integers. *)
Lemma applyTransaction_exact (z : Z) (tx : Transaction.t) (rest : list Transaction.t) :
  Js.isSafeInteger z = true ->
  exactFrom address z (tx :: rest) = true ->
  Blockchain.applyTransaction address (Js.ofZ z) tx = Js.ofZ (z + delta address tx)
  /\ Js.isSafeInteger (z + delta address tx) = true
  /\ exactFrom address (z + delta address tx) rest = true.
Proof.
  intros Hz H. cbn [exactFrom] in H.
  unfold Blockchain.applyTransaction, delta.
  destruct (String.eqb (Transaction.from tx) address),
           (String.eqb (Transaction.to tx) address);
    repeat (apply andb_prop in H; destruct H as [H ?]);
    repeat match goal with
           | X : (_ && _)%bool = true |- _ => apply andb_prop in X; destruct X
           end.
  - rewrite add_exact, sub_exact, add_exact by assumption.
    replace (Transaction.amount tx - (Transaction.amount tx + Transaction.fee tx))
      with (z - (Transaction.amount tx + Transaction.fee tx) + Transaction.amount tx - z)
      by lia.
    replace (z + (z - (Transaction.amount tx + Transaction.fee tx)
                  + Transaction.amount tx - z))
      with (z - (Transaction.amount tx + Transaction.fee tx) + Transaction.amount tx)
      by lia.
    repeat split; assumption.
  - rewrite add_exact, sub_exact by assumption.
    replace (z + (0 - (Transaction.amount tx + Transaction.fee tx)))
      with (z - (Transaction.amount tx + Transaction.fee tx)) by lia.
    repeat split; assumption.
  - rewrite add_exact by assumption.
    replace (z + (Transaction.amount tx - 0)) with (z + Transaction.amount tx) by lia.
    repeat split; assumption.
  - replace (z + (0 - 0)) with z by lia. repeat split; assumption.
Qed.

(** The loop over any list of transactions is exact under [exactFrom]. *)
Lemma inner_loop_exact (txs : list Transaction.t) :
  forall z,
    Js.isSafeInteger z = true ->
    exactFrom address z txs = true ->
    fold_left (Blockchain.applyTransaction address) txs (Js.ofZ z)
    = Js.ofZ (z + sumZ (map (delta address) txs)).
Proof.
  induction txs as [| tx txs IH]; intros z Hz H.
  - cbn. f_equal. lia.
  - destruct (@applyTransaction_exact z tx txs Hz H) as (E & Hz' & H').
    cbn [fold_left map]. rewrite E, (IH _ Hz' H').
    unfold sumZ. cbn [fold_right]. f_equal. lia.
Qed.


Lemma getBalance_ledgerSum (s : Blockchain.t) :
  exactFor address s = true ->
  Blockchain.getBalance address s = Js.ofZ (ledgerSum address s).
Proof.
  intros H. rewrite getBalance_chained.
  rewrite (@inner_loop_exact (chained s) 0 eq_refl H). reflexivity.
Qed.


End BalanceOf.

Section Balances.

Local Open Scope Z_scope.






End Balances.

(* ================================================================== *)
(** ** Message dispatch *)
(* ================================================================== *)

Section Dispatch.

Local Open Scope string_scope.

Lemma handleMessage_newBlock (b : Block.t) (time : Z) (sender : option string)
  (peerId : string) (w : world) :
  Node.handleMessage (NetworkMessage.mk "NEW_BLOCK" (DataBlock b) time sender) peerId w
  = (Ok tt,
     mkWorld (blockchain w) (node w) (miner w) (loops w)
       (console w
        ++ ["📥 Received new block #" ++ Js.numberToString (Block.index b);
            "✅ Block #" ++ Js.numberToString (Block.index b)
            ++ " validated and added to chain"])
       (calls w)).
Proof.
  unfold Node.handleMessage, Node.handleNewBlock, Node.blockIndex, bind, ret, log.
  cbn. rewrite <- app_assoc. reflexivity.
Qed.

Lemma handleMessage_newTransaction (tx : Transaction.t) (time : Z) (sender : option string)
  (peerId : string) (w : world) :
  Node.handleMessage (NetworkMessage.mk "NEW_TRANSACTION" (DataTransaction tx) time sender)
    peerId w
  = (Ok tt,
     mkWorld (snd (Blockchain.addTransaction tx (blockchain w)))
       (node w) (miner w) (loops w)
       (console w
        ++ ["📥 Received new transaction: " ++ Transaction.from tx ++ " → "
            ++ Transaction.to tx])
       (calls w ++ [AddTransactionCall (DataTransaction tx)])).
Proof.
  unfold Node.handleMessage, Node.handleNewTransaction, Node.transactionEnds,
    Node.callAddTransaction, bind, ret, log, emit, setBlockchain.
  cbn. destruct (Blockchain.addTransaction tx (blockchain w)). reflexivity.
Qed.

Lemma handleMessage_unknown (type : string) (d : Data) (time : Z) (sender : option string)
  (peerId : string) (w : world) :
  type <> "NEW_BLOCK" -> type <> "NEW_TRANSACTION" -> type <> "BLOCK_REQUEST" ->
  type <> "PEER_DISCOVERY" -> type <> "PING" ->
  Node.handleMessage (NetworkMessage.mk type d time sender) peerId w
  = (Ok tt,
     mkWorld (blockchain w) (node w) (miner w) (loops w)
       (console w ++ ["❓ Unknown message type: " ++ type]) (calls w)).
Proof.
  intros H1 H2 H3 H4 H5. unfold Node.handleMessage. cbn [NetworkMessage.type].
  apply String.eqb_neq in H1, H2, H3, H4, H5.
  rewrite H1, H2, H3, H4, H5. reflexivity.
Qed.

Lemma handleMessage_newBlock_any (d : Data) (time : Z) (sender : option string)
  (peerId : string) (w : world) :
  let r := Node.handleMessage (NetworkMessage.mk "NEW_BLOCK" d time sender) peerId w in
  blockchain (snd r) = blockchain w
  /\ node (snd r) = node w
  /\ miner (snd r) = miner w
  /\ loops (snd r) = loops w
  /\ calls (snd r) = calls w
  /\ (fst r = TypeError <-> d = DataUndefined \/ d = DataNull)
  /\ (fst r = TypeError -> snd r = w)
  /\ (fst r = Ok tt -> List.length (console (snd r)) = (2 + List.length (console w))%nat).
Proof.
  cbv zeta. unfold Node.handleMessage, Node.handleNewBlock, Node.blockIndex, bind, ret,
    raise, log.
  destruct d; cbn; rewrite ?length_app; cbn;
    repeat split; intros; try discriminate; try reflexivity; try lia;
    try (left; reflexivity); try (right; reflexivity);
    match goal with
    | H : _ \/ _ |- _ => destruct H; discriminate
    end.
Qed.

Lemma handleMessage_newTransaction_any (d : Data) (time : Z) (sender : option string)
  (peerId : string) (w : world) :
  d <> DataUndefined -> d <> DataNull ->
  let r := Node.handleMessage (NetworkMessage.mk "NEW_TRANSACTION" d time sender) peerId w in
  fst r = Ok tt
  /\ calls (snd r) = (calls w ++ [AddTransactionCall d])%list
  /\ blockchain (snd r)
     = match d with
       | DataTransaction tx => snd (Blockchain.addTransaction tx (blockchain w))
       | _ => blockchain w
       end
  /\ Blockchain.chain (blockchain (snd r)) = Blockchain.chain (blockchain w)
  /\ node (snd r) = node w
  /\ miner (snd r) = miner w
  /\ loops (snd r) = loops w.
Proof.
  intros U N. cbv zeta.
  unfold Node.handleMessage, Node.handleNewTransaction, Node.transactionEnds,
    Node.callAddTransaction, bind, ret, raise, log, emit, setBlockchain.
  destruct d as [b | tx | t | | | n | b]; try contradiction; cbn;
    try (unfold Blockchain.addTransaction;
         destruct (Blockchain.isValidTransaction tx); cbn);
    repeat split.
Qed.

Lemma handleMessage_newTransaction_empty (d : Data) (time : Z) (sender : option string)
  (peerId : string) (w : world) :
  d = DataUndefined \/ d = DataNull ->
  Node.handleMessage (NetworkMessage.mk "NEW_TRANSACTION" d time sender) peerId w
  = (TypeError, w).
Proof. intros [-> | ->]; reflexivity. Qed.

(** C6, as the code has it: dispatch looks at the type of the message
    alone (the timestamp and the sender of the message never matter).  A
    NEW_BLOCK message carrying a block adds two lines to the console and
    changes nothing else: the block is neither validated nor appended to
    the chain; whatever its payload, a NEW_BLOCK message changes neither
    the ledger nor the node, and it raises exactly when the payload is
    undefined or null.  A NEW_TRANSACTION message makes exactly one call
    of [addTransaction], with the payload of the message, and the ledger
    is the one that call leaves (with the transaction appended to the pool
    when the payload is a valid transaction, unchanged otherwise); only on
    a payload that is undefined or null does the handler raise before the
    call, leaving everything as it was.  A message of a type outside the
    five recognised ones adds one line to the console, raises nothing and
    changes neither the ledger nor the node (nor anything else). *)
Theorem handleMessage_spec :
  (forall b time sender peerId w,
     Node.handleMessage (NetworkMessage.mk "NEW_BLOCK" (DataBlock b) time sender) peerId w
     = (Ok tt,
        mkWorld (blockchain w) (node w) (miner w) (loops w)
          (console w
           ++ ["📥 Received new block #" ++ Js.numberToString (Block.index b);
               "✅ Block #" ++ Js.numberToString (Block.index b)
               ++ " validated and added to chain"])
          (calls w)))
  /\ (forall d time sender peerId w,
        let r := Node.handleMessage (NetworkMessage.mk "NEW_BLOCK" d time sender)
                   peerId w in
        blockchain (snd r) = blockchain w
        /\ node (snd r) = node w
        /\ miner (snd r) = miner w
        /\ loops (snd r) = loops w
        /\ calls (snd r) = calls w
        /\ (fst r = TypeError <-> d = DataUndefined \/ d = DataNull)
        /\ (fst r = TypeError -> snd r = w)
        /\ (fst r = Ok tt -> List.length (console (snd r)) = (2 + List.length (console w))%nat))
  /\ (forall tx time sender peerId w,
        Node.handleMessage
          (NetworkMessage.mk "NEW_TRANSACTION" (DataTransaction tx) time sender) peerId w
        = (Ok tt,
           mkWorld (snd (Blockchain.addTransaction tx (blockchain w)))
             (node w) (miner w) (loops w)
             (console w
              ++ ["📥 Received new transaction: " ++ Transaction.from tx ++ " → "
                  ++ Transaction.to tx])
             (calls w ++ [AddTransactionCall (DataTransaction tx)])))
  /\ (forall d time sender peerId w,
        d <> DataUndefined -> d <> DataNull ->
        let r := Node.handleMessage (NetworkMessage.mk "NEW_TRANSACTION" d time sender)
                   peerId w in
        fst r = Ok tt
        /\ calls (snd r) = (calls w ++ [AddTransactionCall d])%list
        /\ blockchain (snd r)
           = match d with
             | DataTransaction tx => snd (Blockchain.addTransaction tx (blockchain w))
             | _ => blockchain w
             end
        /\ Blockchain.chain (blockchain (snd r)) = Blockchain.chain (blockchain w)
        /\ node (snd r) = node w
        /\ miner (snd r) = miner w
        /\ loops (snd r) = loops w)
  /\ (forall d time sender peerId w,
        d = DataUndefined \/ d = DataNull ->
        Node.handleMessage (NetworkMessage.mk "NEW_TRANSACTION" d time sender) peerId w
        = (TypeError, w))
  /\ (forall type d time sender peerId w,
        type <> "NEW_BLOCK" -> type <> "NEW_TRANSACTION" -> type <> "BLOCK_REQUEST" ->
        type <> "PEER_DISCOVERY" -> type <> "PING" ->
        Node.handleMessage (NetworkMessage.mk type d time sender) peerId w
        = (Ok tt,
           mkWorld (blockchain w) (node w) (miner w) (loops w)
             (console w ++ ["❓ Unknown message type: " ++ type]) (calls w))).
Proof.
  split; [exact handleMessage_newBlock | ].
  split; [exact handleMessage_newBlock_any | ].
  split; [exact handleMessage_newTransaction | ].
  split; [exact handleMessage_newTransaction_any | ].
  split; [exact handleMessage_newTransaction_empty | exact handleMessage_unknown].
Qed.

(** The theorem applied: a message of the unhandled type PONG, the
    transfer of the scenario arriving as NEW_TRANSACTION, and a
    NEW_TRANSACTION message whose payload is a block hash, for which
    [addTransaction] is called once and refuses. *)
Lemma handleMessage_spec_witness :
  Node.handleMessage (NetworkMessage.mk "PONG" DataUndefined 1700000000005 None) "node_b"
    (boot 1700000000000 "node_a")
  = (Ok tt,
     mkWorld freshLedger (Node.constructor "node_a") (Miner.constructor "miner1") []
       ["❓ Unknown message type: PONG"] [])
  /\ blockchain
       (snd (Node.handleMessage
               (NetworkMessage.mk "NEW_TRANSACTION" (DataTransaction aliceToBob)
                  1700000000001 (Some "node_b"))
               "node_b" (boot 1700000000000 "node_a")))
     = scenarioLedger
  /\ calls
       (snd (Node.handleMessage
               (NetworkMessage.mk "NEW_TRANSACTION" (DataString "00ab")
                  1700000000001 (Some "node_b"))
               "node_b" (boot 1700000000000 "node_a")))
     = [AddTransactionCall (DataString "00ab")].
Proof.
  destruct handleMessage_spec as (_ & _ & Htx & Hany & _ & Hunknown).
  split; [ | split].
  - apply Hunknown; discriminate.
  - rewrite Htx. reflexivity.
  - exact (proj1 (proj2 (Hany (DataString "00ab") 1700000000001%Z (Some "node_b")
                           "node_b" (boot 1700000000000 "node_a")
                           ltac:(discriminate) ltac:(discriminate)))).
Defined.

Lemma peerBlock_mined :
  Blockchain.mineBlock 2 "miner1" 1700000012799 1700000012799 freshLedger
  = Ok (peerBlock, Blockchain.mk (Blockchain.chain freshLedger ++ [peerBlock]) [] 4).
Proof. vm_compute. reflexivity. Qed.

(** The claim as worded fails: a node that receives the announcement of a
    valid successor of its tip (a block a peer mined on the same genesis
    block, so that the extended chain validates) logs it and leaves its
    chain as it was.  And not every NEW_TRANSACTION message leads to a call
    of [addTransaction]: with an undefined payload the handler raises when
    it reads the sender for its log line, and nothing is called. *)
Lemma handleMessage_does_not_admit_block :
  Blockchain.validateChain
    (Blockchain.mk (Blockchain.chain freshLedger ++ [peerBlock]) [] 4) = true
  /\ fst (Node.handleMessage peerAnnouncement "node_b" (boot 1700000000000 "node_a"))
     = Ok tt
  /\ Blockchain.chain
       (blockchain
          (snd (Node.handleMessage peerAnnouncement "node_b"
                  (boot 1700000000000 "node_a"))))
     = [Blockchain.createGenesisBlock 1700000000000]
  /\ console
       (snd (Node.handleMessage peerAnnouncement "node_b" (boot 1700000000000 "node_a")))
     = ["📥 Received new block #1"; "✅ Block #1 validated and added to chain"]
  /\ Node.handleMessage
       (NetworkMessage.mk "NEW_TRANSACTION" DataUndefined 1700000012800 (Some "node_b"))
       "node_b" (boot 1700000000000 "node_a")
     = (TypeError, boot 1700000000000 "node_a")
  /\ calls (boot 1700000000000 "node_a") = [].
Proof.
  split.
  - apply mined_valid.
    apply (@Mined_mine 2 "miner1" 1700000012799 1700000012799 freshLedger _ peerBlock).
    + apply Mined_new.
    + exact peerBlock_mined.
  - unfold peerAnnouncement. rewrite handleMessage_newBlock.
    split; [reflexivity | ]. split; [reflexivity | ]. split; [reflexivity | ].
    split; reflexivity.
Qed.

End Dispatch.

(* ================================================================== *)
(** ** The mining loop *)
(* ================================================================== *)

(** One iteration, for a fixed bound on the search, fixed clock readings
    and a fixed world at the test of the loop. *)
Section Iteration.

Variables (fuel : nat) (clock : Z * Z) (w : world).

Let address : string := MinerState.minerAddress (miner w).

(** The iteration touches neither the miner object nor the activations. *)
Lemma iteration_frame :
  miner (snd (Miner.iteration fuel clock w)) = miner w
  /\ loops (snd (Miner.iteration fuel clock w)) = loops w.
Proof.
  unfold Miner.iteration.
  destruct (MinerState.isMining (miner w)); [ | split; reflexivity].
  destruct (0 <? _); [ | split; reflexivity].
  cbn [emit snd blockchain miner].
  destruct (Blockchain.mineBlock _ _ _ _ _) as [[nb b] | | ]; split; reflexivity.
Qed.

(** The flag is down at the test of the loop: the activation returns and
    nothing is called or changed. *)
Lemma iteration_stopped :
  MinerState.isMining (miner w) = false ->
  Miner.iteration fuel clock w = (Exited, w).
Proof. intros H. unfold Miner.iteration. rewrite H. reflexivity. Qed.

(** The flag is up and the pool is empty: the activation only sleeps. *)
Lemma iteration_idle :
  MinerState.isMining (miner w) = true ->
  Blockchain.pendingTransactions (blockchain w) = [] ->
  Miner.iteration fuel clock w
  = (Sleeping 5000,
     mkWorld (blockchain w) (node w) (miner w) (loops w) (console w)
             (calls w ++ [SleepCall 5000])).
Proof.
  intros H P. unfold Miner.iteration, Blockchain.getPendingTransactions.
  rewrite H, P. reflexivity.
Qed.

(** The flag is up and the pool is not empty: [mineBlock] is called for
    the miner's address, and the block it returns is handed to
    [broadcastBlock] next. *)
Lemma iteration_mines (newBlock : Block.t) (b : Blockchain.t) :
  MinerState.isMining (miner w) = true ->
  Blockchain.pendingTransactions (blockchain w) <> [] ->
  Blockchain.mineBlock fuel address (fst clock) (snd clock) (blockchain w)
  = Ok (newBlock, b) ->
  Miner.iteration fuel clock w
  = (Broadcasting newBlock,
     mkWorld b (node w) (miner w) (loops w) (console w)
             (calls w ++ [MineBlockCall address; BroadcastBlockCall newBlock])).
Proof.
  intros H P M. unfold Miner.iteration, Blockchain.getPendingTransactions.
  rewrite H. destruct (Blockchain.pendingTransactions (blockchain w)) as [| tx l] eqn:E;
    [contradiction | ].
  cbn [List.length Nat.ltb Nat.leb emit snd blockchain miner].
  fold address. rewrite M. cbn. rewrite <- app_assoc. reflexivity.
Qed.

(** [mineBlock] raises: the loop catches, sleeps longer and goes on. *)
Lemma iteration_recovers :
  MinerState.isMining (miner w) = true ->
  Blockchain.pendingTransactions (blockchain w) <> [] ->
  Blockchain.mineBlock fuel address (fst clock) (snd clock) (blockchain w) = TypeError ->
  Miner.iteration fuel clock w
  = (Sleeping 10000,
     mkWorld (blockchain w) (node w) (miner w) (loops w) (console w)
             (calls w ++ [MineBlockCall address; SleepCall 10000])).
Proof.
  intros H P M. unfold Miner.iteration, Blockchain.getPendingTransactions.
  rewrite H. destruct (Blockchain.pendingTransactions (blockchain w)) as [| tx l] eqn:E;
    [contradiction | ].
  cbn [List.length Nat.ltb Nat.leb emit snd blockchain miner].
  fold address. rewrite M. cbn. rewrite <- app_assoc. reflexivity.
Qed.

End Iteration.

Section MiningLoop.

Lemma start_sets_flag (fuel : nat) (clock : Z * Z) (w : world) :
  Miner.isMiningActive (miner (Miner.start fuel clock w)) = true.
Proof.
  unfold Miner.start, Miner.miningLoop.
  destruct (iteration_frame fuel clock (Miner.setIsMining true w)) as [H _].
  destruct (Miner.iteration fuel clock (Miner.setIsMining true w)) as [p w'].
  cbn in H. cbn. rewrite H. reflexivity.
Qed.

Lemma resume_sleeping (k fuel : nat) (clock : Z * Z) (w : world) (ms : Z) :
  nth_error (loops w) k = Some (Sleeping ms) ->
  Miner.resume k fuel clock w
  = setLoops (Miner.replace k (fst (Miner.iteration fuel clock w)) (loops w))
             (snd (Miner.iteration fuel clock w)).
Proof.
  intros H. unfold Miner.resume. rewrite H.
  destruct (iteration_frame fuel clock w) as [_ L].
  destruct (Miner.iteration fuel clock w) as [p w']. cbn in *. rewrite L. reflexivity.
Qed.

(** Dispatch leaves the miner, the loops and the miner's calls alone. *)
Lemma handleMessage_frame (m : NetworkMessage.t) (peerId : string) (w : world) :
  miner (snd (Node.handleMessage m peerId w)) = miner w
  /\ loops (snd (Node.handleMessage m peerId w)) = loops w
  /\ filter minerCall (calls (snd (Node.handleMessage m peerId w)))
     = filter minerCall (calls w).
Proof.
  destruct m as [type d time sender]. unfold Node.handleMessage.
  cbn [NetworkMessage.type NetworkMessage.data].
  repeat match goal with
         | |- context [if String.eqb type ?x then _ else _] =>
             destruct (String.eqb type x)
         end;
    unfold Node.handleNewBlock, Node.handleNewTransaction, Node.handleBlockRequest,
      Node.handlePeerDiscovery, Node.handlePing, Node.blockIndex, Node.transactionEnds,
      Node.callAddTransaction, bind, ret, raise, log, emit, setBlockchain;
    destruct d; cbn;
    try (destruct (Blockchain.addTransaction _ _); cbn);
    rewrite ?filter_app; cbn; rewrite ?app_nil_r; repeat split; reflexivity.
Qed.

Lemma perform_quiet (a : step) (w : world) :
  isStart a = false ->
  MinerState.isMining (miner w) = false ->
  MinerState.isMining (miner (perform a w)) = false
  /\ filter minerCall (calls (perform a w)) = filter minerCall (calls w).
Proof.
  intros Ha Hw. destruct a as [fuel clock | | tx | m peer | k fuel clock];
    [discriminate | | | | ]; cbn [perform].
  - split; reflexivity.
  - split; [exact Hw | reflexivity].
  - destruct (handleMessage_frame m peer w) as (Hm & _ & Hc).
    rewrite Hm, Hc. split; [exact Hw | reflexivity].
  - unfold Miner.resume.
    destruct (nth_error (loops w) k) as [[nb | ms | | ] | ]; try (split; [exact Hw | reflexivity]).
    + cbn. rewrite filter_app. cbn. rewrite app_nil_r. split; [exact Hw | reflexivity].
    + rewrite (@iteration_stopped fuel clock w Hw). split; [exact Hw | reflexivity].
Qed.

(** As long as nobody calls [start], a stopped miner stays stopped and
    neither [mineBlock] nor [broadcastBlock] is called, whatever else
    happens: transactions arrive, messages are handled, sleeping loops are
    resumed. *)
Lemma run_quiet (steps : list step) :
  forall w,
    forallb (fun a => negb (isStart a)) steps = true ->
    MinerState.isMining (miner w) = false ->
    MinerState.isMining (miner (run steps w)) = false
    /\ filter minerCall (calls (run steps w)) = filter minerCall (calls w).
Proof.
  induction steps as [| a steps IH]; intros w Hs Hw; [split; [exact Hw | reflexivity] | ].
  cbn [forallb] in Hs. apply andb_true_iff in Hs. destruct Hs as [Ha Hs].
  apply negb_true_iff in Ha. cbn [run].
  destruct (hung w); [split; [exact Hw | reflexivity] | ].
  destruct (perform_quiet a w Ha Hw) as [Hm Hc].
  destruct (IH (perform a w) Hs Hm) as [Hm' Hc'].
  split; [exact Hm' | rewrite Hc', Hc; reflexivity].
Qed.

(** C8: the miner has the two states of its flag: stopped after
    construction, running after [start], stopped after [stop] (which
    touches nothing but the flag).  The loop reads the flag at the test
    that opens each iteration: with the flag down the activation returns
    and calls nothing; with the flag up and an empty pool it only sleeps
    5000 ms; with the flag up and a non-empty pool it calls [mineBlock]
    for the miner's address and then [broadcastBlock] on the block that
    call returned.  A loop that wakes from its sleep runs that same test
    again, and returns if [stop] came in between.  While the miner stays
    stopped no sequence of other events leads to a call of [mineBlock] or
    [broadcastBlock]. *)
Theorem miner_state_machine :
  (forall address, Miner.isMiningActive (Miner.constructor address) = false)
  /\ (forall fuel clock w, Miner.isMiningActive (miner (Miner.start fuel clock w)) = true)
  /\ (forall w, Miner.isMiningActive (miner (Miner.stop w)) = false
                /\ blockchain (Miner.stop w) = blockchain w
                /\ loops (Miner.stop w) = loops w
                /\ calls (Miner.stop w) = calls w)
  /\ (forall fuel clock w,
        MinerState.isMining (miner w) = false ->
        Miner.iteration fuel clock w = (Exited, w))
  /\ (forall fuel clock w,
        MinerState.isMining (miner w) = true ->
        Blockchain.pendingTransactions (blockchain w) = [] ->
        Miner.iteration fuel clock w
        = (Sleeping 5000,
           mkWorld (blockchain w) (node w) (miner w) (loops w) (console w)
                   (calls w ++ [SleepCall 5000])))
  /\ (forall fuel clock w newBlock b,
        MinerState.isMining (miner w) = true ->
        Blockchain.pendingTransactions (blockchain w) <> [] ->
        Blockchain.mineBlock fuel (MinerState.minerAddress (miner w))
          (fst clock) (snd clock) (blockchain w) = Ok (newBlock, b) ->
        Miner.iteration fuel clock w
        = (Broadcasting newBlock,
           mkWorld b (node w) (miner w) (loops w) (console w)
                   (calls w ++ [MineBlockCall (MinerState.minerAddress (miner w));
                                BroadcastBlockCall newBlock])))
  /\ (forall k fuel clock w ms,
        nth_error (loops w) k = Some (Sleeping ms) ->
        Miner.resume k fuel clock w
        = setLoops (Miner.replace k (fst (Miner.iteration fuel clock w)) (loops w))
                   (snd (Miner.iteration fuel clock w)))
  /\ (forall k fuel clock w ms,
        nth_error (loops w) k = Some (Sleeping ms) ->
        MinerState.isMining (miner w) = false ->
        Miner.resume k fuel clock w = setLoops (Miner.replace k Exited (loops w)) w)
  /\ (forall steps w,
        forallb (fun a => negb (isStart a)) steps = true ->
        MinerState.isMining (miner w) = false ->
        MinerState.isMining (miner (run steps w)) = false
        /\ filter minerCall (calls (run steps w)) = filter minerCall (calls w)).
Proof.
  split; [reflexivity | ].
  split; [exact start_sets_flag | ].
  split; [intros w; repeat split | ].
  split; [exact iteration_stopped | ].
  split; [exact iteration_idle | ].
  split; [exact iteration_mines | ].
  split; [exact resume_sleeping | ].
  split; [ | exact run_quiet].
  intros k fuel clock w ms Hk Hw.
  rewrite (@resume_sleeping k fuel clock w ms Hk), (@iteration_stopped fuel clock w Hw).
  reflexivity.
Qed.

(** The theorem applied to the run: [start] mines and announces the
    scenario block; after [stop] the resumed loop sleeps, wakes, finds the
    flag down and returns although a transaction is pending. *)
Lemma miner_state_machine_witness :
  calls startedWorld = [MineBlockCall "miner1"; BroadcastBlockCall minedBlock]
  /\ loops startedWorld = [Broadcasting minedBlock]
  /\ Miner.isMiningActive (miner startedWorld) = true
  /\ MinerState.isMining (miner (run laterSteps (Miner.stop startedWorld))) = false
  /\ filter minerCall (calls (run laterSteps (Miner.stop startedWorld)))
     = [MineBlockCall "miner1"; BroadcastBlockCall minedBlock]
  /\ loops (run laterSteps (Miner.stop startedWorld)) = [Exited]
  /\ Blockchain.pendingTransactions (blockchain (run laterSteps (Miner.stop startedWorld)))
     = [bobToCarol].
Proof.
  destruct miner_state_machine as (_ & _ & _ & _ & _ & _ & _ & _ & Hquiet).
  destruct (Hquiet laterSteps (Miner.stop startedWorld)) as [Hflag Hcalls];
    [reflexivity | reflexivity | ].
  split; [vm_compute; reflexivity | ].
  split; [vm_compute; reflexivity | ].
  split; [vm_compute; reflexivity | ].
  split; [exact Hflag | ].
  split; [rewrite Hcalls; vm_compute; reflexivity | ].
  split; vm_compute; reflexivity.
Defined.

End MiningLoop.

(* ================================================================== *)
(** ** Invariants of a mined ledger *)
(* ================================================================== *)

Section LedgerInvariants.

Local Open Scope Z_scope.

Lemma mined_difficulty (s : Blockchain.t) : Mined s -> Blockchain.difficulty s = 4%nat.
Proof.
  induction 1 as [now | tx s M IH | fuel addr tR tB s s' nb M IH Hm].
  - reflexivity.
  - unfold Blockchain.addTransaction.
    destruct (Blockchain.isValidTransaction tx); exact IH.
  - apply mineBlock_inv in Hm. destruct Hm as (tip & k & _ & _ & _ & ->). exact IH.
Qed.

(** A property of blocks at their positions holds throughout a mined
    ledger once it holds for every genesis block and for every block that
    a search seals on top of a mined ledger. *)
Lemma mined_blocks_ind (P : nat -> Block.t -> Prop) :
  (forall now, P 0%nat (Blockchain.createGenesisBlock now)) ->
  (forall s tip addr tR tB k,
     Mined s ->
     Blockchain.getLatestBlock s = Some tip ->
     let solved := Block.setNonce (Z.of_nat k) (candidate s tip addr tR tB) in
     Blockchain.meetsTarget (Blockchain.difficulty s) (Blockchain.calculateHash solved) = true ->
     P (List.length (Blockchain.chain s))
       (Block.setHash (Blockchain.calculateHash solved) solved)) ->
  forall s, Mined s ->
  forall i b, nth_error (Blockchain.chain s) i = Some b -> P i b.
Proof.
  intros Hg Hm s M.
  induction M as [now | tx s M IH | fuel addr tR tB s s' nb M IH Hmine]; intros i b Hb.
  - destruct i as [| [| i]]; cbn in Hb; try discriminate.
    injection Hb as <-. apply Hg.
  - apply IH. revert Hb. unfold Blockchain.addTransaction.
    destruct (Blockchain.isValidTransaction tx); exact (fun H => H).
  - apply mineBlock_inv in Hmine.
    destruct Hmine as (tip & k & Htip & Hnb & Hmeets & ->).
    cbn [Blockchain.chain] in Hb.
    destruct (Nat.lt_ge_cases i (List.length (Blockchain.chain s))) as [Hlt | Hge].
    + rewrite nth_error_app1 in Hb by exact Hlt. apply IH. exact Hb.
    + rewrite nth_error_app2 in Hb by exact Hge.
      destruct (i - List.length (Blockchain.chain s))%nat as [| [| j]] eqn:E;
        cbn in Hb; try discriminate.
      injection Hb as <-. replace i with (List.length (Blockchain.chain s)) by lia.
      rewrite Hnb. apply Hm; [exact M | exact Htip | ].
      rewrite Hnb in Hmeets. exact Hmeets.
Qed.

(** X1: in a ledger that was only mined, the chain is never empty and the
    index stored in each block is its position in the chain. *)
Theorem mined_index_is_position (s : Blockchain.t) :
  Mined s ->
  (1 <= List.length (Blockchain.chain s))%nat
  /\ forall i b, nth_error (Blockchain.chain s) i = Some b -> Block.index b = Z.of_nat i.
Proof.
  intros M. split.
  - destruct (mined_has_tip M) as (prefix & tip & E). rewrite E, length_app. cbn. lia.
  - apply (@mined_blocks_ind (fun i b => Block.index b = Z.of_nat i)); [ | | exact M].
    + intros now. reflexivity.
    + intros. reflexivity.
Qed.

Lemma mined_index_is_position_witness :
  (1 <= List.length (Blockchain.chain minedLedger))%nat
  /\ Block.index minedBlock = 1.
Proof.
  destruct (mined_index_is_position minedLedger_mined) as [L I].
  split; [exact L | ].
  apply (I 1%nat minedBlock). reflexivity.
Defined.

(** X2: in a ledger that was only mined, the difficulty is 4 and every
    block, the genesis block included, stores its own content hash, 64
    characters of lower-case hexadecimal; from index 1 on the first four of
    them are the digit zero, and the block at index 0 has previousHash 0,
    nonce 0 and no transactions. *)
Theorem mined_blocks_sealed (s : Blockchain.t) :
  Mined s ->
  Blockchain.difficulty s = 4%nat
  /\ forall i b,
       nth_error (Blockchain.chain s) i = Some b ->
       Block.hash b = Blockchain.calculateHash b
       /\ String.length (Block.hash b) = 64%nat
       /\ allChars lowerHexChar (Block.hash b) = true
       /\ ((1 <= i)%nat ->
           forall j, (j < 4)%nat -> String.get j (Block.hash b) = Some "0"%char)
       /\ (i = 0%nat ->
           Block.previousHash b = "0"%string
           /\ Block.nonce b = 0
           /\ Block.transactions b = []).
Proof.
  intros M. split; [apply mined_difficulty; exact M | ].
  apply (@mined_blocks_ind
           (fun i b =>
              Block.hash b = Blockchain.calculateHash b
              /\ String.length (Block.hash b) = 64%nat
              /\ allChars lowerHexChar (Block.hash b) = true
              /\ ((1 <= i)%nat ->
                  forall j, (j < 4)%nat -> String.get j (Block.hash b) = Some "0"%char)
              /\ (i = 0%nat ->
                  Block.previousHash b = "0"%string
                  /\ Block.nonce b = 0
                  /\ Block.transactions b = []))); [ | | exact M].
  - intros now.
    destruct (sha256_format (Blockchain.blockString (Block.mk 0 "0" now [] 0 ""))) as [L X].
    split; [reflexivity | ]. split; [exact L | ]. split; [exact X | ].
    split; [intros H; lia | intros _; repeat split].
  - intros s0 tip addr tR tB k M0 Htip solved Hmeets.
    destruct (sha256_format (Blockchain.blockString solved)) as [L X].
    split; [reflexivity | ]. split; [exact L | ]. split; [exact X | ].
    split.
    + intros _. apply meetsTarget_chars.
      rewrite (mined_difficulty M0) in Hmeets. exact Hmeets.
    + intros H0. destruct (mined_has_tip M0) as (prefix & t & E).
      rewrite E, length_app in H0. cbn in H0. lia.
Qed.

Lemma mined_blocks_sealed_witness :
  Blockchain.difficulty minedLedger = 4%nat
  /\ Block.hash minedBlock = Blockchain.calculateHash minedBlock
  /\ String.get 3 (Block.hash minedBlock) = Some "0"%char.
Proof.
  destruct (mined_blocks_sealed minedLedger_mined) as [D B].
  destruct (B 1%nat minedBlock eq_refl) as (H & _ & _ & Z4 & _).
  split; [exact D | ]. split; [exact H | ].
  apply Z4; lia.
Defined.

End LedgerInvariants.

(* ================================================================== *)
(** ** Sequences of ledger calls *)
(* ================================================================== *)

Section LedgerCalls.

Local Open Scope Z_scope.

Lemma addTransaction_frame (tx : Transaction.t) (s : Blockchain.t) :
  Blockchain.chain (snd (Blockchain.addTransaction tx s)) = Blockchain.chain s
  /\ Blockchain.difficulty (snd (Blockchain.addTransaction tx s)) = Blockchain.difficulty s.
Proof.
  unfold Blockchain.addTransaction.
  destruct (Blockchain.isValidTransaction tx); split; reflexivity.
Qed.

(** X3: however a caller interleaves [addTransaction] and [mineBlock], the
    chain only grows at its end: when all calls return, the chain before is
    a prefix of the chain after, one block was appended per [mineBlock]
    call, the difficulty is unchanged, and a ledger that was only mined
    still is. *)
Theorem replay_append_only (l : list ledgerCall) :
  forall s s',
    replay l s = Ok s' ->
    (exists suffix,
       Blockchain.chain s' = Blockchain.chain s ++ suffix
       /\ List.length suffix = List.length (filter isMine l))
    /\ Blockchain.difficulty s' = Blockchain.difficulty s
    /\ (Mined s -> Mined s').
Proof.
  induction l as [| c l IH]; intros s s' H.
  - injection H as <-. split; [exists []; rewrite app_nil_r; split; reflexivity | ].
    split; [reflexivity | exact (fun M => M)].
  - destruct c as [tx | fuel addr tR tB]; cbn [replay] in H.
    + apply IH in H. destruct H as ((suffix & Hc & Hl) & Hd & HM).
      destruct (addTransaction_frame tx s) as [Ec Ed].
      split; [exists suffix; rewrite Hc, Ec; split; [reflexivity | exact Hl] | ].
      split; [rewrite Hd; exact Ed | ].
      intros M. apply HM. apply Mined_add. exact M.
    + destruct (Blockchain.mineBlock fuel addr tR tB s) as [[nb s1] | | ] eqn:E;
        try discriminate.
      apply IH in H. destruct H as ((suffix & Hc & Hl) & Hd & HM).
      pose proof E as E'. apply mineBlock_inv in E'.
      destruct E' as (tip & k & _ & _ & _ & Hs1).
      split.
      * exists (nb :: suffix). rewrite Hc, Hs1. cbn [Blockchain.chain].
        rewrite <- app_assoc. split; [reflexivity | ]. cbn. rewrite Hl. reflexivity.
      * split; [rewrite Hd, Hs1; reflexivity | ].
        intros M. apply HM. exact (@Mined_mine fuel addr tR tB s s1 nb M E).
Qed.

Lemma replay_append_only_witness :
  replay [CallAdd aliceToBob; CallMine 3 "miner1" 1700000006001 1700000006001] freshLedger
  = Ok minedLedger
  /\ Blockchain.chain minedLedger = Blockchain.chain freshLedger ++ [minedBlock]
  /\ Blockchain.difficulty minedLedger = Blockchain.difficulty freshLedger.
Proof.
  assert (R : replay [CallAdd aliceToBob; CallMine 3 "miner1" 1700000006001 1700000006001]
                freshLedger = Ok minedLedger).
  { cbn [replay]. change (snd (Blockchain.addTransaction aliceToBob freshLedger))
      with scenarioLedger. rewrite scenario_mined. reflexivity. }
  destruct (replay_append_only _ _ R) as (_ & D & _).
  split; [exact R | ]. split; [reflexivity | exact D].
Defined.

Lemma search_ofBlock (fuel d : nat) :
  forall b : Block.t,
    Untyped.mineBlockWithProofOfWork fuel d (Untyped.ofBlock b)
    = match Blockchain.mineBlockWithProofOfWork fuel d b with
      | Some (h, m) => Ok (h, Untyped.ofBlock m)
      | None => OutOfFuel
      end.
Proof.
  induction fuel as [| fuel IH]; intros b; [reflexivity | ].
  cbn [Untyped.mineBlockWithProofOfWork Blockchain.mineBlockWithProofOfWork].
  rewrite calculateHash_ofBlock.
  destruct (Blockchain.meetsTarget d (Blockchain.calculateHash b)); [reflexivity | ].
  exact (IH (Block.setNonce (Block.nonce b + 1) b)).
Qed.

Lemma getLatestBlock_ofLedger (s : Blockchain.t) :
  Untyped.getLatestBlock (Untyped.ofLedger s)
  = option_map Untyped.ofBlock (Blockchain.getLatestBlock s).
Proof.
  unfold Untyped.getLatestBlock, Blockchain.getLatestBlock, Untyped.ofLedger.
  cbn [Untyped.chain]. rewrite length_map, nth_error_map. reflexivity.
Qed.

(** The typed [mineBlock] is the untyped one on typed ledgers. *)
Lemma mineBlock_ofLedger (fuel : nat) (minerAddress : string) (rewardTime blockTime : Z)
  (s : Blockchain.t) :
  Untyped.mineBlock fuel minerAddress rewardTime blockTime (Untyped.ofLedger s)
  = match Blockchain.mineBlock fuel minerAddress rewardTime blockTime s with
    | Ok (newBlock, s') => Ok (Untyped.ofBlock newBlock, Untyped.ofLedger s')
    | TypeError => TypeError
    | OutOfFuel => OutOfFuel
    end.
Proof.
  unfold Untyped.mineBlock, Blockchain.mineBlock.
  rewrite getLatestBlock_ofLedger.
  destruct (Blockchain.getLatestBlock s) as [latest | ]; [ | reflexivity].
  cbn [option_map].
  set (candidateBlock :=
         Block.mk (Z.of_nat (List.length (Blockchain.chain s))) (Block.hash latest)
           blockTime
           (Blockchain.pendingTransactions s
            ++ [Transaction.mk "system" minerAddress 50 0 rewardTime "system_reward"])
           0 "").
  replace (Untyped.mkBlock _ _ _ _ _ _) with (Untyped.ofBlock candidateBlock)
    by (unfold Untyped.ofBlock, Untyped.ofLedger, candidateBlock;
        cbn [Block.index Block.previousHash Block.timestamp Block.transactions
             Block.nonce Block.hash Untyped.chain Untyped.pendingTransactions
             Untyped.hash];
        rewrite length_map, map_app; reflexivity).
  rewrite search_ofBlock. cbn [Untyped.difficulty Untyped.ofLedger].
  destruct (Blockchain.mineBlockWithProofOfWork fuel (Blockchain.difficulty s)
              candidateBlock) as [[h m] | ]; [ | reflexivity].
  unfold Untyped.ofLedger. cbn [Blockchain.chain Blockchain.pendingTransactions
    Blockchain.difficulty Untyped.chain map].
  rewrite map_app. reflexivity.
Qed.

(** The nonce search raises exactly when the first hash does: the later
    attempts hash the same transactions. *)
Lemma search_throws (fuel d : nat) :
  forall b : Untyped.block,
    Untyped.mineBlockWithProofOfWork (S fuel) d b = TypeError
    <-> existsb Json.hasBigInt (Untyped.transactions b) = true.
Proof.
  induction fuel as [| fuel IH]; intros b;
    destruct (calculateHash_throws b) as [T N];
    cbn [Untyped.mineBlockWithProofOfWork];
    destruct (Untyped.calculateHash b) as [h | | ] eqn:E; try contradiction.
  - rewrite <- T. destruct (Blockchain.meetsTarget d h); split; discriminate.
  - rewrite <- T. split; reflexivity.
  - destruct (Blockchain.meetsTarget d h).
    + rewrite <- T. split; discriminate.
    + change (match Untyped.calculateHash (Untyped.setNonce (Untyped.nonce b + 1) b) with
              | Ok hash =>
                  if Blockchain.meetsTarget d hash
                  then Ok (hash, Untyped.setNonce (Untyped.nonce b + 1) b)
                  else Untyped.mineBlockWithProofOfWork fuel d
                         (Untyped.setNonce
                            (Untyped.nonce (Untyped.setNonce (Untyped.nonce b + 1) b) + 1)
                            (Untyped.setNonce (Untyped.nonce b + 1) b))
              | TypeError => TypeError
              | OutOfFuel => OutOfFuel
              end)
        with (Untyped.mineBlockWithProofOfWork (S fuel) d
                (Untyped.setNonce (Untyped.nonce b + 1) b)).
      rewrite (IH (Untyped.setNonce (Untyped.nonce b + 1) b)). reflexivity.
  - rewrite <- T. split; reflexivity.
Qed.

(** X4: [mineBlock] raises exactly when the chain is empty (it reads the
    hash of a tip that is not there) or when a pending transaction holds a
    BigInt (which [JSON.stringify] refuses when the candidate is hashed),
    whatever the miner and the clock.  On ledgers of typed transactions,
    where the typed [mineBlock] is the same function, it raises exactly on
    an empty chain, and on a ledger that was only mined it never raises. *)
Theorem mineBlock_raises_iff :
  (forall fuel minerAddress rewardTime blockTime (s : Untyped.t),
     Untyped.mineBlock (S fuel) minerAddress rewardTime blockTime s = TypeError
     <-> Untyped.chain s = []
         \/ existsb Json.hasBigInt (Untyped.pendingTransactions s) = true)
  /\ (forall fuel minerAddress rewardTime blockTime (s : Blockchain.t),
        Untyped.mineBlock fuel minerAddress rewardTime blockTime (Untyped.ofLedger s)
        = match Blockchain.mineBlock fuel minerAddress rewardTime blockTime s with
          | Ok (newBlock, s') => Ok (Untyped.ofBlock newBlock, Untyped.ofLedger s')
          | TypeError => TypeError
          | OutOfFuel => OutOfFuel
          end)
  /\ (forall fuel minerAddress rewardTime blockTime s,
        Blockchain.mineBlock fuel minerAddress rewardTime blockTime s = TypeError
        <-> Blockchain.chain s = [])
  /\ (forall fuel minerAddress rewardTime blockTime s,
        Mined s ->
        Blockchain.mineBlock fuel minerAddress rewardTime blockTime s = OutOfFuel
        \/ exists newBlock s',
             Blockchain.mineBlock fuel minerAddress rewardTime blockTime s
             = Ok (newBlock, s')).
Proof.
  assert (A : forall fuel minerAddress rewardTime blockTime s,
             Blockchain.mineBlock fuel minerAddress rewardTime blockTime s = TypeError
             <-> Blockchain.chain s = []).
  { intros fuel addr tR tB s. unfold Blockchain.mineBlock. split.
    - destruct (Blockchain.getLatestBlock s) as [tip | ] eqn:E.
      + destruct (Blockchain.mineBlockWithProofOfWork _ _ _) as [[h m] | ]; discriminate.
      + intros _. unfold Blockchain.getLatestBlock in E.
        destruct (Blockchain.chain s) as [| b l] using rev_ind; [reflexivity | ].
        rewrite length_app in E. cbn in E.
        replace (List.length l + 1 - 1)%nat with (List.length l) in E by lia.
        rewrite nth_error_app2, Nat.sub_diag in E by lia. discriminate.
    - intros E. unfold Blockchain.getLatestBlock. rewrite E. reflexivity. }
  split.
  { intros fuel addr tR tB s. unfold Untyped.mineBlock.
    destruct (Untyped.getLatestBlock s) as [tip | ] eqn:E.
    - assert (C : Untyped.chain s <> []).
      { intros C. unfold Untyped.getLatestBlock in E. rewrite C in E. discriminate. }
      pose proof (@search_throws fuel (Untyped.difficulty s)
                    (Untyped.mkBlock (Z.of_nat (List.length (Untyped.chain s)))
                       (Untyped.hash tip) tB
                       (Untyped.pendingTransactions s
                        ++ [Json.ofTransaction
                              (Transaction.mk "system" addr 50 0 tR "system_reward")])
                       0 "")) as T.
      cbn [Untyped.transactions] in T. rewrite existsb_app in T.
      cbn [existsb Json.hasBigInt Json.ofTransaction orb] in T.
      rewrite orb_false_r in T.
      destruct (Untyped.mineBlockWithProofOfWork _ _ _) as [[h m] | | ].
      + split; [discriminate | ]. intros [X | X]; [contradiction | ].
        apply T in X. discriminate.
      + split; [ | reflexivity]. intros _. right. apply T. reflexivity.
      + split; [discriminate | ]. intros [X | X]; [contradiction | ].
        apply T in X. discriminate.
    - split; [ | reflexivity]. intros _. left.
      unfold Untyped.getLatestBlock in E.
      destruct (Untyped.chain s) as [| b l] using rev_ind; [reflexivity | ].
      rewrite length_app in E. cbn in E.
      replace (List.length l + 1 - 1)%nat with (List.length l) in E by lia.
      rewrite nth_error_app2, Nat.sub_diag in E by lia. discriminate. }
  split; [exact mineBlock_ofLedger | ].
  split; [exact A | ].
  intros fuel addr tR tB s M.
  destruct (Blockchain.mineBlock fuel addr tR tB s) as [[nb s'] | | ] eqn:E.
  - right. exists nb, s'. reflexivity.
  - apply A in E. destruct (mined_has_tip M) as (prefix & tip & Hc).
    rewrite Hc in E. destruct prefix; discriminate.
  - left. reflexivity.
Qed.

(** X5: [getLatestBlock] is the last block of the chain: undefined exactly
    on an empty chain, the genesis block after construction, untouched by
    [addTransaction], and the block just returned after [mineBlock]. *)
Theorem getLatestBlock_spec :
  (forall s, Blockchain.getLatestBlock s = None <-> Blockchain.chain s = [])
  /\ (forall s b,
        Blockchain.getLatestBlock s = Some b
        <-> exists prefix, Blockchain.chain s = prefix ++ [b])
  /\ (forall now,
        Blockchain.getLatestBlock (Blockchain.constructor now)
        = Some (Blockchain.createGenesisBlock now))
  /\ (forall tx s,
        Blockchain.getLatestBlock (snd (Blockchain.addTransaction tx s))
        = Blockchain.getLatestBlock s)
  /\ (forall fuel minerAddress rewardTime blockTime s newBlock s',
        Blockchain.mineBlock fuel minerAddress rewardTime blockTime s = Ok (newBlock, s') ->
        Blockchain.getLatestBlock s' = Some newBlock).
Proof.
  assert (S : forall s b,
             Blockchain.getLatestBlock s = Some b
             <-> exists prefix, Blockchain.chain s = prefix ++ [b]).
  { intros s b. split; [apply getLatestBlock_some | ].
    intros (prefix & E). exact (@getLatestBlock_last prefix b s E). }
  split.
  { intros s. split.
    - intros H. destruct (Blockchain.chain s) as [| b l] eqn:E using rev_ind;
        [reflexivity | ].
      assert (Blockchain.getLatestBlock s = Some b) by (apply S; exists l; exact E).
      congruence.
    - intros E. unfold Blockchain.getLatestBlock. rewrite E. reflexivity. }
  split; [exact S | ].
  split; [reflexivity | ].
  split.
  { intros tx s. unfold Blockchain.getLatestBlock.
    destruct (addTransaction_frame tx s) as [-> _]. reflexivity. }
  intros fuel addr tR tB s nb s' H. apply mineBlock_inv in H.
  destruct H as (tip & k & _ & _ & _ & ->). apply S.
  exists (Blockchain.chain s). reflexivity.
Qed.

Lemma addEach_spec (txs : list Transaction.t) :
  forall s,
    fst (addEach txs s) = map Blockchain.isValidTransaction txs
    /\ snd (addEach txs s)
       = Blockchain.mk (Blockchain.chain s)
           (Blockchain.pendingTransactions s ++ filter Blockchain.isValidTransaction txs)
           (Blockchain.difficulty s).
Proof.
  induction txs as [| tx txs IH]; intros s.
  - cbn. rewrite app_nil_r. destruct s. split; reflexivity.
  - cbn [addEach map filter]. unfold Blockchain.addTransaction.
    destruct (Blockchain.isValidTransaction tx); cbn [negb].
    + specialize (IH (Blockchain.mk (Blockchain.chain s)
                        (Blockchain.pendingTransactions s ++ [tx])
                        (Blockchain.difficulty s))).
      destruct (addEach txs _) as [oks s2]. cbn in IH. destruct IH as [-> ->].
      cbn. rewrite <- app_assoc. split; reflexivity.
    + specialize (IH s). destruct (addEach txs s) as [oks s2]. cbn in IH.
      destruct IH as [-> ->]. split; reflexivity.
Qed.

(** X6: a batch of submissions is answered transaction by transaction
    with its validity; exactly the valid ones join the pool, behind what
    was pending and in the order submitted, and the block mined next holds
    the former pool, then these, then the reward. *)
Theorem addEach_then_mine (txs : list Transaction.t) (s : Blockchain.t) :
  fst (addEach txs s) = map Blockchain.isValidTransaction txs
  /\ Blockchain.pendingTransactions (snd (addEach txs s))
     = Blockchain.pendingTransactions s ++ filter Blockchain.isValidTransaction txs
  /\ Blockchain.chain (snd (addEach txs s)) = Blockchain.chain s
  /\ (forall fuel minerAddress rewardTime blockTime newBlock s',
        Blockchain.mineBlock fuel minerAddress rewardTime blockTime (snd (addEach txs s))
        = Ok (newBlock, s') ->
        Block.transactions newBlock
        = Blockchain.pendingTransactions s
          ++ filter Blockchain.isValidTransaction txs
          ++ [rewardTransaction minerAddress rewardTime]).
Proof.
  destruct (addEach_spec txs s) as [F S]. rewrite S. cbn.
  split; [exact F | ]. split; [reflexivity | ]. split; [reflexivity | ].
  intros fuel addr tR tB nb s' H. apply mineBlock_inv in H.
  destruct H as (tip & k & _ & -> & _). cbn. rewrite <- app_assoc. reflexivity.
Qed.

End LedgerCalls.

Lemma addEach_then_mine_witness :
  let refused := Transaction.mk "" "bob" 50 1 1700000000001 "signature" in
  fst (addEach [refused; aliceToBob] freshLedger) = [false; true]
  /\ Block.transactions minedBlock
     = [aliceToBob; rewardTransaction "miner1" 1700000006001].
Proof.
  intros refused.
  destruct (addEach_then_mine [refused; aliceToBob] freshLedger) as (A & _ & _ & T).
  split; [exact A | ].
  apply (T 3%nat "miner1"%string 1700000006001%Z 1700000006001%Z minedBlock minedLedger).
  exact scenario_mined.
Defined.

(* ================================================================== *)
(** ** What mining does to the balances *)
(* ================================================================== *)

Section Settlement.

Local Open Scope Z_scope.

Lemma chained_app (c : list Block.t) (b : Block.t) (p : list Transaction.t) (d : nat) :
  chained (Blockchain.mk (c ++ [b]) p d) = flat_map Block.transactions c ++ Block.transactions b.
Proof.
  unfold chained. cbn [Blockchain.chain]. rewrite flat_map_app. cbn.
  rewrite app_nil_r. reflexivity.
Qed.










(** Amounts and fees of a mined ledger: every chained and every pending
    transaction passed [isValidTransaction] or is a reward. *)
Lemma mined_amounts (s : Blockchain.t) :
  Mined s ->
  (forall tx, In tx (chained s) -> 0 < Transaction.amount tx /\ 0 <= Transaction.fee tx)
  /\ (forall tx, In tx (Blockchain.pendingTransactions s) ->
                 0 < Transaction.amount tx /\ 0 <= Transaction.fee tx).
Proof.
  induction 1 as [now | tx0 s M [IHc IHp] | fuel addr tR tB s s' nb M [IHc IHp] Hmine].
  - split; intros tx [].
  - unfold Blockchain.addTransaction.
    destruct (Blockchain.isValidTransaction tx0) eqn:V; cbn [negb snd]; [ | split; assumption].
    split; [exact IHc | ].
    cbn [Blockchain.pendingTransactions]. intros tx Hin.
    apply in_app_or in Hin. destruct Hin as [Hin | [<- | []]]; [apply IHp; exact Hin | ].
    unfold Blockchain.isValidTransaction in V.
    apply andb_prop in V. destruct V as [V Vf].
    apply andb_prop in V. destruct V as [_ Va].
    apply Z.gtb_lt in Va. apply Z.geb_le in Vf. lia.
  - apply mineBlock_inv in Hmine. destruct Hmine as (tip & k & _ & -> & _ & ->).
    split; [ | intros tx []].
    rewrite chained_app. cbn [Block.transactions Block.setHash Block.setNonce candidate].
    intros tx Hin. apply in_app_or in Hin. destruct Hin as [Hin | Hin].
    + apply IHc. exact Hin.
    + apply in_app_or in Hin. destruct Hin as [Hin | [<- | []]].
      * apply IHp. exact Hin.
      * cbn. lia.
Qed.

Lemma spent_nonneg (txs : list Transaction.t) :
  (forall tx, In tx txs -> 0 <= Transaction.amount tx /\ 0 <= Transaction.fee tx) ->
  0 <= sumZ (map (fun tx => Transaction.amount tx + Transaction.fee tx) txs).
Proof.
  induction txs as [| t txs IH]; intros P; [cbn; lia | ].
  destruct (P t (or_introl eq_refl)) as [Pa Pf].
  assert (R := IH (fun x Hx => P x (or_intror Hx))).
  unfold sumZ in *. cbn [map fold_right]. lia.
Qed.

Lemma delta_bound (address : string) (tx : Transaction.t) :
  0 <= Transaction.amount tx -> 0 <= Transaction.fee tx ->
  Z.abs (delta address tx) <= Transaction.amount tx + Transaction.fee tx.
Proof.
  intros Pa Pf. unfold delta.
  destruct (String.eqb (Transaction.to tx) address),
           (String.eqb (Transaction.from tx) address); lia.
Qed.

Lemma ledgerSum_bound (address : string) (txs : list Transaction.t) :
  (forall tx, In tx txs -> 0 <= Transaction.amount tx /\ 0 <= Transaction.fee tx) ->
  Z.abs (sumZ (map (delta address) txs))
  <= sumZ (map (fun tx => Transaction.amount tx + Transaction.fee tx) txs).
Proof.
  induction txs as [| t txs IH]; intros P; [cbn; lia | ].
  destruct (P t (or_introl eq_refl)) as [Pa Pf].
  assert (R := IH (fun x Hx => P x (or_intror Hx))).
  assert (D := @delta_bound address t Pa Pf).
  unfold sumZ in *. cbn [map fold_right]. lia.
Qed.

(** With amounts and fees that are not negative, the loop of [getBalance]
    never leaves the magnitude of its start plus the volume still to
    come. *)
Lemma exactFrom_volume (address : string) (txs : list Transaction.t) :
  (forall tx, In tx txs -> 0 <= Transaction.amount tx /\ 0 <= Transaction.fee tx) ->
  forall z,
    Z.abs z + sumZ (map (fun tx => Transaction.amount tx + Transaction.fee tx) txs)
    <= 9007199254740991 ->
    exactFrom address z txs = true.
Proof.
  induction txs as [| tx txs IH]; intros P z B; [reflexivity | ].
  destruct (P tx (or_introl eq_refl)) as [Pa Pf].
  assert (V := @spent_nonneg txs (fun x Hx => P x (or_intror Hx))).
  unfold sumZ in B, V. cbn [map fold_right] in B.
  cbn [exactFrom]. unfold Js.isSafeInteger.
  rewrite IH.
  - destruct (String.eqb (Transaction.from tx) address),
             (String.eqb (Transaction.to tx) address);
      rewrite ?andb_true_r; repeat (apply andb_true_intro; split);
      try reflexivity; apply Z.leb_le; lia.
  - intros t Ht. apply P. right. exact Ht.
  - unfold sumZ.
    destruct (String.eqb (Transaction.from tx) address),
             (String.eqb (Transaction.to tx) address); lia.
Qed.

(** X22: on a ledger built through the API (constructor, [addTransaction],
    returning [mineBlock] calls) whose chained amounts and fees add up to
    a safe integer, no addition or subtraction of [getBalance] rounds: for
    every address the balance is exactly the sum of what it received minus
    what it sent and paid, itself a safe integer. *)
Theorem safe_volume_exact (s : Blockchain.t) :
  Mined s ->
  volume s <= 9007199254740991 ->
  forall address,
    exactFor address s = true
    /\ Blockchain.getBalance address s = Js.ofZ (ledgerSum address s)
    /\ Js.isSafeInteger (ledgerSum address s) = true.
Proof.
  intros M B address.
  assert (P : forall tx, In tx (chained s) ->
                         0 <= Transaction.amount tx /\ 0 <= Transaction.fee tx).
  { intros tx Hin. destruct (proj1 (mined_amounts M) tx Hin). lia. }
  assert (E : exactFor address s = true).
  { unfold exactFor. apply exactFrom_volume; [exact P | ]. unfold volume in B. cbn. lia. }
  split; [exact E | ]. split; [apply getBalance_ledgerSum; exact E | ].
  pose proof (@ledgerSum_bound address (chained s) P) as I.
  unfold ledgerSum, volume in *. unfold Js.isSafeInteger. apply Z.leb_le. lia.
Qed.

Lemma safe_volume_exact_witness :
  volume minedLedger = 101
  /\ exactFor "alice" minedLedger = true
  /\ Blockchain.getBalance "alice" minedLedger = Js.ofZ (ledgerSum "alice" minedLedger)
  /\ Js.isSafeInteger (ledgerSum "alice" minedLedger) = true.
Proof.
  split; [reflexivity | ].
  apply (@safe_volume_exact minedLedger).
  - exact minedLedger_mined.
  - vm_compute. discriminate.
Defined.

End Settlement.

(* ================================================================== *)
(** ** Validation of a growing and of a truncated chain *)
(* ================================================================== *)

Section ValidationSteps.

Lemma linked_extend (s : Blockchain.t) (b : Block.t) (p : list Transaction.t) (i : nat) :
  i < List.length (Blockchain.chain s) ->
  linked (Blockchain.mk (Blockchain.chain s ++ [b]) p (Blockchain.difficulty s)) i
  <-> linked s i.
Proof.
  intros Hi. split; intros H.
  - apply (linked_ext (s1 := Blockchain.mk (Blockchain.chain s ++ [b]) p
                               (Blockchain.difficulty s))); cbn [Blockchain.chain
      Blockchain.difficulty]; try rewrite nth_error_app1 by lia; try reflexivity.
    exact H.
  - apply (linked_ext (s1 := s)); cbn [Blockchain.chain Blockchain.difficulty];
      try rewrite nth_error_app1 by lia; try reflexivity.
    exact H.
Qed.

(** X9: validation is incremental: the chain with one more block at its
    end validates exactly when the chain did and the new block passes the
    three checks against the former tip; index, timestamp and transactions
    of the new block are not looked at beyond their part in the hash. *)
Theorem validateChain_extend (s : Blockchain.t) (prefix : list Block.t) (tip b : Block.t)
  (pending : list Transaction.t) :
  Blockchain.chain s = prefix ++ [tip] ->
  Blockchain.validateChain
    (Blockchain.mk (Blockchain.chain s ++ [b]) pending (Blockchain.difficulty s))
  = Blockchain.validateChain s && Blockchain.checkBlock (Blockchain.difficulty s) b tip.
Proof.
  intros Hc.
  assert (Hlen : List.length (Blockchain.chain s) = S (List.length prefix)).
  { rewrite Hc, length_app. cbn. lia. }
  assert (Htip : nth_error (Blockchain.chain s) (List.length (Blockchain.chain s) - 1)
                 = Some tip).
  { rewrite Hc at 1. rewrite Hlen. cbn [Nat.sub]. rewrite Nat.sub_0_r.
    rewrite nth_error_app2, Nat.sub_diag by lia. reflexivity. }
  set (s2 := Blockchain.mk (Blockchain.chain s ++ [b]) pending (Blockchain.difficulty s)).
  assert (Last : linked s2 (List.length (Blockchain.chain s))
                 <-> Blockchain.checkBlock (Blockchain.difficulty s) b tip = true).
  { rewrite checkBlock_iff. unfold linked, s2. cbn [Blockchain.chain Blockchain.difficulty].
    rewrite nth_error_app2, Nat.sub_diag by lia.
    rewrite nth_error_app1 by lia. rewrite Htip. cbn [nth_error]. split.
    - intros (cur & prev & E1 & E2 & H). injection E1 as <-. injection E2 as <-. exact H.
    - intros H. exists b, tip. tauto. }
  apply Bool.eq_iff_eq_true. rewrite andb_true_iff, !validateChain_iff.
  unfold s2 at 1. cbn [Blockchain.chain]. rewrite length_app. cbn [List.length].
  split.
  - intros H. split.
    + intros i Hi. apply (linked_extend s b pending); [lia | ]. apply H. lia.
    + apply Last. apply H. lia.
  - intros [H1 H2] i Hi.
    destruct (Nat.eq_dec i (List.length (Blockchain.chain s))) as [-> | Hne].
    + apply Last. exact H2.
    + apply linked_extend; [lia | ]. apply H1. lia.
Qed.

Lemma validateChain_extend_witness :
  Blockchain.validateChain minedLedger
  = Blockchain.validateChain scenarioLedger
    && Blockchain.checkBlock 4 minedBlock (Blockchain.createGenesisBlock 1700000000000).
Proof.
  exact (@validateChain_extend scenarioLedger [] (Blockchain.createGenesisBlock 1700000000000)
           minedBlock [] eq_refl).
Defined.

(** X10: validity is inherited by every initial part of the chain: cutting
    a valid chain after any block leaves a valid chain. *)
Theorem validateChain_prefix (s : Blockchain.t) (n : nat) (pending : list Transaction.t) :
  Blockchain.validateChain s = true ->
  Blockchain.validateChain
    (Blockchain.mk (firstn n (Blockchain.chain s)) pending (Blockchain.difficulty s)) = true.
Proof.
  rewrite !validateChain_iff. cbn [Blockchain.chain]. intros H i Hi.
  rewrite length_firstn in Hi.
  apply (linked_ext (s1 := s)); cbn [Blockchain.chain Blockchain.difficulty].
  - rewrite nth_error_firstn. replace (Nat.ltb i n) with true; [reflexivity | ].
    symmetry. apply Nat.ltb_lt. lia.
  - rewrite nth_error_firstn. replace (Nat.ltb (i - 1) n) with true; [reflexivity | ].
    symmetry. apply Nat.ltb_lt. lia.
  - reflexivity.
  - apply H. lia.
Qed.

Lemma validateChain_prefix_witness :
  Blockchain.validateChain (Blockchain.mk (firstn 1 (Blockchain.chain minedLedger)) [] 4)
  = true.
Proof.
  apply (@validateChain_prefix minedLedger 1 []).
  apply mined_valid. exact minedLedger_mined.
Defined.

End ValidationSteps.

(* ================================================================== *)
(** ** The hash input at the boundary between index and previousHash *)
(* ================================================================== *)

Section FieldBoundary.

Local Open Scope string_scope.

Lemma string_of_revapp (a : Decimal.uint) :
  forall b, NilEmpty.string_of_uint (Decimal.revapp a b)
            = NilEmpty.string_of_uint (Decimal.rev a) ++ NilEmpty.string_of_uint b.
Proof.
  unfold Decimal.rev.
  induction a as [| a IH | a IH | a IH | a IH | a IH | a IH | a IH | a IH | a IH | a IH];
    intros b; cbn [Decimal.revapp]; [reflexivity | ..];
    rewrite IH; symmetry; rewrite IH; cbn; rewrite append_assoc; reflexivity.
Qed.

Lemma little_of_lu (p : positive) : DecimalPos.Unsigned.of_lu (Pos.to_little_uint p) = N.pos p.
Proof.
  rewrite <- DecimalPos.Unsigned.of_lu_rev. exact (DecimalPos.Unsigned.of_to p).
Qed.

Lemma little_nztail (p : positive) : DecimalFacts.nztail (Pos.to_little_uint p) = Pos.to_little_uint p.
Proof.
  pose proof (DecimalPos.Unsigned.to_of_lu (Pos.to_little_uint p)) as H.
  rewrite little_of_lu in H. cbn [DecimalPos.Unsigned.to_lu] in H.
  assert (N : DecimalFacts.nztail (Pos.to_little_uint p) <> Decimal.Nil).
  { intros E. apply DecimalPos.Unsigned.of_lu_0 in E. rewrite little_of_lu in E. discriminate. }
  unfold DecimalFacts.lnorm in H. destruct (DecimalFacts.nztail (Pos.to_little_uint p)); congruence.
Qed.

Ltac digit_cases d :=
  let C := fresh "C" in
  assert (C : (d = 0 \/ d = 1 \/ d = 2 \/ d = 3 \/ d = 4 \/ d = 5 \/ d = 6 \/ d = 7
               \/ d = 8 \/ d = 9)%Z) by lia;
  repeat (destruct C as [C | C]); subst d.

Lemma pushDigit_normal (d : Z) (y : Decimal.uint) (p : positive) :
  (0 <= d <= 9)%Z ->
  DecimalFacts.nztail y = y -> DecimalPos.Unsigned.of_lu y = N.pos p ->
  DecimalFacts.lnorm (pushDigit d y) = pushDigit d y
  /\ DecimalPos.Unsigned.of_lu (pushDigit d y) = (Z.to_N d + 10 * N.pos p)%N.
Proof.
  intros Hd T O.
  assert (Hy : y <> Decimal.Nil) by (intros E; rewrite E in O; discriminate).
  split.
  - unfold DecimalFacts.lnorm.
    digit_cases d; cbn [pushDigit DecimalFacts.nztail]; rewrite ?T; try reflexivity.
    destruct y; congruence.
  - digit_cases d; cbn [pushDigit DecimalPos.Unsigned.of_lu]; rewrite O; reflexivity.
Qed.

Lemma little_tenfold (p : positive) (d : Z) :
  (0 <= d <= 9)%Z ->
  exists q, Z.pos q = (10 * Z.pos p + d)%Z
            /\ Pos.to_little_uint q = pushDigit d (Pos.to_little_uint p).
Proof.
  intros Hd.
  destruct (@pushDigit_normal d (Pos.to_little_uint p) p Hd (little_nztail p)
              (little_of_lu p)) as [L Ho].
  pose proof (DecimalPos.Unsigned.to_of_lu (pushDigit d (Pos.to_little_uint p))) as H.
  rewrite Ho, L in H.
  destruct (Z.to_N d + 10 * N.pos p)%N as [| q] eqn:E; [lia | ].
  exists q. split; [lia | exact H].
Qed.

(** Decimal printing: the digits of [10 * i + d] are those of [i]
    followed by the digit [d]. *)
Lemma numberToString_tenfold (i d : Z) :
  (0 < i)%Z -> (0 <= d <= 9)%Z ->
  Js.numberToString (10 * i + d) = Js.numberToString i ++ Js.numberToString d.
Proof.
  intros Hi Hd. destruct i as [| p | p]; try lia.
  destruct (@little_tenfold p d Hd) as (q & Eq & Hq).
  rewrite <- Eq. unfold Js.numberToString at 1 2. cbn [Z.to_int NilZero.string_of_int].
  assert (NZ : forall r, NilZero.string_of_uint (Pos.to_uint r)
                         = NilEmpty.string_of_uint (Pos.to_uint r)).
  { intros r. pose proof (DecimalPos.Unsigned.to_uint_nonnil r) as N.
    destruct (Pos.to_uint r); [contradiction | reflexivity ..]. }
  rewrite !NZ. unfold Pos.to_uint. rewrite Hq.
  digit_cases d; cbn [pushDigit]; unfold Decimal.rev at 1; cbn [Decimal.revapp];
    rewrite string_of_revapp; reflexivity.
Qed.


(** X11: the hash input runs the index and previousHash together without
    a separator, so the content hash does not tell them apart: for every
    index [i > 0] and decimal digit [d], the block with index [10 i + d]
    and the block with index [i] whose previousHash has that digit put in
    front (all other hashed fields equal) have the same content hash,
    although their indexes differ. *)
Theorem calculateHash_field_boundary (i d : Z) (previousHash : string) (time : Z)
  (txs : list Transaction.t) (nonce : Z) (h1 h2 : string) :
  (0 < i)%Z -> (0 <= d <= 9)%Z ->
  Blockchain.calculateHash (Block.mk (10 * i + d) previousHash time txs nonce h1)
  = Blockchain.calculateHash
      (Block.mk i (Js.numberToString d ++ previousHash) time txs nonce h2)
  /\ (10 * i + d)%Z <> i.
Proof.
  intros Hi Hd. split; [ | lia].
  unfold Blockchain.calculateHash, Blockchain.blockString.
  cbn [Block.index Block.previousHash Block.timestamp Block.transactions Block.nonce].
  rewrite (numberToString_tenfold Hi Hd), !append_assoc. reflexivity.
Qed.

Lemma calculateHash_field_boundary_witness :
  Blockchain.calculateHash (Block.mk 12 "3ab" 1700000000000 [] 0 "")
  = Blockchain.calculateHash (Block.mk 1 "23ab" 1700000000000 [] 0 "").
Proof.
  apply (@calculateHash_field_boundary 1 2 "3ab" 1700000000000 [] 0 "" ""); lia.
Defined.

End FieldBoundary.

(* ================================================================== *)
(** ** Addresses *)
(* ================================================================== *)

Section Addresses.

Lemma substring_prefix_length (n : nat) :
  forall s, n <= String.length s -> String.length (substring 0 n s) = n.
Proof.
  induction n as [| n IH]; intros s H.
  - destruct s; reflexivity.
  - destruct s as [| c s]; [cbn in H; lia | ]. cbn. rewrite IH; [reflexivity | ].
    cbn in H. lia.
Qed.

Lemma substring_prefix_allChars (f : ascii -> bool) (n : nat) :
  forall s, allChars f s = true -> allChars f (substring 0 n s) = true.
Proof.
  induction n as [| n IH]; intros s H.
  - destruct s; reflexivity.
  - destruct s as [| c s]; [reflexivity | ]. cbn in *.
    apply andb_true_iff in H. destruct H as [Hc Hs]. rewrite Hc, IH by exact Hs.
    reflexivity.
Qed.

Lemma substring_prefix_split (n : nat) :
  forall s, s = (substring 0 n s ++ substring n (String.length s - n) s)%string.
Proof.
  induction n as [| n IH]; intros s.
  - destruct s as [| c s]; [reflexivity | ]. cbn [substring append].
    rewrite Nat.sub_0_r.
    assert (A : forall t, substring 0 (String.length t) t = t).
    { induction t as [| x t IHt]; [reflexivity | cbn; rewrite IHt; reflexivity]. }
    cbn [String.length]. cbn [substring]. rewrite A. reflexivity.
  - destruct s as [| c s]; [reflexivity | ]. cbn [substring append String.length Nat.sub].
    rewrite <- IH. reflexivity.
Qed.

(** X12: an address made by [generateAddress] is 40 characters of
    lower-case hexadecimal, namely the first 40 of the 64 of the SHA-256
    digest of the public key, whatever the key is (the empty string
    included). *)
Theorem generateAddress_format (publicKey : string) :
  String.length (CryptoUtils.generateAddress publicKey) = 40
  /\ allChars lowerHexChar (CryptoUtils.generateAddress publicKey) = true
  /\ exists rest,
       String.length rest = 24
       /\ CryptoUtils.sha256 publicKey
          = (CryptoUtils.generateAddress publicKey ++ rest)%string.
Proof.
  unfold CryptoUtils.generateAddress, CryptoUtils.sha256.
  destruct (sha256_format publicKey) as [L X].
  split; [apply substring_prefix_length; lia | ].
  split; [apply substring_prefix_allChars; exact X | ].
  pose proof (substring_prefix_split 40 (SHA256.sha256 publicKey)) as S.
  exists (substring 40 (String.length (SHA256.sha256 publicKey) - 40)
                    (SHA256.sha256 publicKey)).
  split; [ | exact S].
  assert (A : forall a b : string,
             String.length (a ++ b)%string = String.length a + String.length b).
  { induction a as [| x a IH]; intros b; [reflexivity | cbn; rewrite IH; reflexivity]. }
  pose proof (@substring_prefix_length 40 (SHA256.sha256 publicKey)) as P.
  apply (f_equal String.length) in S. rewrite A, P in S by lia. lia.
Qed.

End Addresses.

(* ================================================================== *)
(** ** The node: peers and broadcasts *)
(* ================================================================== *)

Section NodeLifecycle.

Local Open Scope string_scope.

Lemma setAdd_in (q : string) (l : list string) (p : string) :
  In p (NodeServer.setAdd q l) <-> p = q \/ In p l.
Proof.
  unfold NodeServer.setAdd. destruct (existsb (String.eqb q) l) eqn:E.
  - split; [intros H; right; exact H | ].
    intros [-> | H]; [ | exact H].
    apply existsb_exists in E. destruct E as (x & Hx & Ex).
    apply String.eqb_eq in Ex. subst x. exact Hx.
  - rewrite in_app_iff. cbn. intuition.
Qed.

Lemma setAdd_NoDup (q : string) (l : list string) :
  NoDup l -> NoDup (NodeServer.setAdd q l).
Proof.
  intros H. unfold NodeServer.setAdd. destruct (existsb (String.eqb q) l) eqn:E;
    [exact H | ].
  apply NoDup_app; [exact H | constructor; [intros [] | constructor] | ].
  intros x Hx [Ex | []]. subst x.
  assert (T : existsb (String.eqb q) l = true).
  { apply existsb_exists. exists q. split; [exact Hx | apply String.eqb_refl]. }
  congruence.
Qed.

Lemma setAdd_present (q : string) (l : list string) :
  In q l -> NodeServer.setAdd q l = l.
Proof.
  intros H. unfold NodeServer.setAdd.
  replace (existsb (String.eqb q) l) with true; [reflexivity | ].
  symmetry. apply existsb_exists. exists q. split; [exact H | apply String.eqb_refl].
Qed.

(** Adding a list of peers one by one. *)
Lemma addAll_spec (qs : list string) :
  forall l,
    let l' := fold_left (fun ps peer => NodeServer.setAdd peer ps) qs l in
    (forall p, In p l' <-> In p qs \/ In p l)
    /\ (NoDup l -> NoDup l')
    /\ ((forall q, In q qs -> In q l) -> l' = l).
Proof.
  induction qs as [| q qs IH]; intros l; cbn [fold_left].
  - split; [intros p; cbn; tauto | ]. split; [exact (fun H => H) | reflexivity].
  - destruct (IH (NodeServer.setAdd q l)) as (I & N & S). split; [ | split].
    + intros p. rewrite I, setAdd_in. cbn. intuition.
    + intros H. apply N. apply setAdd_NoDup. exact H.
    + intros H. rewrite setAdd_present by (apply H; left; reflexivity).
      destruct (IH l) as (_ & _ & S'). apply S'. intros x Hx. apply H. right. exact Hx.
Qed.

Lemma start_state (port : Z) (w : world) :
  fst (NodeServer.start port w) = Ok tt
  /\ node (snd (NodeServer.start port w))
     = NodeState.mk
         (fold_left (fun ps peer => NodeServer.setAdd peer ps) NodeServer.bootstrapPeers
                    (NodeState.peers (node w)))
         true (NodeState.nodeId (node w))
  /\ blockchain (snd (NodeServer.start port w)) = blockchain w
  /\ miner (snd (NodeServer.start port w)) = miner w
  /\ loops (snd (NodeServer.start port w)) = loops w
  /\ calls (snd (NodeServer.start port w)) = calls w.
Proof. repeat split. Qed.

(** X13: [start] marks the node active and leaves it knowing the three
    bootstrap peers and every peer it knew before, each once (the peer set
    stays duplicate-free); a node started right after construction knows
    exactly the three, in order; starting again changes no peer, and
    [stop] only clears the active flag, keeping the peers.  Neither touches
    the ledger or the miner. *)
Theorem node_start_stop :
  (forall port w,
     let n := node (snd (NodeServer.start port w)) in
     fst (NodeServer.start port w) = Ok tt
     /\ NodeServer.isActive n = true
     /\ (forall p, In p (NodeServer.getPeers n)
                   <-> In p NodeServer.bootstrapPeers \/ In p (NodeState.peers (node w)))
     /\ (NoDup (NodeState.peers (node w)) -> NoDup (NodeServer.getPeers n))
     /\ blockchain (snd (NodeServer.start port w)) = blockchain w
     /\ miner (snd (NodeServer.start port w)) = miner w)
  /\ (forall port now id,
        NodeServer.getPeers (node (snd (NodeServer.start port (boot now id))))
        = NodeServer.bootstrapPeers)
  /\ (forall port port2 w,
        NodeServer.getPeers
          (node (snd (NodeServer.start port2 (snd (NodeServer.start port w)))))
        = NodeServer.getPeers (node (snd (NodeServer.start port w))))
  /\ (forall w,
        fst (NodeServer.stop w) = Ok tt
        /\ NodeServer.isActive (node (snd (NodeServer.stop w))) = false
        /\ NodeServer.getPeers (node (snd (NodeServer.stop w)))
           = NodeServer.getPeers (node w)
        /\ blockchain (snd (NodeServer.stop w)) = blockchain w
        /\ miner (snd (NodeServer.stop w)) = miner w).
Proof.
  split; [ | split; [ | split]].
  - intros port w. cbv zeta.
    destruct (start_state port w) as (F & N & B & M & _). rewrite N.
    destruct (addAll_spec NodeServer.bootstrapPeers (NodeState.peers (node w)))
      as (I & D & _).
    split; [exact F | ]. split; [reflexivity | ].
    split; [exact I | ]. split; [exact D | ]. split; [exact B | exact M].
  - intros port now id. reflexivity.
  - intros port port2 w.
    destruct (start_state port2 (snd (NodeServer.start port w))) as (_ & N2 & _).
    rewrite N2. cbn [NodeServer.getPeers NodeState.peers].
    destruct (addAll_spec NodeServer.bootstrapPeers
                (NodeState.peers (node (snd (NodeServer.start port w))))) as (_ & _ & S).
    apply S. intros q Hq.
    destruct (start_state port w) as (_ & N & _). rewrite N. cbn [NodeState.peers].
    destruct (addAll_spec NodeServer.bootstrapPeers (NodeState.peers (node w)))
      as (I & _ & _).
    apply I. left. exact Hq.
  - intros w. repeat split.
Qed.

Lemma sleepEach_spec (peers : list string) :
  forall w,
    NodeServer.sleepEach peers w
    = (Ok tt,
       mkWorld (blockchain w) (node w) (miner w) (loops w) (console w)
               (calls w ++ repeat (SleepCall 10) (List.length peers))).
Proof.
  induction peers as [| p peers IH]; intros w.
  - cbn. rewrite List.app_nil_r. destruct w; reflexivity.
  - cbn [NodeServer.sleepEach]. unfold bind, emit. rewrite IH. cbn.
    rewrite <- List.app_assoc. reflexivity.
Qed.

(** X14: a broadcast only passes time: [broadcastBlock] and
    [broadcastTransaction] sleep 10 ms once per known peer, write one line
    to the console and change neither a ledger nor the peers nor the miner;
    the message they build reaches no handler.  On a node that was never
    started there is no peer and no sleep. *)
Theorem broadcast_only_sleeps :
  (forall block now w,
     NodeServer.broadcastBlock block now w
     = (Ok tt,
        mkWorld (blockchain w) (node w) (miner w) (loops w)
          (console w
           ++ ["📤 Broadcasted block #" ++ Js.numberToString (Block.index block) ++ " to "
               ++ NodeServer.size (NodeState.peers (node w)) ++ " peers"])
          (calls w ++ repeat (SleepCall 10) (List.length (NodeState.peers (node w))))))
  /\ (forall transaction now w,
        NodeServer.broadcastTransaction transaction now w
        = (Ok tt,
           mkWorld (blockchain w) (node w) (miner w) (loops w)
             (console w
              ++ ["📤 Broadcasted transaction to "
                  ++ NodeServer.size (NodeState.peers (node w)) ++ " peers"])
             (calls w ++ repeat (SleepCall 10) (List.length (NodeState.peers (node w))))))
  /\ (forall block now now' id,
        calls (snd (NodeServer.broadcastBlock block now' (boot now id))) = []
        /\ calls (snd (NodeServer.broadcastBlock block now'
                         (snd (NodeServer.start 8333 (boot now id)))))
           = [SleepCall 10; SleepCall 10; SleepCall 10]).
Proof.
  split; [ | split].
  - intros block now w. unfold NodeServer.broadcastBlock, NodeServer.broadcastMessage, bind.
    rewrite sleepEach_spec. reflexivity.
  - intros tx now w.
    unfold NodeServer.broadcastTransaction, NodeServer.broadcastMessage, bind.
    rewrite sleepEach_spec. reflexivity.
  - intros block now now' id. split; reflexivity.
Qed.

End NodeLifecycle.

(* ================================================================== *)
(** ** Dispatch: what raises and what is left alone *)
(* ================================================================== *)

Section DispatchEdges.

Local Open Scope string_scope.

(** X15: on the payloads modelled (a block, a transaction, a string, a
    number, a boolean, undefined, null) [handleMessage] raises exactly for
    a NEW_BLOCK or NEW_TRANSACTION message whose data is undefined or
    null, and then before anything is logged or changed.  Whatever the
    message, the chain, the node and the miner are left as they were, and
    the pending pool is either unchanged or longer by the valid transaction
    that a NEW_TRANSACTION message carried: BLOCK_REQUEST, PEER_DISCOVERY
    and PING answer nothing and learn no peer. *)
Theorem handleMessage_edges (m : NetworkMessage.t) (peerId : string) (w : world) :
  let r := Node.handleMessage m peerId w in
  (fst r = TypeError
   <-> (NetworkMessage.type m = "NEW_BLOCK" \/ NetworkMessage.type m = "NEW_TRANSACTION")
       /\ (NetworkMessage.data m = DataUndefined \/ NetworkMessage.data m = DataNull))
  /\ (fst r = TypeError -> snd r = w)
  /\ (fst r = TypeError \/ fst r = Ok tt)
  /\ Blockchain.chain (blockchain (snd r)) = Blockchain.chain (blockchain w)
  /\ node (snd r) = node w
  /\ miner (snd r) = miner w
  /\ (Blockchain.pendingTransactions (blockchain (snd r))
      = Blockchain.pendingTransactions (blockchain w)
      \/ exists tx,
           NetworkMessage.type m = "NEW_TRANSACTION"
           /\ NetworkMessage.data m = DataTransaction tx
           /\ Blockchain.isValidTransaction tx = true
           /\ Blockchain.pendingTransactions (blockchain (snd r))
              = (Blockchain.pendingTransactions (blockchain w) ++ [tx])%list).
Proof.
  destruct m as [type d time sender]. cbv zeta. unfold Node.handleMessage.
  cbn [NetworkMessage.type NetworkMessage.data].
  destruct (String.eqb_spec type "NEW_BLOCK") as [-> | N1].
  { unfold Node.handleNewBlock, Node.blockIndex, bind, ret, raise, log.
    destruct d; cbn; repeat split; intros; try discriminate; try tauto;
      try (left; reflexivity); try (right; reflexivity);
      try (match goal with
           | H : _ /\ (_ \/ _) |- _ => destruct H as [_ [H | H]]; discriminate
           end). }
  destruct (String.eqb_spec type "NEW_TRANSACTION") as [-> | N2].
  { unfold Node.handleNewTransaction, Node.transactionEnds, Node.callAddTransaction,
      bind, ret, raise, log, emit, setBlockchain.
    destruct d as [b | tx | t | | | n | b]; cbn;
      try (unfold Blockchain.addTransaction;
           destruct (Blockchain.isValidTransaction tx) eqn:V; cbn);
      repeat split; intros; try discriminate; try tauto;
      try (left; reflexivity); try (right; reflexivity);
      try (match goal with
           | H : _ /\ (_ \/ _) |- _ => destruct H as [_ [H | H]]; discriminate
           end).
    right. exists tx. repeat split; assumption. }
  assert (R : forall P : Prop,
             ((type = "NEW_BLOCK" \/ type = "NEW_TRANSACTION") /\ P) -> False)
    by (intros P [[E | E] _]; contradiction).
  destruct (String.eqb type "BLOCK_REQUEST");
    [ | destruct (String.eqb type "PEER_DISCOVERY");
        [ | destruct (String.eqb type "PING")]];
    unfold Node.handleBlockRequest, Node.handlePeerDiscovery, Node.handlePing, log; cbn;
    (split; [split; [discriminate | intros H; destruct (R _ H)] | ]);
    (split; [discriminate | ]);
    repeat split; try (right; reflexivity); left; reflexivity.
Qed.

End DispatchEdges.

(* ================================================================== *)
(** ** The whole process: what every run keeps *)
(* ================================================================== *)

Section Runs.

Lemma announced_app (l1 l2 : list event) :
  announced (l1 ++ l2) = announced l1 ++ announced l2.
Proof.
  induction l1 as [| e l1 IH]; [reflexivity | ].
  destruct e; cbn; rewrite IH; reflexivity.
Qed.

Lemma mined_never_raises (fuel : nat) (address : string) (rewardTime blockTime : Z)
  (s : Blockchain.t) :
  Mined s -> Blockchain.mineBlock fuel address rewardTime blockTime s <> TypeError.
Proof.
  intros M. destruct (mined_has_tip M) as (prefix & tip & E).
  unfold Blockchain.mineBlock. rewrite (@getLatestBlock_last prefix tip s E).
  destruct (Blockchain.mineBlockWithProofOfWork _ _ _) as [[h m] | ]; discriminate.
Qed.

(** What a message can do to the world. *)
Lemma handleMessage_effect (m : NetworkMessage.t) (peerId : string) (w : world) :
  let w' := snd (Node.handleMessage m peerId w) in
  miner w' = miner w
  /\ (blockchain w' = blockchain w
      \/ exists tx, blockchain w' = snd (Blockchain.addTransaction tx (blockchain w)))
  /\ (calls w' = calls w \/ exists d, calls w' = calls w ++ [AddTransactionCall d]).
Proof.
  destruct m as [type d time sender]. cbv zeta. unfold Node.handleMessage.
  cbn [NetworkMessage.type NetworkMessage.data].
  repeat match goal with
         | |- context [if String.eqb type ?x then _ else _] =>
             destruct (String.eqb type x)
         end;
    unfold Node.handleNewBlock, Node.handleNewTransaction, Node.handleBlockRequest,
      Node.handlePeerDiscovery, Node.handlePing, Node.blockIndex, Node.transactionEnds,
      Node.callAddTransaction, bind, ret, raise, log, emit, setBlockchain;
    destruct d as [b | tx | t | | | n | b]; cbn;
    try (destruct (Blockchain.addTransaction tx (blockchain w)) as [r s1] eqn:E; cbn);
    repeat split; try (left; reflexivity);
    try (right; eexists; reflexivity).
  right. exists tx. rewrite E. reflexivity.
Qed.

Section Steady.

Variables (address : string) (first : Block.t).

Lemma steady_frame (w w' : world) :
  blockchain w' = blockchain w ->
  MinerState.minerAddress (miner w') = MinerState.minerAddress (miner w) ->
  calls w' = calls w ->
  steady address first w -> steady address first w'.
Proof.
  unfold steady. intros -> -> ->. exact (fun H => H).
Qed.

(** Events other than those of the miner, appended to the calls. *)
Lemma steady_quiet_calls (w w' : world) (l : list event) :
  blockchain w' = blockchain w ->
  MinerState.minerAddress (miner w') = MinerState.minerAddress (miner w) ->
  calls w' = calls w ++ l ->
  filter isBackoff l = [] -> announced l = [] -> Forall (minesFor address) l ->
  steady address first w -> steady address first w'.
Proof.
  unfold steady. intros -> -> -> Hb Ha Hm (M & A & B & F & C & R).
  rewrite filter_app, announced_app, Hb, Ha, B, !List.app_nil_r.
  repeat split; try assumption.
  apply Forall_app. split; assumption.
Qed.

Lemma steady_addTransaction (tx : Transaction.t) (w : world) :
  steady address first w ->
  steady address first
    (setBlockchain (snd (Blockchain.addTransaction tx (blockchain w))) w).
Proof.
  unfold steady. intros (M & A & B & F & C & R). cbn [blockchain miner calls setBlockchain].
  destruct (addTransaction_frame tx (blockchain w)) as [Ec _]. rewrite Ec.
  repeat split; try assumption. apply Mined_add. exact M.
Qed.

Lemma steady_iteration (fuel : nat) (clock : Z * Z) (w : world) :
  steady address first w -> steady address first (snd (Miner.iteration fuel clock w)).
Proof.
  intros S. pose proof S as (M & A & B & F & C & R).
  destruct (MinerState.isMining (miner w)) eqn:Hflag;
    [ | rewrite (@iteration_stopped fuel clock w Hflag); exact S].
  destruct (Blockchain.pendingTransactions (blockchain w)) as [| tx pool] eqn:Hpool.
  { rewrite (@iteration_idle fuel clock w Hflag Hpool). cbn [snd].
    apply (@steady_quiet_calls w _ [SleepCall 5000]); try reflexivity; try exact S.
    repeat constructor. }
  assert (Hne : Blockchain.pendingTransactions (blockchain w) <> [])
    by (rewrite Hpool; discriminate).
  destruct (Blockchain.mineBlock fuel (MinerState.minerAddress (miner w))
              (fst clock) (snd clock) (blockchain w)) as [[nb b] | | ] eqn:Hmine.
  - rewrite (@iteration_mines fuel clock w nb b Hflag Hne Hmine). cbn [snd].
    unfold steady. cbn [blockchain miner calls].
    pose proof Hmine as Hinv. apply mineBlock_inv in Hinv.
    destruct Hinv as (tip & k & _ & Hnb & _ & Hb).
    rewrite filter_app, announced_app, B. cbn [filter isBackoff announced app].
    split; [exact (@Mined_mine _ _ _ _ _ _ _ M Hmine) | ].
    split; [exact A | ]. split; [reflexivity | ].
    split; [apply Forall_app; split; [exact F | repeat constructor; exact A] | ].
    split; [rewrite Hb; cbn [Blockchain.chain]; rewrite C; reflexivity | ].
    apply Forall_app. split; [exact R | ]. constructor; [ | constructor].
    exists (Blockchain.pendingTransactions (blockchain w)), (fst clock).
    rewrite Hnb, <- A. reflexivity.
  - exfalso. exact (@mined_never_raises _ _ _ _ _ M Hmine).
  - unfold Miner.iteration, Blockchain.getPendingTransactions.
    rewrite Hflag, Hpool. cbn [List.length Nat.ltb Nat.leb emit snd blockchain miner].
    rewrite Hmine. cbn [snd].
    apply (@steady_quiet_calls w _ [MineBlockCall (MinerState.minerAddress (miner w))]);
      try reflexivity; try exact S.
    repeat constructor. exact A.
Qed.

Lemma steady_perform (a : step) (w : world) :
  steady address first w -> steady address first (perform a w).
Proof.
  intros S. destruct a as [fuel clock | | tx | m peer | k fuel clock]; cbn [perform].
  - unfold Miner.start, Miner.miningLoop.
    assert (S1 : steady address first (Miner.setIsMining true w))
      by (apply (@steady_frame w); try reflexivity; exact S).
    pose proof (@steady_iteration fuel clock _ S1) as S2.
    destruct (Miner.iteration fuel clock (Miner.setIsMining true w)) as [p w2].
    cbn [snd] in S2. apply (@steady_frame w2); try reflexivity. exact S2.
  - apply (@steady_frame w); try reflexivity. exact S.
  - apply steady_addTransaction. exact S.
  - destruct (handleMessage_effect m peer w) as (Hm & Hb & Hc).
    assert (Sb : steady address first
                   (setBlockchain (blockchain (snd (Node.handleMessage m peer w))) w)).
    { destruct Hb as [-> | (tx & ->)]; [ | apply steady_addTransaction; exact S].
      apply (@steady_frame w); try reflexivity. exact S. }
    destruct Hc as [Hc | (d & Hc)].
    + apply (@steady_frame (setBlockchain (blockchain (snd (Node.handleMessage m peer w))) w));
        [reflexivity | rewrite Hm; reflexivity | exact Hc | exact Sb].
    + apply (@steady_quiet_calls
               (setBlockchain (blockchain (snd (Node.handleMessage m peer w))) w)
               _ [AddTransactionCall d]);
        [reflexivity | rewrite Hm; reflexivity | exact Hc | reflexivity | reflexivity
        | repeat constructor | exact Sb].
  - unfold Miner.resume.
    destruct (nth_error (loops w) k) as [[nb | ms | | ] | ]; try exact S.
    + apply (@steady_quiet_calls w _ [SleepCall 5000]); try reflexivity; try exact S.
      repeat constructor.
    + pose proof (@steady_iteration fuel clock _ S) as S2.
      destruct (Miner.iteration fuel clock w) as [p w2]. cbn [snd] in S2.
      apply (@steady_frame w2); try reflexivity. exact S2.
Qed.

Lemma steady_run (steps : list step) :
  forall w, steady address first w -> steady address first (run steps w).
Proof.
  induction steps as [| a steps IH]; intros w S; [exact S | ].
  cbn [run]. destruct (hung w); [exact S | ].
  apply IH. apply steady_perform. exact S.
Qed.

End Steady.

Lemma steady_boot (now : Z) (id : string) :
  steady "miner1" (Blockchain.createGenesisBlock now) (boot now id).
Proof.
  unfold steady. cbn. repeat split; try constructor.
Qed.

End Runs.

Section RunProperties.

(** X16: the node's own chain cannot be made invalid from inside the
    process: after any sequence of submissions, deliveries of arbitrary
    messages, starts, stops and wake-ups of mining loops, the ledger is one
    that was only mined, so [validateChain] answers true, the chain is not
    empty and the difficulty is still 4. *)
Theorem run_chain_valid (steps : list step) (now : Z) (id : string) :
  let s := blockchain (run steps (boot now id)) in
  Mined s
  /\ Blockchain.validateChain s = true
  /\ Blockchain.chain s <> []
  /\ Blockchain.difficulty s = 4.
Proof.
  cbv zeta. destruct (steady_run steps (steady_boot now id)) as (M & _).
  split; [exact M | ]. split; [apply mined_valid; exact M | ].
  split; [ | apply mined_difficulty; exact M].
  destruct (mined_has_tip M) as (prefix & tip & E). rewrite E.
  destruct prefix; discriminate.
Qed.

(** X17: as long as the transactions that reach the pool are records of
    the six fields with strings and integers (what [DoSubmit] and the
    payloads modelled for [DoDeliver] carry), the error path of the mining
    loop is never taken: no run contains the 10000 ms sleep of the [catch]
    branch, because [mineBlock] cannot raise on a ledger that was only
    mined.  (A pending value that [JSON.stringify] refuses does make it
    raise: see the untyped [mineBlock].) *)
Theorem run_never_backs_off (steps : list step) (now : Z) (id : string) :
  filter isBackoff (calls (run steps (boot now id))) = []
  /\ ~ In (SleepCall 10000) (calls (run steps (boot now id))).
Proof.
  destruct (steady_run steps (steady_boot now id)) as (_ & _ & B & _).
  split; [exact B | ].
  intros H. assert (H' : In (SleepCall 10000) (filter isBackoff
                                                 (calls (run steps (boot now id)))))
    by (apply filter_In; split; [exact H | reflexivity]).
  rewrite B in H'. exact H'.
Qed.

(** X18: the miner's address never changes, every [mineBlock] call of a
    run is made for it, and every block of the chain after the genesis
    block ends with the reward transaction for it. *)
Theorem run_rewards_the_miner (steps : list step) (now : Z) (id : string) :
  let w := run steps (boot now id) in
  Miner.getMinerAddress (miner w) = "miner1"%string
  /\ (forall a, In (MineBlockCall a) (calls w) -> a = "miner1"%string)
  /\ (forall i b,
        1 <= i -> nth_error (Blockchain.chain (blockchain w)) i = Some b ->
        exists pool rewardTime,
          Block.transactions b
          = pool ++ [Transaction.mk "system" "miner1" 50 0 rewardTime "system_reward"]).
Proof.
  cbv zeta. destruct (steady_run steps (steady_boot now id)) as (_ & A & _ & F & C & R).
  split; [exact A | ]. split.
  - intros a Ha. rewrite Forall_forall in F. exact (F _ Ha).
  - intros i b Hi Hb. rewrite C in Hb. destruct i as [| i]; [lia | ]. cbn in Hb.
    rewrite Forall_forall in R. apply (R b). apply (nth_error_In _ _ Hb).
Qed.

(** X19: the blocks handed to [broadcastBlock], in the order of the calls,
    are exactly the chain after its genesis block: every mined block is
    announced once, and nothing else is. *)
Theorem run_announces_the_chain (steps : list step) (now : Z) (id : string) :
  let w := run steps (boot now id) in
  Blockchain.chain (blockchain w)
  = Blockchain.createGenesisBlock now :: announced (calls w)
  /\ List.length (Blockchain.chain (blockchain w))
     = S (List.length (announced (calls w))).
Proof.
  cbv zeta. destruct (steady_run steps (steady_boot now id)) as (_ & _ & _ & _ & C & _).
  split; [exact C | rewrite C; reflexivity].
Qed.

(** X20: [start] is not idempotent and [stop] ends no loop by itself:
    every call of [start] adds one activation of the mining loop to those
    that exist, [stop] removes none, and a loop asleep when [stop] is
    followed by [start] is still asleep with the flag up again, so it goes
    on beside the new one.  With an empty pool two calls of [start] leave
    two sleeping loops. *)
Theorem start_adds_a_loop :
  (forall fuel clock w,
     exists p, loops (Miner.start fuel clock w) = loops w ++ [p])
  /\ (forall w, loops (Miner.stop w) = loops w)
  /\ (forall fuel clock k ms w,
        nth_error (loops w) k = Some (Sleeping ms) ->
        nth_error (loops (Miner.start fuel clock (Miner.stop w))) k = Some (Sleeping ms)
        /\ MinerState.isMining (miner (Miner.start fuel clock (Miner.stop w))) = true)
  /\ (forall fuel clock fuel2 clock2 w,
        Blockchain.pendingTransactions (blockchain w) = [] ->
        loops (Miner.start fuel2 clock2 (Miner.start fuel clock w))
        = loops w ++ [Sleeping 5000; Sleeping 5000]).
Proof.
  assert (A : forall fuel clock w,
             loops (Miner.start fuel clock w)
             = loops w ++ [fst (Miner.iteration fuel clock (Miner.setIsMining true w))]).
  { intros fuel clock w. unfold Miner.start, Miner.miningLoop.
    destruct (iteration_frame fuel clock (Miner.setIsMining true w)) as [_ L].
    destruct (Miner.iteration fuel clock (Miner.setIsMining true w)) as [p w1].
    cbn in *. rewrite L. reflexivity. }
  split; [intros fuel clock w; eexists; apply A | ].
  split; [reflexivity | ].
  split.
  - intros fuel clock k ms w Hk. split; [ | apply start_sets_flag].
    rewrite A. cbn [Miner.stop Miner.setIsMining setMiner loops].
    rewrite nth_error_app1; [exact Hk | ].
    apply nth_error_Some. rewrite Hk. discriminate.
  - intros fuel clock fuel2 clock2 w Hp.
    assert (I : forall f c w0,
               Blockchain.pendingTransactions (blockchain w0) = [] ->
               Miner.start f c w0
               = mkWorld (blockchain w0) (node w0)
                   (MinerState.mk true (MinerState.minerAddress (miner w0)))
                   (loops w0 ++ [Sleeping 5000]) (console w0)
                   (calls w0 ++ [SleepCall 5000])).
    { intros f c w0 H0. unfold Miner.start, Miner.miningLoop.
      rewrite (@iteration_idle f c (Miner.setIsMining true w0) eq_refl H0). reflexivity. }
    rewrite (I fuel clock w Hp), I by exact Hp. cbn [loops].
    rewrite <- List.app_assoc. reflexivity.
Qed.

End RunProperties.

(* ================================================================== *)
(** ** The entry point *)
(* ================================================================== *)

Section EntryPoint.

Local Open Scope Z_scope.

Lemma example_mined :
  Blockchain.mineBlock 2 "miner1" 1700000005300 1700000005300 (blockchain exampleWorld)
  = Ok (exampleBlock, exampleLedger).
Proof. vm_compute. reflexivity. Qed.

(** X21: when [main] returns, the node is active with the three bootstrap
    peers, the miner is running with one loop asleep for 5000 ms, and the
    example transaction is pending on a chain that holds the genesis block
    only: [start] looked at the pool before the transaction was submitted,
    so nothing was mined yet.  When that loop wakes and its [mineBlock]
    call returns, the block holds the example transaction and the reward
    and is handed to [broadcastBlock], which sleeps 10 ms for each of the
    three peers before the loop sleeps 5000 ms again; alice then has 50,
    genesis -51 and miner1 50.  At the clock readings of the concrete run
    the call does return, at nonce 1. *)
Theorem main_spec (now : Z) (id : string) (fuel : nat) (clock : Z * Z) (txTime : Z) :
  let w := main now id fuel clock txTime in
  Miner.isMiningActive (miner w) = true
  /\ NodeServer.isActive (node w) = true
  /\ NodeServer.getPeers (node w) = NodeServer.bootstrapPeers
  /\ loops w = [Sleeping 5000]
  /\ calls w = [SleepCall 5000]
  /\ Blockchain.chain (blockchain w) = [Blockchain.createGenesisBlock now]
  /\ Blockchain.pendingTransactions (blockchain w) = [exampleTransaction txTime]
  /\ (forall fuel1 clock1 newBlock b sendTime fuel2 clock2,
        Blockchain.mineBlock fuel1 "miner1" (fst clock1) (snd clock1) (blockchain w)
        = Ok (newBlock, b) ->
        let w1 := Miner.resume 0 fuel1 clock1 w in
        let w2 := announce 0 sendTime w1 in
        let w3 := Miner.resume 0 fuel2 clock2 w2 in
        loops w1 = [Broadcasting newBlock]
        /\ calls w3
           = [SleepCall 5000; MineBlockCall "miner1"; BroadcastBlockCall newBlock;
              SleepCall 10; SleepCall 10; SleepCall 10; SleepCall 5000]
        /\ loops w3 = [Sleeping 5000]
        /\ Block.transactions newBlock
           = [exampleTransaction txTime; rewardTransaction "miner1" (fst clock1)]
        /\ Blockchain.chain (blockchain w3) = [Blockchain.createGenesisBlock now; newBlock]
        /\ Blockchain.pendingTransactions (blockchain w3) = []
        /\ Blockchain.getBalance "alice" (blockchain w3) = Js.ofZ 50
        /\ Blockchain.getBalance "genesis" (blockchain w3) = Js.ofZ (-51)
        /\ Blockchain.getBalance "miner1" (blockchain w3) = Js.ofZ 50)
  /\ Blockchain.mineBlock 2 "miner1" 1700000005300 1700000005300 (blockchain exampleWorld)
     = Ok (exampleBlock, exampleLedger).
Proof.
  cbv zeta. do 7 (split; [reflexivity | ]).
  split; [ | exact example_mined].
  intros fuel1 clock1 nb b sendTime fuel2 clock2 H.
  set (w := main now id fuel clock txTime) in *.
  rewrite (@resume_sleeping 0 fuel1 clock1 w 5000 eq_refl).
  rewrite (@iteration_mines fuel1 clock1 w nb b eq_refl ltac:(discriminate) H).
  cbn [fst snd setLoops calls loops blockchain Miner.replace].
  apply mineBlock_inv in H. destruct H as (tip & k & _ & -> & _ & ->).
  repeat split.
Qed.

(** The concrete run: the hypothesis of the theorem holds at the clock
    readings of [exampleWorld], and the conclusions follow for the block
    mined there. *)
Lemma main_spec_witness :
  Blockchain.mineBlock 2 "miner1" 1700000005300 1700000005300 (blockchain exampleWorld)
  = Ok (exampleBlock, exampleLedger)
  /\ calls (Miner.resume 0 3 (1700000005320, 1700000005320)
              (announce 0 1700000005301
                 (Miner.resume 0 2 (1700000005300, 1700000005300) exampleWorld)))
     = [SleepCall 5000; MineBlockCall "miner1"; BroadcastBlockCall exampleBlock;
        SleepCall 10; SleepCall 10; SleepCall 10; SleepCall 5000]
  /\ Blockchain.getBalance "alice"
       (blockchain (Miner.resume 0 3 (1700000005320, 1700000005320)
                      (announce 0 1700000005301
                         (Miner.resume 0 2 (1700000005300, 1700000005300) exampleWorld))))
     = Js.ofZ 50.
Proof.
  destruct (main_spec 1700000000000 "node_a" 3 (1700000000002, 1700000000002)
              1700000000041) as (_ & _ & _ & _ & _ & _ & _ & Hwake & Hrun).
  split; [exact Hrun | ].
  destruct (Hwake 2%nat (1700000005300, 1700000005300) exampleBlock exampleLedger
              1700000005301 3%nat (1700000005320, 1700000005320) Hrun)
    as (_ & Hcalls & _ & _ & _ & _ & Halice & _).
  split; [exact Hcalls | exact Halice].
Defined.

End EntryPoint.
